(** * pcax: experiment configurations, job submission wrapper and the
      training-stability analysis notebook

    A shallow embedding of
    - the experiment configuration records (YAML documents),
    - the job submission wrapper (a two-line shell script),
    - [errorbar], [mark_max], [plot_lineplots] and the code cells of
      [training_stability.ipynb],
    - the release workflow,
    the properties of them that the specification states, and more
    properties that the code has. *)

From Stdlib Require Import ZArith Floats Bool Lia Ascii String.
From stdpp Require Import base option list strings gmap sorting.

Local Open Scope Z_scope.
Set Warnings "-register-all,-inexact-float".

(** ** float64 cells

    Numeric columns of a DataFrame are float64.  They are modelled by the
    kernel's binary64 numbers, so that NaN and rounding behave as they do in
    the notebook. *)

Module F64.

Definition lt (a b : float) : bool := PrimFloat.ltb a b.
Definition isnan (a : float) : bool := PrimFloat.is_nan a.

(** [Series.fillna(-inf)], as [nanargmax] does before taking the arg max. *)
Definition fill_neg_inf (a : float) : float :=
  if isnan a then neg_infinity else a.

End F64.

(** ** Experiment configuration records

    The configuration files are YAML documents: nested mappings whose leaves
    are scalars or sequences.  Mappings are association lists in file order.
    A numeric literal with a fraction or an exponent is kept exactly, as
    mantissa and decimal exponent ([YNum m e] is [m * 10^e]). *)

Module Yaml.

Local Open Scope string_scope.

Inductive yaml : Type :=
| YNull
| YBool (b : bool)
| YInt (z : Z)
| YNum (m e : Z)
| YStr (s : string)
| YSeq (items : list yaml)
| YMap (entries : list (string * yaml)).

(** [cfg[k]] for a mapping. *)
Fixpoint assoc (k : string) (entries : list (string * yaml)) : option yaml :=
  match entries with
  | [] => None
  | (k', v) :: rest => if String.eqb k k' then Some v else assoc k rest
  end.

Definition get (k : string) (y : yaml) : option yaml :=
  match y with
  | YMap entries => assoc k entries
  | _ => None
  end.

(** [cfg.a.b.c] *)
Fixpoint get_path (p : list string) (y : yaml) : option yaml :=
  match p with
  | [] => Some y
  | k :: p' => match get k y with Some v => get_path p' v | None => None end
  end.

Definition has_key (k : string) (y : yaml) : bool :=
  match get k y with Some _ => true | None => false end.

Definition has_path (p : list string) (y : yaml) : bool :=
  match get_path p y with Some _ => true | None => false end.

(** Every node of a document with the path of keys that leads to it. *)
Fixpoint nodes (path : list string) (y : yaml) : list (list string * yaml) :=
  (path, y) ::
  match y with
  | YMap entries =>
      (fix go (es : list (string * yaml)) : list (list string * yaml) :=
         match es with
         | [] => []
         | (k, v) :: es' => (nodes (path ++ [k]) v ++ go es')%list
         end) entries
  | YSeq items =>
      (fix go (vs : list yaml) : list (list string * yaml) :=
         match vs with
         | [] => []
         | v :: vs' => (nodes path v ++ go vs')%list
         end) items
  | _ => []
  end.

(** Does key [k] occur in a mapping at any depth? *)
Definition mentions (k : string) (y : yaml) : bool :=
  existsb (fun n => has_key k n.2) (nodes [] y).

(** *** The sampling specification of a hyperparameter *)

Definition sampling_fields : list string :=
  ["sample_type"; "sample_space"; "default"].

(** A hyperparameter is annotated when its value is a mapping that holds a
    field of the sampling specification. *)
Definition annotated (y : yaml) : bool :=
  existsb (fun k => has_key k y) sampling_fields.

Definition fully_specified (y : yaml) : bool :=
  forallb (fun k => has_key k y) sampling_fields.

(** The hyperparameters of a record: the nodes below its [hp] section and,
    for the sweep grid, below [optim] and [experiment]. *)
Definition hyperparameters (cfg : yaml) : list (list string * yaml) :=
  flat_map (fun sec => match get sec cfg with
                       | Some v => nodes [sec] v
                       | None => []
                       end) ["hp"; "optim"; "experiment"].

(** *** The records *)

Definition float_spec (lo hi : yaml) (rest : list yaml) (dflt : yaml) : yaml :=
  YMap [("sample_type", YStr "float");
        ("sample_space", YSeq (YSeq [lo; hi] :: rest));
        ("default", dflt)].

Definition act_fn_spec (dflt : string) : yaml :=
  YMap [("sample_type", YStr "categorical");
        ("sample_space", YSeq [YStr "relu"; YStr "leaky_relu"; YStr "gelu";
                               YStr "tanh"; YStr "hard_tanh"]);
        ("default", YStr dflt)].

Definition log_uniform (lo hi dflt : yaml) : yaml :=
  float_spec lo hi [YNull; YBool true] dflt.

Definition momentum_spec (dflt : yaml) : yaml :=
  float_spec (YNum 0 (-1)) (YNum 95 (-2)) [YNum 5 (-2)] dflt.

(** The sweep grid of the training-stability experiment. *)
Definition training_stability_grid : yaml :=
  YMap [
    ("defaults", YSeq [YMap [("data", YStr "two_moons")]]);
    ("optim", YMap [
       ("num_epochs", YInt 8);
       ("h", YMap [("optimizer", YStr "sgd"); ("T", YInt 8)])]);
    ("experiment", YMap [
       ("h_dims", YSeq [YInt 512; YInt 1024; YInt 2048; YInt 4096]);
       ("h_lr", YSeq [YNum 1 (-3); YNum 3 (-3); YNum 1 (-2); YNum 3 (-2);
                      YNum 1 (-1); YNum 3 (-1); YNum 10 (-1)]);
       ("w_lr", YSeq [YNum 1 (-5); YNum 1 (-4); YNum 1 (-3); YNum 1 (-2);
                      YNum 1 (-1)]);
       ("optimizer_w", YSeq [YStr "sgd"; YStr "adamw"]);
       ("momentum_w", YSeq [YNum 0 (-1); YNum 5 (-1); YNum 9 (-1); YNum 95 (-2)]);
       ("activation_fn", YSeq [YStr "leaky_relu"; YStr "hard_tanh"]);
       ("seeds", YInt 3)]);
    ("model", YMap [
       ("definition", YStr "PC");
       ("init_h", YStr "forward");
       ("init_h_sd", YNum 1 (-1));
       ("constant_layer_size", YBool false);
       ("init_w", YStr "default")]);
    ("run", YMap [
       ("n_parallel", YInt 1);
       ("reload_data", YBool false);
       ("jit", YBool true)])].

(** The two hypertune records of the linear autoencoder share their shape. *)
Definition linear_hypertune (dataset : string)
    (x_lr x_momentum w_lr w_wd : yaml) : yaml :=
  YMap [
    ("direction", YStr "minimize");
    ("gpus_per_task", YInt 1);
    ("dataset_name", YStr dataset);
    ("seed", YInt 4);
    ("hp", YMap [
       ("layer_dims", YSeq [YInt 64; YInt 128; YInt 128; YInt 784]);
       ("act_fn", act_fn_spec "hard_tanh");
       ("output_act_fn", YNull);
       ("batch_size", YInt 200);
       ("epochs", YInt 30);
       ("T", YInt 20);
       ("use_ipc", YBool false);
       ("optim", YMap [
          ("x", YMap [
             ("lr", log_uniform (YNum 1 (-2)) (YNum 5 (-1)) x_lr);
             ("momentum", momentum_spec x_momentum)]);
          ("w", YMap [
             ("name", YStr "adamw");
             ("lr", log_uniform (YNum 3 (-5)) (YNum 1 (-3)) w_lr);
             ("wd", log_uniform (YNum 1 (-5)) (YNum 1 (-2)) w_wd);
             ("momentum", YNum 0 (-1))])])])].

Definition pc_mnist_adamw_hypertune : yaml :=
  linear_hypertune "mnist"
    (YNum 19849750737164974 (-18)) (YNum 15 (-2))
    (YNum 3401383559476183 (-19)) (YNum 12514685116492747 (-21)).

Definition pc_fashionmnist_adamw_hypertune : yaml :=
  linear_hypertune "fashion_mnist"
    (YNum 11910178174048628 (-18)) (YNum 45 (-2))
    (YNum 5149979608369072 (-19)) (YNum 7382135878282121 (-20)).

(** The hypertune records of the deconvolutional autoencoder. *)
Definition deconv_hypertune (act_default : string) (w : yaml)
    (x_lr x_momentum : yaml) : yaml :=
  YMap [
    ("direction", YStr "minimize");
    ("gpus_per_task", YInt 1);
    ("dataset_name", YStr "cifar10");
    ("seed", YInt 0);
    ("hp", YMap [
       ("num_layers", YInt 3);
       ("internal_state_dim", YInt 4);
       ("internal_state_channels", YInt 8);
       ("kernel_size", YMap [
          ("sample_type", YStr "categorical");
          ("sample_space", YSeq [YInt 3; YInt 4; YInt 5; YInt 7]);
          ("default", YInt 4)]);
       ("act_fn", act_fn_spec act_default);
       ("output_act_fn", YNull);
       ("batch_size", YInt 200);
       ("epochs", YInt 30);
       ("T", YInt 20);
       ("use_ipc", YBool false);
       ("optim", YMap [
          ("x", YMap [
             ("lr", log_uniform (YNum 1 (-2)) (YNum 5 (-1)) x_lr);
             ("momentum", momentum_spec x_momentum)]);
          ("w", w)])])].

Definition pc_cifar10_sgd_hypertune : yaml :=
  deconv_hypertune "tanh"
    (YMap [
       ("name", YStr "sgd");
       ("lr", log_uniform (YNum 3 (-5)) (YNum 1 (-2)) (YNum 9158349688429868 (-19)));
       ("wd", log_uniform (YNum 1 (-5)) (YNum 1 (-2)) (YNum 5516419568456441 (-18)));
       ("momentum", momentum_spec (YNum 45 (-2)))])
    (YNum 3686335775128242 (-16)) (YNum 55 (-2)).

Definition pc_cifar10_adamw_hypertune : yaml :=
  deconv_hypertune "hard_tanh"
    (YMap [
       ("name", YStr "adamw");
       ("lr", log_uniform (YNum 3 (-5)) (YNum 1 (-3)) (YNum 897883696520861 (-18)));
       ("wd", log_uniform (YNum 1 (-5)) (YNum 1 (-2)) (YNum 992856858997552 (-17)));
       ("momentum", YNum 0 (-1))])
    (YNum 16660532913375187 (-18)) (YNum 5 (-2)).

Definition hypertune_configs : list yaml :=
  [pc_mnist_adamw_hypertune; pc_fashionmnist_adamw_hypertune;
   pc_cifar10_sgd_hypertune; pc_cifar10_adamw_hypertune].

Definition experiment_configs : list yaml :=
  training_stability_grid :: hypertune_configs.

(** *** The hyperparameters the specification lists

    Each is recognised by the keys the records use for it, at any depth. *)

Inductive hyperparameter :=
| LearningRate | Momentum | WeightDecay | LayerDims | ActivationFn
| OptimizerName | RelaxationSteps | EpochCount | BatchSize.

Definition key_names (h : hyperparameter) : list string :=
  match h with
  | LearningRate => ["lr"; "h_lr"; "w_lr"]
  | Momentum => ["momentum"; "momentum_w"]
  | WeightDecay => ["wd"; "weight_decay"]
  | LayerDims => ["layer_dims"; "h_dims"; "internal_state_dim"]
  | ActivationFn => ["act_fn"; "activation_fn"]
  | OptimizerName => ["name"; "optimizer"; "optimizer_w"]
  | RelaxationSteps => ["T"]
  | EpochCount => ["epochs"; "num_epochs"]
  | BatchSize => ["batch_size"]
  end.

Definition all_hyperparameters : list hyperparameter :=
  [LearningRate; Momentum; WeightDecay; LayerDims; ActivationFn;
   OptimizerName; RelaxationSteps; EpochCount; BatchSize].

Definition contains (h : hyperparameter) (cfg : yaml) : bool :=
  existsb (fun k => mentions k cfg) (key_names h).

Definition is_mapping (y : yaml) : bool :=
  match y with YMap _ => true | _ => false end.

Definition is_hypertune (cfg : yaml) : bool := has_key "hp" cfg.

(** The hyperparameters every record has, and where the two kinds of
    record keep them. *)
Definition common_hyperparameters : list hyperparameter :=
  [LearningRate; Momentum; LayerDims; ActivationFn; OptimizerName;
   RelaxationSteps; EpochCount].

Definition hypertune_paths : list (list string) :=
  [ ["hp"; "optim"; "x"; "lr"]; ["hp"; "optim"; "w"; "lr"];
    ["hp"; "optim"; "x"; "momentum"]; ["hp"; "optim"; "w"; "momentum"];
    ["hp"; "optim"; "w"; "wd"]; ["hp"; "act_fn"]; ["hp"; "optim"; "w"; "name"];
    ["hp"; "T"]; ["hp"; "epochs"]; ["hp"; "batch_size"] ].

Definition grid_paths : list (list string) :=
  [ ["experiment"; "h_lr"]; ["experiment"; "w_lr"]; ["experiment"; "momentum_w"];
    ["experiment"; "h_dims"]; ["experiment"; "activation_fn"];
    ["experiment"; "optimizer_w"]; ["optim"; "h"; "optimizer"];
    ["optim"; "h"; "T"]; ["optim"; "num_epochs"] ].

(** The check behind the sampling specifications, as a boolean. *)
Definition sampling_complete (cfg : yaml) : bool :=
  forallb (λ n, implb (annotated n.2) (fully_specified n.2)) (hyperparameters cfg).

(** *** Sample spaces

    A categorical sample space lists the choices.  A float sample space is
    [[lo, hi], step, log]: the bounds and then, when they are given, the
    step of the grid and whether the scale is logarithmic. *)

(** A number as mantissa and decimal exponent. *)
Definition number (y : yaml) : option (Z * Z) :=
  match y with
  | YInt z => Some (z, 0%Z)
  | YNum m e => Some (m, e)
  | _ => None
  end.

(** [m * 10^(e - e0)], an integer when [e0 <= e]. *)
Definition scaled (e0 : Z) (x : Z * Z) : Z := (x.1 * 10 ^ (x.2 - e0))%Z.

(** [a <= b], compared exactly. *)
Definition num_le (a b : Z * Z) : bool :=
  let e0 := Z.min a.2 b.2 in (scaled e0 a <=? scaled e0 b)%Z.

(** [x] is [lo] plus a whole number of steps. *)
Definition on_grid (lo x step : Z * Z) : bool :=
  let e0 := Z.min (Z.min lo.2 x.2) step.2 in
  negb (scaled e0 step =? 0)%Z
  && ((scaled e0 x - scaled e0 lo) mod scaled e0 step =? 0)%Z.

Definition scalar_eqb (a b : yaml) : bool :=
  match a, b with
  | YNull, YNull => true
  | YBool x, YBool y => Bool.eqb x y
  | YInt x, YInt y => (x =? y)%Z
  | YStr x, YStr y => String.eqb x y
  | _, _ => false
  end.

Definition in_float_space (space : list yaml) (d : yaml) : bool :=
  match space with
  | YSeq [lo; hi] :: rest =>
      match number lo, number hi, number d with
      | Some l, Some h, Some x =>
          num_le l x && num_le x h
          && match rest with
             | step :: _ =>
                 match number step with
                 | Some s => on_grid l x s
                 | None => true
                 end
             | [] => true
             end
      | _, _, _ => false
      end
  | _ => false
  end.

(** The default of a sampling specification is a value of its space. *)
Definition default_in_space (hp : yaml) : bool :=
  match get "sample_type" hp, get "sample_space" hp, get "default" hp with
  | Some (YStr type), Some (YSeq space), Some d =>
      if String.eqb type "categorical" then existsb (scalar_eqb d) space
      else if String.eqb type "float" then in_float_space space d
      else false
  | _, _, _ => false
  end.

(** The sampling specifications of a record, with their paths. *)
Definition sampling_specifications (cfg : yaml) : list (list string * yaml) :=
  List.filter (λ n, annotated n.2) (hyperparameters cfg).

End Yaml.

(** ** The job submission wrapper

    [[
    study=$1

    python -m stune --exe bp_hypertune --study bp_${study} --gpus "0,1,2,3,4,5,6,7" --n_trials 32:8 --tuner ssh --config bp_${study}_hypertune.yaml
    ]]

    A script is a list of commands; a word is a list of parts.  An unquoted
    parameter expansion is split into fields at blanks and the fields that
    hold a pattern character are matched against the working directory;
    an assignment expands its value with neither. *)

Module Shell.

Local Open Scope string_scope.

Inductive part : Type :=
| Lit (s : string)          (* literal characters *)
| Quoted (s : string)       (* "..." without expansions *)
| Positional (n : nat)      (* unquoted $n, n >= 1 *)
| Var (name : string).      (* unquoted ${name} *)

Definition word := list part.

Inductive command : Type :=
| Assign (name : string) (value : word)
| Simple (words : list word).

Record env : Type := mkEnv {
  positional : list string;          (* $1, $2, ... *)
  vars : gmap string string
}.

(** An unset parameter expands to the empty string. *)
Definition param_value (p : part) (ρ : env) : string :=
  match p with
  | Lit s | Quoted s => s
  | Positional n => default "" (positional ρ !! pred n)
  | Var x => default "" (vars ρ !! x)
  end.

(** The default [IFS]: space, tab, newline. *)
Definition is_ifs (c : ascii) : bool :=
  match Ascii.nat_of_ascii c with
  | 32%nat | 9%nat | 10%nat => true
  | _ => false
  end.

(** Characters that make an unquoted field a pattern: [*], [?], [[]. *)
Definition is_glob (c : ascii) : bool :=
  match Ascii.nat_of_ascii c with
  | 42%nat | 63%nat | 91%nat => true
  | _ => false
  end.

(** A field under construction: its text, and whether pathname expansion
    applies to it. *)
Definition field : Type := string * bool.

Record fields : Type := mkFields {
  finished : list field;
  current : option field
}.

Definition add_char (c : ascii) (pattern : bool) (a : fields) : fields :=
  mkFields (finished a)
    (Some match current a with
          | Some (t, g) => (t ++ String c "", g || pattern)
          | None => (String c "", pattern)
          end).

Definition end_field (a : fields) : fields :=
  match current a with
  | Some f => mkFields (finished a ++ [f])%list None
  | None => a
  end.

Fixpoint add_literal (s : string) (a : fields) : fields :=
  match s with
  | "" => a
  | String c s' => add_literal s' (add_char c false a)
  end.

Fixpoint add_unquoted (s : string) (a : fields) : fields :=
  match s with
  | "" => a
  | String c s' =>
      add_unquoted s' (if is_ifs c then end_field a else add_char c (is_glob c) a)
  end.

Definition add_part (ρ : env) (a : fields) (p : part) : fields :=
  match p with
  | Lit s => add_literal s a
  | Quoted s =>
      (* a quoted part makes a field even when it is empty *)
      add_literal s (mkFields (finished a)
                       (Some (default ("", false) (current a))))
  | Positional _ | Var _ => add_unquoted (param_value p ρ) a
  end.

Section Run.

(** The file names of the working directory that match a pattern. *)
Variable glob : string → list string.
(** The exit status of an external program run with an argument vector. *)
Variable spawn : list string → Z.

Definition pathname_expansion (f : field) : list string :=
  if f.2 then match glob f.1 with [] => [f.1] | names => names end
  else [f.1].

Definition expand_word (ρ : env) (w : word) : list string :=
  flat_map pathname_expansion
    (finished (end_field (foldl (add_part ρ) (mkFields [] None) w))).

(** The value of an assignment: expanded, not split, not matched. *)
Definition expand_value (ρ : env) (w : word) : string :=
  foldr (λ p acc, param_value p ρ ++ acc) "" w.

Record state : Type := mkState {
  environment : env;
  status : Z;                       (* $? *)
  processes : list (list string)    (* argument vectors run so far *)
}.

Definition run_command (st : state) (c : command) : state :=
  match c with
  | Assign x w =>
      let ρ := environment st in
      mkState (mkEnv (positional ρ) (<[x := expand_value ρ w]> (vars ρ)))
              0 (processes st)
  | Simple ws =>
      match flat_map (expand_word (environment st)) ws with
      | [] => mkState (environment st) 0 (processes st)
      | argv => mkState (environment st) (spawn argv)
                        (processes st ++ [argv])%list
      end
  end.

Definition run (script : list command) (args : list string) : state :=
  foldl run_command (mkState (mkEnv args ∅) 0 []) script.

End Run.

(** The wrapper itself. *)
Definition run_script : list command :=
  [ Assign "study" [Positional 1];
    Simple [ [Lit "python"]; [Lit "-m"]; [Lit "stune"];
             [Lit "--exe"]; [Lit "bp_hypertune"];
             [Lit "--study"]; [Lit "bp_"; Var "study"];
             [Lit "--gpus"]; [Quoted "0,1,2,3,4,5,6,7"];
             [Lit "--n_trials"]; [Lit "32:8"];
             [Lit "--tuner"]; [Lit "ssh"];
             [Lit "--config"]; [Lit "bp_"; Var "study"; Lit "_hypertune.yaml"] ] ].

(** An argument free of blanks and pattern characters. *)
Fixpoint plain (s : string) : bool :=
  match s with
  | "" => true
  | String c s' => negb (is_ifs c) && negb (is_glob c) && plain s'
  end.

(** The argument vector the wrapper is meant to build for a study. *)
Definition driver_argv (study : string) : list string :=
  ["python"; "-m"; "stune"; "--exe"; "bp_hypertune";
   "--study"; "bp_" ++ study;
   "--gpus"; "0,1,2,3,4,5,6,7";
   "--n_trials"; "32:8";
   "--tuner"; "ssh";
   "--config"; "bp_" ++ study ++ "_hypertune.yaml"].

(** The options of an argument vector: its words that start with [--]. *)
Definition options (argv : list string) : list string :=
  List.filter (String.prefix "--") argv.

(** The value that follows an option. *)
Fixpoint option_value (opt : string) (argv : list string) : option string :=
  match argv with
  | o :: rest =>
      if String.eqb o opt then head rest else option_value opt rest
  | [] => None
  end.

(** The four parameters the interface description names. *)
Definition named_options : list string :=
  ["--study"; "--gpus"; "--n_trials"; "--config"].

(** The words of the wrapper's command line. *)
Definition driver_words : list word :=
  match run_script with
  | [_; Simple ws] => ws
  | _ => []
  end.

(** The environment after [study=$1]. *)
Definition after_assignment (args : list string) : env :=
  mkEnv args (<["study" := expand_value (mkEnv args ∅) [Positional 1]]> ∅).

(** A string without blanks, and one without pattern characters. *)
Fixpoint no_blank (s : string) : bool :=
  match s with
  | "" => true
  | String c s' => negb (is_ifs c) && no_blank s'
  end.

Fixpoint no_glob (s : string) : bool :=
  match s with
  | "" => true
  | String c s' => negb (is_glob c) && no_glob s'
  end.

(** A word that names no positional parameter. *)
Definition no_positional (w : word) : bool :=
  forallb (λ p, match p with Positional _ => false | _ => true end) w.

(** A field that holds no blank and is no pattern, and a list of fields
    under construction all of whose fields are so. *)
Definition clean_field (f : field) : bool := no_blank f.1 && negb f.2.

Definition clean (a : fields) : bool :=
  forallb clean_field (finished a) && from_option clean_field true (current a).

(** The words an unquoted, blank-free expansion [p] becomes, [pattern]
    telling whether it holds a pattern character: the names of the files
    that match, when there are any, and else [p] itself. *)
Definition matches (glob : string → list string) (pattern : bool) (p : string)
    : list string :=
  if pattern then match glob p with [] => [p] | names => names end else [p].

(** The command line of the driver for a study without blanks. *)
Definition driver_argv_matching (glob : string → list string) (study : string)
    : list string :=
  (["python"; "-m"; "stune"; "--exe"; "bp_hypertune"; "--study"]
   ++ matches glob (negb (no_glob study)) ("bp_" ++ study)
   ++ ["--gpus"; "0,1,2,3,4,5,6,7"; "--n_trials"; "32:8"; "--tuner"; "ssh";
       "--config"]
   ++ matches glob (negb (no_glob study)) ("bp_" ++ study ++ "_hypertune.yaml"))%list.

(** A working directory with two configuration files. *)
Definition two_configs (p : string) : list string :=
  if String.eqb p "bp_*" then ["bp_cifar10_hypertune.yaml"; "bp_mnist_hypertune.yaml"]
  else if String.eqb p "bp_*_hypertune.yaml"
       then ["bp_cifar10_hypertune.yaml"; "bp_mnist_hypertune.yaml"]
       else [].

End Shell.

(** ** The analysis notebook [training_stability.ipynb]

    A DataFrame is a list of rows in order, each with its index label.
    DataFrames are objects: the interpreter state holds them in a heap and
    the notebook's variables hold references.  Calls into the plotting
    libraries are logged in order; a library call may raise, which an oracle
    decides from the call and the calls made before it. *)

Module Notebook.

Local Open Scope string_scope.

(** *** Data *)

Inductive cell : Type :=
| CStr (s : string)
| CInt (z : Z)
| CFloat (x : float)
| CBool (b : bool).

(** A row of the results table: the columns [plot_lineplots] names, and
    every other column of the table (weight learning rate, activation
    function, seed, ...) by name. *)
Record result_row : Type := mkResult {
  condition : string;                  (* "condition" *)
  config_h_lr : float;                 (* "config.h_lr" *)
  experiment_data_dataset : string;    (* "experiment.data.dataset" *)
  config_hidden_dims : Z;              (* "config.hidden_dims" *)
  results_accuracy : float;            (* "results.accuracy" *)
  other_columns : list (string * cell)
}.

(** A row of the table [mark_max] is given. *)
Record point_row : Type := mkPoint {
  h_dim : Z;                           (* "h_dim" *)
  h_lr : float;                        (* "h_lr" *)
  accuracy : float                     (* "accuracy" *)
}.

Definition frame (R : Type) : Type := list (Z * R).

Inductive color : Type :=
| PaletteColor (name : string) (n_colors i : nat).

Inductive exn : Type :=
| KeyError (key : string)
| IndexError (msg : string)
| NameError (msg : string)
| LibraryError (msg : string).

(** Calls into matplotlib and seaborn.  A line plot records what seaborn
    reads from its [data]: the [x], [y] and [hue] columns. *)
Inductive plot_call : Type :=
| plt_clf
| sns_set_theme (context style : string)
| rcParams_update (params : list (string * cell))
| rcParams_set_figsize_height (height : float)
| plt_figure
| fig_add_gridspec (nrows ncols : nat) (width_ratios : list Z)
| fig_add_subplot (row col : nat)
| sns_color_palette (name : string) (n_colors : nat)
| sns_lineplot (ax : nat) (x_y_hue : list (float * float * Z))
               (marker : option string) (palette : list color)
| ax_set_xlabel (ax : nat) (label : string)
| ax_set_xticks (ax : nat) (ticks : list float)
| ax_set_xscale (ax : nat) (scale : string)
| ax_set_ylabel (ax : nat) (label : string)
| ax_legend (ax : nat) (ncol : nat) (title : string) (title_fontsize : Z)
            (loc : string)
| ax_legend_default (ax : nat)
| ax_legend_set_visible (ax : nat) (visible : bool)
| ax_set_yticklabels (ax : nat) (labels : list string)
| ax_set_title (ax : nat) (title : string)
| ax_set_ylim (ax : nat) (lo hi : Z)
| plt_savefig (path : string)
| plt_close
| plt_scatter (x y : float) (s : Z) (alpha : float) (c : color).

Record pystate : Type := mkPy {
  heap : gmap nat (frame result_row);
  calls : list plot_call
}.

(** *** Strings and paths *)

(** [pat in s], also [Series.str.contains(pat)] for a pattern without
    regular-expression characters. *)
Fixpoint str_contains (pat s : string) : bool :=
  String.prefix pat s ||
  match s with
  | "" => false
  | String _ s' => str_contains pat s'
  end.

Fixpoint endswith_slash (s : string) : bool :=
  match s with
  | "" => false
  | String c "" => Ascii.eqb c "/"
  | String _ s' => endswith_slash s'
  end.

(** [os.path.join(a, b)] on a POSIX system. *)
Definition os_path_join (a b : string) : string :=
  if String.prefix "/" b then b
  else if String.eqb a "" || endswith_slash a then a ++ b
  else a ++ "/" ++ b.

(** *** Columns *)

Definition column {R A : Type} (f : R → A) (d : frame R) : list A :=
  map (λ r, f r.2) d.

(** [d[mask]] and [d.loc[mask]] for a boolean mask over the rows of [d]. *)
Fixpoint select {R : Type} (mask : list bool) (d : frame R) : frame R :=
  match mask, d with
  | b :: mask', r :: d' => if b then r :: select mask' d' else select mask' d'
  | _, _ => []
  end.

Definition set_h_lr (r : Z * result_row) (x : float) : Z * result_row :=
  (r.1, mkResult (condition r.2) x (experiment_data_dataset r.2)
                 (config_hidden_dims r.2) (results_accuracy r.2)
                 (other_columns r.2)).

(** [sorted(column.unique())] of an integer column. *)
Fixpoint insert_key (k : Z) (ks : list Z) : list Z :=
  match ks with
  | [] => [k]
  | k' :: ks' =>
      if (k <? k')%Z then k :: ks
      else if (k =? k')%Z then ks
      else k' :: insert_key k ks'
  end.

Definition sorted_unique (ks : list Z) : list Z := foldr insert_key [] ks.

Definition x_y_hue (d : frame result_row) : list (float * float * Z) :=
  map (λ r, (config_h_lr r.2, results_accuracy r.2, config_hidden_dims r.2)) d.

(** *** Group-wise maximum, as [mark_max] computes it *)

Definition fill (r : Z * point_row) : float := F64.fill_neg_inf (accuracy r.2).

(** The arg max of [best :: rest], scanning left to right: a later row takes
    the place of the best one only when it is strictly greater, so that of
    equal maxima the first one stays. *)
Fixpoint argmax_from (best : Z * point_row) (rest : frame point_row)
    : Z * point_row :=
  match rest with
  | [] => best
  | r :: rest' =>
      argmax_from (if F64.lt (fill best) (fill r) then r else best) rest'
  end.

Definition first_argmax (x : frame point_row) : option (Z * point_row) :=
  match x with
  | [] => None
  | r :: rest => Some (argmax_from r rest)
  end.

(** [x["accuracy"].idxmax()]: the label of the first row that attains the
    maximum, NaN being skipped; no label when every accuracy is NaN. *)
Definition idxmax (x : frame point_row) : option Z :=
  if forallb (λ r, F64.isnan (accuracy r.2)) x then None
  else fst <$> first_argmax x.

(** The group of a key. *)
Definition group (data : frame point_row) (k : Z) : frame point_row :=
  List.filter (λ r, (h_dim r.2 =? k)%Z) data.

(** [x.loc[label]]: the rows of [x] that carry the label. *)
Definition loc {R : Type} (label : Z) (x : frame R) : frame R :=
  List.filter (λ r, (r.1 =? label)%Z) x.

(** [data.groupby("h_dim")]: the groups in increasing order of the key. *)
Definition groupby_h_dim (data : frame point_row) : list (Z * frame point_row) :=
  map (λ k, (k, group data k)) (sorted_unique (column h_dim data)).

(** [.apply(lambda x: x.loc[x["accuracy"].idxmax()])]: the pieces of the
    groups, concatenated; [KeyError] when a group has no label to look
    up.  A piece is one row when the label is carried by one row of its
    group, and the rows that carry the label otherwise.  pandas puts
    one-row pieces together as the rows of a table, and so it does with
    pieces of several rows: this is its result for the tables in which
    every group gives one row, or every group several.  For a table that
    mixes the two pandas arranges the pieces differently. *)
Fixpoint apply_loc_idxmax (groups : list (Z * frame point_row))
    : exn + list point_row :=
  match groups with
  | [] => inr []
  | (_, x) :: groups' =>
      match idxmax x with
      | None => inl (KeyError "nan")
      | Some label =>
          match apply_loc_idxmax groups' with
          | inl e => inl e
          | inr rows => inr (map snd (loc label x) ++ rows)%list
          end
      end
  end.

(** [.reset_index(drop=True)] *)
Definition reset_index {R : Type} (rows : list R) : frame R :=
  zip_with (λ i r, (Z.of_nat i, r)) (seq 0 (length rows)) rows.

(** [.sort_values("h_dim")] *)
Fixpoint insert_row (r : Z * point_row) (d : frame point_row) : frame point_row :=
  match d with
  | [] => [r]
  | r' :: d' =>
      if (h_dim r.2 <=? h_dim r'.2)%Z then r :: d else r' :: insert_row r d'
  end.

Definition sort_values_h_dim (d : frame point_row) : frame point_row :=
  foldr insert_row [] d.

(** [sns.color_palette(name, n_colors=n)] returns [n] colours. *)
Definition palette_colors (name : string) (n : nat) : list color :=
  map (PaletteColor name n) (seq 0 n).

(** *** The interpreter: state, exceptions, library calls *)

Definition M (A : Type) : Type := pystate → (exn + A) * pystate.

Definition ret {A : Type} (a : A) : M A := λ σ, (inr a, σ).

Definition bind {A B : Type} (m : M A) (f : A → M B) : M B :=
  λ σ, match m σ with
       | (inl e, σ') => (inl e, σ')
       | (inr a, σ') => f a σ'
       end.

Definition raise {A : Type} (e : exn) : M A := λ σ, (inl e, σ).

Notation "'let*' x ':=' m 'in' k" := (bind m (λ x, k))
  (at level 10, x name, m at level 100, k at level 200).
Notation "m ';;' k" := (bind m (λ _, k))
  (at level 100, k at level 200, right associativity).

Fixpoint for_each {A : Type} (xs : list A) (body : A → M unit) : M unit :=
  match xs with
  | [] => ret tt
  | x :: xs' => body x ;; for_each xs' body
  end.

(** A new object. *)
Definition alloc (d : frame result_row) : M nat :=
  λ σ, let l := fresh (dom (heap σ)) in
       (inr l, mkPy (<[l := d]> (heap σ)) (calls σ)).

Definition read (l : nat) : M (frame result_row) :=
  λ σ, match heap σ !! l with
       | Some d => (inr d, σ)
       | None => (inl (NameError "unbound reference"), σ)
       end.

(** Update of an object in place. *)
Definition write (l : nat) (d : frame result_row) : M unit :=
  λ σ, match heap σ !! l with
       | Some _ => (inr tt, mkPy (<[l := d]> (heap σ)) (calls σ))
       | None => (inl (NameError "unbound reference"), σ)
       end.

(** *** pandas on references *)

(** [df.copy()] *)
Definition DataFrame_copy (df : nat) : M nat :=
  let* d := read df in alloc d.

(** [df[name]] for a column. *)
Definition Series_of {A : Type} (f : result_row → A) (df : nat) : M (list A) :=
  let* d := read df in ret (column f d).

(** [df[mask]], [df.loc[mask]]: a new DataFrame. *)
Definition DataFrame_getitem (df : nat) (mask : list bool) : M nat :=
  let* d := read df in alloc (select mask d).

(** [df["config.h_lr"] = values]: the object [df] refers to is changed. *)
Definition DataFrame_setitem_h_lr (df : nat) (values : list float) : M unit :=
  let* d := read df in write df (zip_with set_h_lr d values).

(** [pd.concat([a, b])] *)
Definition pd_concat (a b : nat) : M nat :=
  let* da := read a in
  let* db := read b in
  alloc (da ++ db)%list.

Definition mask_or (a b : list bool) : list bool := zip_with orb a b.
Definition mask_and (a b : list bool) : list bool := zip_with andb a b.

Definition titles : list string := ["PC - SGD"; "PC - Adam"; "BP"].

Definition conditions : list string :=
  ["PC-sgd-0.9"; "PC-adamw-0.9"; "BP-sgd-0.9"].

(** [enumerate(xs)] *)
Definition enumerate {A : Type} (xs : list A) : list (nat * A) :=
  zip_with pair (seq 0 (length xs)) xs.

Definition figure_name (dataset suffix : string) : string :=
  let suffix := if (0 <? String.length suffix)%nat then "-" ++ suffix else "" in
  "lr-scaling-lineplot-" ++ dataset ++ suffix ++ ".pdf".

Section Library.

(** Whether a library call raises, given the calls made so far. *)
Variable raises : list plot_call → plot_call → option exn.
(** [nb.NEURIPS_FORMAT_FULL], a constant of [utils.notebooks]. *)
Variable NEURIPS_FORMAT_FULL : list (string * cell).

Definition call (c : plot_call) : M unit :=
  λ σ, match raises (calls σ) c with
       | Some e => (inl e, σ)
       | None => (inr tt, mkPy (heap σ) (calls σ ++ [c])%list)
       end.

(** [sns.lineplot(data=df, x="config.h_lr", y="results.accuracy",
    hue="config.hidden_dims", ...)] *)
Definition lineplot (df : nat) (marker : option string)
    (palette : list color) (ax : nat) : M unit :=
  let* d := read df in call (sns_lineplot ax (x_y_hue d) marker palette).

(** The body of the loop over the rows of [max_acc]. *)
Definition scatter (palette : list color) (i_row : Z * point_row) : M unit :=
  let '(i, row) := i_row in
  match palette !! Z.to_nat i with
  | None => raise (IndexError "list index out of range")
  | Some c => call (plt_scatter (h_lr row) (accuracy row) 500 0.2 c)
  end.

(** [[
    def mark_max(data: pd.DataFrame, color):
        max_acc = data.groupby("h_dim").apply(lambda x: x.loc[x["accuracy"].idxmax()]).reset_index(drop=True).sort_values("h_dim")
        num_h_dims = len(max_acc["h_dim"].unique())
        palette = sns.color_palette("viridis", n_colors=num_h_dims)
        for i, row in max_acc.iterrows():
            plt.scatter(row["h_lr"], row["accuracy"], s=500, alpha=0.2, color=palette[i])
    ]] *)
Definition mark_max (data : frame point_row) (color : string) : M unit :=
  match apply_loc_idxmax (groupby_h_dim data) with
  | inl e => raise e
  | inr rows =>
      let max_acc := sort_values_h_dim (reset_index rows) in
      let num_h_dims := length (sorted_unique (column h_dim max_acc)) in
      call (sns_color_palette "viridis" num_h_dims) ;;
      let palette := palette_colors "viridis" num_h_dims in
      for_each max_acc (scatter palette)
  end.

(** The body of the loop over the three conditions.
    [[
            results_condition = results.loc[results["condition"] == condition]
            if "BP" in condition:
                results_condition_2 = results_condition.copy()
                results_condition_2["config.h_lr"] = results_condition_2["config.h_lr"] + 0.1
                results_condition = pd.concat([results_condition, results_condition_2])
                sns.lineplot(data=results_condition, x="config.h_lr", y="results.accuracy", hue="config.hidden_dims", palette=palette, ax=axs[i])
                axs[i].set_xlabel("")
                axs[i].set_xticks([])
            else:
                sns.lineplot(data=results_condition, x="config.h_lr", y="results.accuracy", hue="config.hidden_dims", marker="o", palette=palette, ax=axs[i])
                axs[i].set_xlabel(r"$\gamma$ (State Learning Rate)")
                axs[i].set_xscale("log")
            if i == 0:
                axs[i].set_ylabel("Accuracy")
                axs[i].legend(ncol=2, title="Width", title_fontsize=10, loc="lower right")
            else:
                axs[i].set_ylabel("")
                axs[i].set_yticklabels([])
                axs[i].legend().set_visible(False)
            axs[i].set_title(titles[i])
            axs[i].set_ylim(0, 1)
    ]] *)
Definition panel (results : nat) (palette : list color)
    (i : nat) (condition_ : string) : M unit :=
  let* mask := Series_of (λ r, String.eqb (condition r) condition_) results in
  let* results_condition := DataFrame_getitem results mask in
  (if str_contains "BP" condition_ then
     let* results_condition_2 := DataFrame_copy results_condition in
     let* h_lr := Series_of config_h_lr results_condition_2 in
     DataFrame_setitem_h_lr results_condition_2 (map (λ x, x + 0.1)%float h_lr) ;;
     let* results_condition := pd_concat results_condition results_condition_2 in
     lineplot results_condition None palette i ;;
     call (ax_set_xlabel i "") ;;
     call (ax_set_xticks i [])
   else
     lineplot results_condition (Some "o") palette i ;;
     call (ax_set_xlabel i "$\gamma$ (State Learning Rate)") ;;
     call (ax_set_xscale i "log")) ;;
  (if (i =? 0)%nat then
     call (ax_set_ylabel i "Accuracy") ;;
     call (ax_legend i 2 "Width" 10 "lower right")
   else
     call (ax_set_ylabel i "") ;;
     call (ax_set_yticklabels i []) ;;
     call (ax_legend_default i) ;;
     call (ax_legend_set_visible i false)) ;;
  match titles !! i with
  | None => raise (IndexError "list index out of range")
  | Some title =>
      call (ax_set_title i title) ;;
      call (ax_set_ylim i 0 1)
  end.

(** [[
    def plot_lineplots(results: pd.DataFrame, experiment_folder: str, dataset: str, suffix: str = ""):
        results = results.copy()
        mask_bp = results["condition"].str.contains("BP")
        mask_pc = results["condition"].str.contains("PC") & (results["config.h_lr"] < 0.3)
        results = results[mask_bp | mask_pc]
        results = results.loc[results['experiment.data.dataset'] == dataset]
        h_lrs = sorted(results["config.h_lr"].unique())
        h_dims = sorted(results["config.hidden_dims"].unique())
        plt.clf()
        sns.set_theme("paper", style="whitegrid")
        plt.rcParams.update(nb.NEURIPS_FORMAT_FULL)
        plt.rcParams["figure.figsize"] = (plt.rcParams["figure.figsize"][0], 2.8)
        fig = plt.figure()
        gs = fig.add_gridspec(1, 3, width_ratios=[5, 5, 1])
        axs = [fig.add_subplot(gs[0, i]) for i in range(3)]
        palette = sns.color_palette("viridis", n_colors=len(h_dims))
        titles = ["PC - SGD", "PC - Adam", "BP"]
        for i, condition in enumerate(["PC-sgd-0.9", "PC-adamw-0.9", "BP-sgd-0.9"]):
            ...
        suffix = f"-{suffix}" if len(suffix) > 0 else ""
        plt.savefig(os.path.join(experiment_folder, f"lr-scaling-lineplot-{dataset}{suffix}.pdf"))
        plt.close()
    ]]
    [h_lrs] is never used and is left out; an axis is named by its index in
    [axs]. *)
Definition plot_lineplots (results : nat)
    (experiment_folder dataset suffix : string) : M unit :=
  let* results := DataFrame_copy results in
  let* mask_bp := Series_of (λ r, str_contains "BP" (condition r)) results in
  let* contains_pc := Series_of (λ r, str_contains "PC" (condition r)) results in
  let* h_lr_lt := Series_of (λ r, F64.lt (config_h_lr r) 0.3) results in
  let mask_pc := mask_and contains_pc h_lr_lt in
  let* results := DataFrame_getitem results (mask_or mask_bp mask_pc) in
  let* mask := Series_of (λ r, String.eqb (experiment_data_dataset r) dataset) results in
  let* results := DataFrame_getitem results mask in
  let* hidden_dims := Series_of config_hidden_dims results in
  let h_dims := sorted_unique hidden_dims in
  call plt_clf ;;
  call (sns_set_theme "paper" "whitegrid") ;;
  call (rcParams_update NEURIPS_FORMAT_FULL) ;;
  call (rcParams_set_figsize_height 2.8) ;;
  call plt_figure ;;
  call (fig_add_gridspec 1 3 [5; 5; 1]) ;;
  for_each (seq 0 3) (λ i, call (fig_add_subplot 0 i)) ;;
  call (sns_color_palette "viridis" (length h_dims)) ;;
  let palette := palette_colors "viridis" (length h_dims) in
  for_each (enumerate conditions) (λ '(i, condition_),
    panel results palette i condition_) ;;
  call (plt_savefig (os_path_join experiment_folder (figure_name dataset suffix))) ;;
  call plt_close.

End Library.

(** *** What the two functions do, step by step

    A step is a library call or a [raise] of the function's own.  The
    steps of a function run in order and stop at the first exception. *)

Inductive step : Type :=
| Call (c : plot_call)
| Raise (e : exn).

Definition run_steps (raises : list plot_call → plot_call → option exn)
    : list step → list plot_call → (exn + unit) * list plot_call :=
  fix go (steps : list step) (log : list plot_call) :=
    match steps with
    | [] => (inr tt, log)
    | Call c :: steps' =>
        match raises log c with
        | Some e => (inl e, log)
        | None => go steps' (log ++ [c])%list
        end
    | Raise e :: _ => (inl e, log)
    end.

(** The calls of the steps that come before the first [Raise]. *)
Fixpoint calls_of (steps : list step) : list plot_call :=
  match steps with
  | Call c :: steps' => c :: calls_of steps'
  | _ => []
  end.

(** The row filter of [plot_lineplots]: [mask_bp | mask_pc]. *)
Definition mask_bp (r : result_row) : bool := str_contains "BP" (condition r).

Definition mask_pc (r : result_row) : bool :=
  str_contains "PC" (condition r) && F64.lt (config_h_lr r) 0.3.

Definition condition_filter (d : frame result_row) : frame result_row :=
  List.filter (λ r, mask_bp r.2 || mask_pc r.2) d.

Definition dataset_filter (dataset : string) (d : frame result_row)
    : frame result_row :=
  List.filter (λ r, String.eqb (experiment_data_dataset r.2) dataset) d.

(** The rows of one panel. *)
Definition panel_rows (condition_ : string) (d : frame result_row)
    : frame result_row :=
  List.filter (λ r, String.eqb (condition r.2) condition_) d.

(** The copy of the backpropagation rows, moved right by [0.1]. *)
Definition shifted (d : frame result_row) : frame result_row :=
  map (λ r, set_h_lr r (config_h_lr r.2 + 0.1)%float) d.

Definition panel_data (condition_ : string) (d : frame result_row)
    : frame result_row :=
  if str_contains "BP" condition_
  then (panel_rows condition_ d ++ shifted (panel_rows condition_ d))%list
  else panel_rows condition_ d.

Definition panel_steps (d : frame result_row) (palette : list color)
    (i : nat) (condition_ : string) : list step :=
  ((if str_contains "BP" condition_ then
      [ Call (sns_lineplot i (x_y_hue (panel_data condition_ d)) None palette);
        Call (ax_set_xlabel i "");
        Call (ax_set_xticks i []) ]
    else
      [ Call (sns_lineplot i (x_y_hue (panel_data condition_ d)) (Some "o") palette);
        Call (ax_set_xlabel i "$\gamma$ (State Learning Rate)");
        Call (ax_set_xscale i "log") ]) ++
   (if (i =? 0)%nat then
      [ Call (ax_set_ylabel i "Accuracy");
        Call (ax_legend i 2 "Width" 10 "lower right") ]
    else
      [ Call (ax_set_ylabel i "");
        Call (ax_set_yticklabels i []);
        Call (ax_legend_default i);
        Call (ax_legend_set_visible i false) ]) ++
   match titles !! i with
   | None => [ Raise (IndexError "list index out of range") ]
   | Some title => [ Call (ax_set_title i title); Call (ax_set_ylim i 0 1) ]
   end)%list.

(** The rows that reach the figure for a dataset. *)
Definition plotted (dataset : string) (d : frame result_row) : frame result_row :=
  dataset_filter dataset (condition_filter d).

Definition plot_lineplots_steps (NEURIPS_FORMAT_FULL : list (string * cell))
    (d : frame result_row) (experiment_folder dataset suffix : string)
    : list step :=
  let results := plotted dataset d in
  let h_dims := sorted_unique (column config_hidden_dims results) in
  let palette := palette_colors "viridis" (length h_dims) in
  ([ Call plt_clf;
     Call (sns_set_theme "paper" "whitegrid");
     Call (rcParams_update NEURIPS_FORMAT_FULL);
     Call (rcParams_set_figsize_height 2.8);
     Call plt_figure;
     Call (fig_add_gridspec 1 3 [5; 5; 1]);
     Call (fig_add_subplot 0 0);
     Call (fig_add_subplot 0 1);
     Call (fig_add_subplot 0 2);
     Call (sns_color_palette "viridis" (length h_dims)) ] ++
   flat_map (λ ic, panel_steps results palette ic.1 ic.2) (enumerate conditions) ++
   [ Call (plt_savefig (os_path_join experiment_folder (figure_name dataset suffix)));
     Call plt_close ])%list.

(** The steps of [mark_max] once the group-wise maxima are known. *)
Definition scatter_step (palette : list color) (r : Z * point_row) : step :=
  match palette !! Z.to_nat r.1 with
  | None => Raise (IndexError "list index out of range")
  | Some c => Call (plt_scatter (h_lr r.2) (accuracy r.2) 500 0.2 c)
  end.

Definition mark_max_steps (data : frame point_row) : list step :=
  match apply_loc_idxmax (groupby_h_dim data) with
  | inl e => [ Raise e ]
  | inr rows =>
      let max_acc := sort_values_h_dim (reset_index rows) in
      let num_h_dims := length (sorted_unique (column h_dim max_acc)) in
      Call (sns_color_palette "viridis" num_h_dims) ::
      map (scatter_step (palette_colors "viridis" num_h_dims)) max_acc
  end.

(** *** Reading a log of calls *)

Definition saved_files (log : list plot_call) : list string :=
  omap (λ c, match c with plt_savefig path => Some path | _ => None end) log.

Definition lineplots (log : list plot_call)
    : list (nat * list (float * float * Z)) :=
  omap (λ c, match c with
             | sns_lineplot ax data _ _ => Some (ax, data)
             | _ => None
             end) log.

Definition scatters (log : list plot_call) : list (float * float) :=
  omap (λ c, match c with
             | plt_scatter x y _ _ _ => Some (x, y)
             | _ => None
             end) log.

(** A library that never raises. *)
Definition never : list plot_call → plot_call → option exn := λ _ _, None.

(** Two tables that agree on the columns [plot_lineplots] names. *)
Definition same_named_columns (r r' : Z * result_row) : Prop :=
  r.1 = r'.1 ∧
  condition r.2 = condition r'.2 ∧
  config_h_lr r.2 = config_h_lr r'.2 ∧
  experiment_data_dataset r.2 = experiment_data_dataset r'.2 ∧
  config_hidden_dims r.2 = config_hidden_dims r'.2 ∧
  results_accuracy r.2 = results_accuracy r'.2.

(** [set_column name v r]: the row [r] with column [name] set to [v], for a
    column [plot_lineplots] does not name. *)
Definition set_other (name : string) (v : cell) (r : Z * result_row)
    : Z * result_row :=
  (r.1, mkResult (condition r.2) (config_h_lr r.2) (experiment_data_dataset r.2)
                 (config_hidden_dims r.2) (results_accuracy r.2)
                 ((name, v) :: List.filter (λ kv, negb (String.eqb kv.1 name))
                                           (other_columns r.2))).

(** The row with every column that [plot_lineplots] does not name dropped. *)
Definition named_columns (r : Z * result_row) : Z * result_row :=
  (r.1, mkResult (condition r.2) (config_h_lr r.2) (experiment_data_dataset r.2)
                 (config_hidden_dims r.2) (results_accuracy r.2) []).

(** The panels of the figure: the axes and the points of each line plot. *)
Definition panels (dataset : string) (d : frame result_row)
    : list (nat * list (float * float * Z)) :=
  map (λ ic, (ic.1, x_y_hue (panel_data ic.2 (plotted dataset d))))
      (enumerate conditions).

(** The figure varies with a column when changing that column alone, in
    some table, changes what is drawn. *)
Definition varies_with (name : string) : Prop :=
  ∃ NEURIPS_FORMAT_FULL d experiment_folder dataset suffix v,
    plot_lineplots_steps NEURIPS_FORMAT_FULL (map (set_other name v) d)
      experiment_folder dataset suffix
    ≠ plot_lineplots_steps NEURIPS_FORMAT_FULL d experiment_folder dataset suffix.

(** The row [mark_max] is meant to pick for a key: a row of the key's
    group whose accuracy no row of the group exceeds. *)
Definition is_group_max (data : frame point_row) (k : Z) (row : point_row) : Prop :=
  In row (map snd data) ∧ h_dim row = k ∧
  ∀ r, In r data → h_dim r.2 = k → F64.lt (accuracy row) (accuracy r.2) = false.


(** A library whose [savefig] fails. *)
Definition disk_full : list plot_call → plot_call → option exn :=
  λ _ c, match c with
         | plt_savefig _ => Some (LibraryError "OSError: No space left on device")
         | _ => None
         end.

(** *** A small results table, for examples *)

Definition demo_results : frame result_row :=
  [ (0, mkResult "PC-sgd-0.9" 0.1 "two_moons" 512 0.9
          [("config.w_lr", CFloat 0.01); ("config.activation_fn", CStr "hard_tanh")]);
    (1, mkResult "PC-sgd-0.9" 0.3 "two_moons" 512 0.5 []);
    (2, mkResult "PC-adamw-0.9" 0.01 "two_moons" 1024 0.7 []);
    (3, mkResult "BP-sgd-0.9" 1.0 "two_moons" 1024 0.8 []);
    (4, mkResult "BP-sgd-0.9" 1.0 "fashion_mnist" 1024 0.6 []) ].

Definition demo_state : pystate := mkPy {[ 0%nat := demo_results ]} [].

(** A row whose condition names both training schemes. *)
Definition hybrid_row : Z * result_row :=
  (0, mkResult "PC-init-BP" 1.0 "two_moons" 512 0.9 []).

(** Tables for [mark_max]: a sweep over two widths, a table whose only
    accuracy is NaN, and a table with a repeated index label (what
    [pd.concat] returns). *)
Definition demo_points : frame point_row :=
  [ (0, mkPoint 1024 0.01 0.6); (1, mkPoint 512 0.01 0.5);
    (2, mkPoint 512 0.1 0.9); (3, mkPoint 1024 0.1 0.7);
    (4, mkPoint 512 0.3 0.9) ].



(** *** The program logic of the interpreter

    [sim raises h0 Γ m steps Q]: from a heap that extends the caller's
    heap [h0] with the objects [Γ] the function made itself, [m] behaves
    as its [steps] do, leaves the caller's objects as they were, and
    returns with a heap of the same shape that satisfies [Q]. *)

Definition outcome {A : Type} (r : exn + A) : exn + unit :=
  match r with inl e => inl e | inr _ => inr tt end.

Definition is_call (s : step) : bool :=
  match s with Call _ => true | Raise _ => false end.

Definition own (h0 Γ h : gmap nat (frame result_row)) : Prop :=
  h0 ⊆ h ∧ Γ ⊆ h ∧ ∀ l, is_Some (Γ !! l) → h0 !! l = None.

Definition sim (raises : list plot_call → plot_call → option exn)
    (h0 : gmap nat (frame result_row)) {A : Type}
    (Γ : gmap nat (frame result_row)) (m : M A)
    (steps : list step) (Q : A → gmap nat (frame result_row) → Prop) : Prop :=
  ∀ σ, own h0 Γ (heap σ) →
    run_steps raises steps (calls σ) = (outcome (m σ).1, calls (m σ).2) ∧
    h0 ⊆ heap (m σ).2 ∧
    ∀ a, (m σ).1 = inr a → ∃ Γ', Q a Γ' ∧ own h0 Γ' (heap (m σ).2).

(** *** [errorbar]

    [[
    def errorbar(x: np.ndarray):
        return (x.min(), x.max())
    ]]
    [ndarray.min] and [ndarray.max] reduce the array with [np.minimum] and
    [np.maximum], which keep their first argument when it compares as
    wanted or is NaN, so that a NaN, once met, stays; an array without
    elements has no minimum and the reduction raises [ValueError]. *)

Definition np_minimum (a b : float) : float :=
  if PrimFloat.leb a b || F64.isnan a then a else b.

Definition np_maximum (a b : float) : float :=
  if PrimFloat.leb b a || F64.isnan a then a else b.

Definition ndarray_reduce (op : float → float → float) (name : string)
    (x : list float) : exn + float :=
  match x with
  | [] => inl (LibraryError ("ValueError: zero-size array to reduction operation "
                             ++ name ++ " which has no identity"))
  | a :: rest => inr (foldl op a rest)
  end.

Definition ndarray_min : list float → exn + float :=
  ndarray_reduce np_minimum "minimum".

Definition ndarray_max : list float → exn + float :=
  ndarray_reduce np_maximum "maximum".

Definition errorbar (x : list float) : exn + (float * float) :=
  match ndarray_min x with
  | inl e => inl e
  | inr lo =>
      match ndarray_max x with
      | inl e => inl e
      | inr hi => inr (lo, hi)
      end
  end.

(** *** More ways to read a log of calls *)

(** The calls that open and close a figure. *)
Definition figure_events (log : list plot_call) : list plot_call :=
  List.filter (λ c, match c with plt_figure | plt_close => true | _ => false end) log.

(** The palettes asked of seaborn. *)
Definition palettes (log : list plot_call) : list (string * nat) :=
  omap (λ c, match c with
             | sns_color_palette name n => Some (name, n)
             | _ => None
             end) log.

(** The line plots with all their arguments. *)
Definition lineplot_calls (log : list plot_call)
    : list (nat * list (float * float * Z) * option string * list color) :=
  omap (λ c, match c with
             | sns_lineplot ax data marker palette => Some (ax, data, marker, palette)
             | _ => None
             end) log.

(** What [mark_max] may ask of the libraries. *)
Definition is_palette_or_scatter (c : plot_call) : bool :=
  match c with
  | sns_color_palette _ _ | plt_scatter _ _ _ _ _ => true
  | _ => false
  end.

(** The hue levels of a line plot: the distinct values of its hue column. *)
Definition hue_levels (pts : list (float * float * Z)) : list Z :=
  sorted_unique (map snd pts).

(** [h_dims] in [plot_lineplots]: the widths of the rows that reach the
    figure. *)
Definition plotted_h_dims (dataset : string) (d : frame result_row) : list Z :=
  sorted_unique (column config_hidden_dims (plotted dataset d)).

(** The rows of the table drawn in a predictive-coding panel and in the
    backpropagation panel, read off the table itself. *)
Definition pc_rows (condition_ dataset : string) (d : frame result_row)
    : frame result_row :=
  List.filter (λ r, String.eqb (condition r.2) condition_
                    && String.eqb (experiment_data_dataset r.2) dataset
                    && F64.lt (config_h_lr r.2) 0.3) d.

Definition bp_rows (dataset : string) (d : frame result_row) : frame result_row :=
  List.filter (λ r, String.eqb (condition r.2) "BP-sgd-0.9"
                    && String.eqb (experiment_data_dataset r.2) dataset) d.

(** *** What [mark_max] marks *)

(** [row] is the first row of the group of [k], in the order of the table,
    whose accuracy no row of the group exceeds. *)
Definition is_first_group_max (data : frame point_row) (k : Z) (row : point_row)
    : Prop :=
  ∃ label before after,
    group data k = (before ++ (label, row) :: after)%list ∧
    (∀ r, In r before → F64.lt (accuracy r.2) (accuracy row) = true) ∧
    (∀ r, In r after → F64.lt (accuracy row) (accuracy r.2) = false).

Definition marked (data : frame point_row) (k : Z) (row : point_row) : Prop :=
  is_group_max data k row ∧ is_first_group_max data k row.

(** The scatter calls for the rows that are marked: the [i]-th row in the
    [i]-th colour of the palette. *)
Definition scatter_calls (name : string) (n : nat) (rows : list point_row)
    : list plot_call :=
  zip_with (λ (i : nat) row,
              plt_scatter (h_lr row) (accuracy row) 500 0.2 (PaletteColor name n i))
           (seq 0 (length rows)) rows.

(** *** File names *)

(** A name without a hyphen, as the dataset names of the notebook are. *)
Fixpoint no_hyphen (s : string) : bool :=
  match s with
  | "" => true
  | String c s' => negb (Ascii.eqb c "-") && no_hyphen s'
  end.

(** The end of a figure name: [.pdf], after the suffix when there is one. *)
Definition name_end (suffix : string) : string :=
  (if String.eqb suffix "" then "" else "-" ++ suffix) ++ ".pdf".

(** *** The code cells of the notebook *)

Section Cells.

Variable raises : list plot_call → plot_call → option exn.
Variable NEURIPS_FORMAT_FULL : list (string * cell).
(** [cluster.artifact_dir], of the [ClusterManager] the first cell makes. *)
Variable artifact_dir : string.
(** [nb.load_data(name, experiment_ids)] of [utils.notebooks]: the table
    [df] it returns, or the exception it raises.  It reads files, so it is
    also given the number of the loads made before. *)
Variable load_data : nat → string → list string → exn + frame result_row.

Definition nb_load_data (n : nat) (name : string) (experiment_ids : list string)
    : M nat :=
  match load_data n name experiment_ids with
  | inl e => raise e
  | inr df => alloc df
  end.

(** The code cells, run from top to bottom.
    [[
    plt.rcParams.update({"figure.dpi": 150})
    cluster = ClusterManager()

    experiment_ids = []  # fill in the experiment ids from training e.g. ab12-cd34
    experiment_folder, results, results_with_metrics, df = nb.load_data("training_stability", experiment_ids)
    plot_lineplots(df, cluster.artifact_dir, "fashion_mnist")
    plot_lineplots(df, cluster.artifact_dir, "two_moons")

    experiment_ids = []
    experiment_folder, results, results_with_metrics, df = nb.load_data("training_stability", experiment_ids)
    plot_lineplots(df, cluster.artifact_dir, "fashion_mnist", suffix="constant-layer-size")
    ]]
    Of what [load_data] returns only [df] is used. *)
Definition run_all : M unit :=
  call raises (rcParams_update [("figure.dpi", CInt 150)]) ;;
  let experiment_ids := [] in
  let* df := nb_load_data 0 "training_stability" experiment_ids in
  plot_lineplots raises NEURIPS_FORMAT_FULL df artifact_dir "fashion_mnist" "" ;;
  plot_lineplots raises NEURIPS_FORMAT_FULL df artifact_dir "two_moons" "" ;;
  let experiment_ids := [] in
  let* df := nb_load_data 1 "training_stability" experiment_ids in
  plot_lineplots raises NEURIPS_FORMAT_FULL df artifact_dir "fashion_mnist"
    "constant-layer-size".

End Cells.

(** The figures of the notebook, by dataset and suffix, and their files. *)
Definition figures : list (string * string) :=
  [ ("fashion_mnist", ""); ("two_moons", "");
    ("fashion_mnist", "constant-layer-size") ].

Definition figure_path (artifact_dir : string) (f : string * string) : string :=
  os_path_join artifact_dir (figure_name f.1 f.2).

(** Tables for examples: a width all of whose accuracies are NaN, and a
    loader whose second load fails. *)
Definition nan_group_points : frame point_row :=
  [ (0, mkPoint 512 0.1 0.9); (1, mkPoint 1024 0.1 nan); (2, mkPoint 1024 0.3 nan) ].

Definition second_load_fails (n : nat) (name : string) (ids : list string)
    : exn + frame result_row :=
  if (n =? 0)%nat then inr demo_results
  else inl (LibraryError "FileNotFoundError").

(** A sweep put together with [pd.concat] from several tables: index
    labels repeat from one width to the next, and within the width [1024]
    on two rows that are not its best, and each width has a run that
    diverged, with accuracy NaN, beside its best run. *)
Definition concat_points : frame point_row :=
  [ (0, mkPoint 512 0.1 nan); (1, mkPoint 512 0.2 0.9);
    (0, mkPoint 1024 0.03 0.6); (2, mkPoint 1024 0.1 0.7);
    (0, mkPoint 1024 0.3 nan) ].


End Notebook.

(** ** The release workflow [.github/workflows/publish.yaml]

    A job is a list of steps, each an action of the marketplace or a shell
    command.  The runner goes through the steps in order; no step of this
    workflow has a condition of its own, so a step runs when every step
    before it has succeeded, and the job succeeds when all of them have. *)

Module Workflow.

Local Open Scope string_scope.

Inductive action : Type :=
| Uses (ref : string) (with_ : list (string * Yaml.yaml))
| Run (command : string).

Record job_step : Type := mkStep {
  step_name : option string;
  does : action
}.

Inductive trigger : Type :=
| Release (types : list string)
| WorkflowDispatch.

Record job : Type := mkJob {
  job_name : string;
  runs_on : string;
  steps : list job_step
}.

Record workflow : Type := mkWorkflow {
  workflow_name : string;
  on : list trigger;
  jobs : list (string * job)
}.

Definition checkout : job_step := mkStep None (Uses "actions/checkout@master" []).

Definition set_up_python : job_step :=
  mkStep (Some "Set up Python 3.11")
         (Uses "actions/setup-python@v1" [("python-version", Yaml.YNum 311 (-2))]).

Definition install_poetry : job_step :=
  mkStep (Some "Install Poetry") (Run "pipx install poetry==1.8.*").

Definition cache_poetry : job_step :=
  mkStep (Some "Cache Poetry virtual environment")
         (Uses "actions/cache@v3"
            [("path", Yaml.YStr "~/.cache/pypoetry");
             ("key", Yaml.YStr
                "${{ runner.os }}-poetry-${{ hashFiles('**/poetry.lock') }}");
             ("restore-keys", Yaml.YStr "${{ runner.os }}-poetry-
")]).

Definition add_token : job_step :=
  mkStep (Some "Add Token to Poetry")
         (Run "poetry config pypi-token.pypi ${{ secrets.PYPI_API_TOKEN }}").

Definition build : job_step := mkStep (Some "Build") (Run "poetry build").

Definition publish : job_step := mkStep (Some "Publish") (Run "poetry publish").

Definition build_n_publish : job :=
  mkJob "Build and publish to PyPI and TestPyPI" "ubuntu-22.04"
        [checkout; set_up_python; install_poetry; cache_poetry; add_token;
         build; publish].

Definition publish_package : workflow :=
  mkWorkflow "Publish Package" [Release ["published"]; WorkflowDispatch]
             [("build-n-publish", build_n_publish)].

(** The steps that run, and whether the job succeeds, given which steps
    succeed when they run. *)
Fixpoint execute (succeeds : job_step → bool) (todo : list job_step)
    : list job_step * bool :=
  match todo with
  | [] => ([], true)
  | s :: todo' =>
      if succeeds s then
        let '(ran, ok) := execute succeeds todo' in (s :: ran, ok)
      else ([s], false)
  end.

Definition run_job (succeeds : job_step → bool) (j : job) : list job_step * bool :=
  execute succeeds (steps j).

(** The text a step hands to the shell or to an action. *)
Definition texts (s : job_step) : list string :=
  match does s with
  | Uses _ with_ =>
      omap (λ kv, match kv.2 with Yaml.YStr t => Some t | _ => None end) with_
  | Run command => [command]
  end.

Definition reads_secret (s : job_step) : bool :=
  existsb (Notebook.str_contains "secrets.") (texts s).

End Workflow.

(** * Properties *)

(** ** The order of float64 *)

Module F64_facts.

Import F64.

Lemma SFltb_irrefl x : SFltb x x = false.
Proof.
  unfold SFltb.
  destruct x as [s| s| |s m e]; simpl; try (destruct s; reflexivity); try reflexivity.
  destruct s; rewrite Z.compare_refl; fold (Pos.compare m m);
    rewrite Pos.compare_refl; reflexivity.
Qed.

Lemma finite_cmp_trans (e1 e2 e3 : Z) (m1 m2 m3 : positive) :
  match e1 ?= e2 with Lt => Lt | Gt => Gt | Eq => Pos.compare_cont Eq m1 m2 end = Lt →
  match e2 ?= e3 with Lt => Lt | Gt => Gt | Eq => Pos.compare_cont Eq m2 m3 end = Lt →
  match e1 ?= e3 with Lt => Lt | Gt => Gt | Eq => Pos.compare_cont Eq m1 m3 end = Lt.
Proof.
  fold (Pos.compare m1 m2) (Pos.compare m2 m3) (Pos.compare m1 m3).
  destruct (Z.compare_spec e1 e2), (Z.compare_spec e2 e3);
    try discriminate; intros H12 H23.
  - subst. rewrite Z.compare_refl.
    exact (Pos.lt_trans m1 m2 m3 H12 H23).
  - subst. destruct (Z.compare_spec e2 e3); try lia. reflexivity.
  - subst. destruct (Z.compare_spec e1 e3); try lia. reflexivity.
  - destruct (Z.compare_spec e1 e3); try lia. reflexivity.
Qed.

Lemma finite_cmp_trans_neg (e1 e2 e3 : Z) (m1 m2 m3 : positive) :
  match e1 ?= e2 with Lt => Gt | Gt => Lt | Eq => CompOpp (Pos.compare_cont Eq m1 m2) end = Lt →
  match e2 ?= e3 with Lt => Gt | Gt => Lt | Eq => CompOpp (Pos.compare_cont Eq m2 m3) end = Lt →
  match e1 ?= e3 with Lt => Gt | Gt => Lt | Eq => CompOpp (Pos.compare_cont Eq m1 m3) end = Lt.
Proof.
  fold (Pos.compare m1 m2) (Pos.compare m2 m3) (Pos.compare m1 m3).
  destruct (Z.compare_spec e1 e2), (Z.compare_spec e2 e3);
    try discriminate; intros H12 H23.
  - subst. rewrite Z.compare_refl.
    apply CompOpp_iff in H12, H23. apply CompOpp_iff. simpl in *.
    apply Pos.compare_gt_iff in H12. apply Pos.compare_gt_iff in H23.
    apply Pos.compare_gt_iff. exact (Pos.lt_trans m3 m2 m1 H23 H12).
  - subst. destruct (Z.compare_spec e2 e3); try lia. reflexivity.
  - subst. destruct (Z.compare_spec e1 e3); try lia. reflexivity.
  - destruct (Z.compare_spec e1 e3); try lia. reflexivity.
Qed.

Lemma SFltb_trans x y z :
  SFltb x y = true → SFltb y z = true → SFltb x z = true.
Proof.
  unfold SFltb.
  destruct x as [sx| sx| |sx mx ex], y as [sy| sy| |sy my ey],
           z as [sz| sz| |sz mz ez]; simpl;
    try discriminate; try reflexivity;
    try (destruct sx; discriminate); try (destruct sy; discriminate);
    try (destruct sx, sy; discriminate); try (destruct sy, sz; discriminate);
    try (destruct sx, sy, sz; (discriminate || reflexivity)).
  destruct sx, sy, sz; try discriminate; try reflexivity.
  - intros H12 H23.
    assert (H : match ex ?= ez with Lt => Gt | Gt => Lt
                | Eq => CompOpp (Pos.compare_cont Eq mx mz) end = Lt).
    { apply (finite_cmp_trans_neg ex ey ez mx my mz).
      - destruct (match ex ?= ey with Lt => Gt | Gt => Lt | Eq => _ end);
          (reflexivity || discriminate).
      - destruct (match ey ?= ez with Lt => Gt | Gt => Lt | Eq => _ end);
          (reflexivity || discriminate). }
    rewrite H. reflexivity.
  - intros H12 H23.
    assert (H : match ex ?= ez with Lt => Lt | Gt => Gt
                | Eq => Pos.compare_cont Eq mx mz end = Lt).
    { apply (finite_cmp_trans ex ey ez mx my mz).
      - destruct (match ex ?= ey with Lt => Lt | Gt => Gt | Eq => _ end);
          (reflexivity || discriminate).
      - destruct (match ey ?= ez with Lt => Lt | Gt => Gt | Eq => _ end);
          (reflexivity || discriminate). }
    rewrite H. reflexivity.
Qed.

Lemma lt_irrefl a : lt a a = false.
Proof. unfold lt. rewrite ltb_spec. apply SFltb_irrefl. Qed.

Lemma lt_trans a b c : lt a b = true → lt b c = true → lt a c = true.
Proof. unfold lt. rewrite !ltb_spec. apply SFltb_trans. Qed.

Lemma fill_not_nan a : isnan a = false → fill_neg_inf a = a.
Proof. unfold fill_neg_inf. intros ->. reflexivity. Qed.

Lemma finite_cmp_ge_trans (e1 e2 e3 : Z) (m1 m2 m3 : positive) :
  match e1 ?= e2 with Lt => Lt | Gt => Gt | Eq => Pos.compare_cont Eq m1 m2 end ≠ Lt →
  match e2 ?= e3 with Lt => Lt | Gt => Gt | Eq => Pos.compare_cont Eq m2 m3 end ≠ Lt →
  match e1 ?= e3 with Lt => Lt | Gt => Gt | Eq => Pos.compare_cont Eq m1 m3 end ≠ Lt.
Proof.
  fold (Pos.compare m1 m2) (Pos.compare m2 m3) (Pos.compare m1 m3).
  destruct (Z.compare_spec e1 e2), (Z.compare_spec e2 e3); try done; intros H12 H23.
  - subst. rewrite Z.compare_refl.
    destruct (Pos.compare_spec m1 m2), (Pos.compare_spec m2 m3); try done;
      destruct (Pos.compare_spec m1 m3); try done; lia.
  - subst. destruct (Z.compare_spec e2 e3); try done; lia.
  - subst. destruct (Z.compare_spec e1 e3); try done; lia.
  - destruct (Z.compare_spec e1 e3); try done; lia.
Qed.

Lemma finite_cmp_le_trans (e1 e2 e3 : Z) (m1 m2 m3 : positive) :
  match e1 ?= e2 with Lt => Gt | Gt => Lt | Eq => CompOpp (Pos.compare_cont Eq m1 m2) end ≠ Lt →
  match e2 ?= e3 with Lt => Gt | Gt => Lt | Eq => CompOpp (Pos.compare_cont Eq m2 m3) end ≠ Lt →
  match e1 ?= e3 with Lt => Gt | Gt => Lt | Eq => CompOpp (Pos.compare_cont Eq m1 m3) end ≠ Lt.
Proof.
  fold (Pos.compare m1 m2) (Pos.compare m2 m3) (Pos.compare m1 m3).
  destruct (Z.compare_spec e1 e2), (Z.compare_spec e2 e3); try done; intros H12 H23.
  - subst. rewrite Z.compare_refl.
    destruct (Pos.compare_spec m1 m2), (Pos.compare_spec m2 m3); try done;
      destruct (Pos.compare_spec m1 m3); try done; lia.
  - subst. destruct (Z.compare_spec e2 e3); try done; lia.
  - subst. destruct (Z.compare_spec e1 e3); try done; lia.
  - destruct (Z.compare_spec e1 e3); try done; lia.
Qed.

Lemma SFltb_false x y :
  SFltb x y = false ↔ SFcompare x y ≠ Some Lt.
Proof.
  unfold SFltb. destruct (SFcompare x y) as [[]|]; split; congruence.
Qed.

Lemma SFltb_negtrans x y z :
  x ≠ S754_nan → y ≠ S754_nan → z ≠ S754_nan →
  SFltb x y = false → SFltb y z = false → SFltb x z = false.
Proof.
  rewrite !SFltb_false.
  destruct x as [sx| sx| |sx mx ex], y as [sy| sy| |sy my ey],
           z as [sz| sz| |sz mz ez]; simpl; try done;
    try (destruct sx; done); try (destruct sy; done); try (destruct sz; done);
    try (destruct sx, sy; done); try (destruct sy, sz; done); try (destruct sx, sz; done);
    try (destruct sx, sy, sz; done).
  intros _ _ _.
  destruct sx, sy, sz; try done; intros H12 H23 H13.
  - injection H13 as H13. revert H13.
    apply (finite_cmp_le_trans ex ey ez mx my mz); intros E;
      [apply H12|apply H23]; by rewrite E.
  - injection H13 as H13. revert H13.
    apply (finite_cmp_ge_trans ex ey ez mx my mz); intros E;
      [apply H12|apply H23]; by rewrite E.
Qed.

Lemma isnan_spec a : isnan a = false → Prim2SF a ≠ S754_nan.
Proof.
  unfold isnan, PrimFloat.is_nan. rewrite FloatAxioms.eqb_spec. intros H E.
  rewrite E in H. discriminate.
Qed.

Lemma lt_negtrans a b c :
  isnan a = false → isnan b = false → isnan c = false →
  lt a b = false → lt b c = false → lt a c = false.
Proof.
  unfold lt. rewrite !ltb_spec. intros Ha Hb Hc.
  apply SFltb_negtrans; by apply isnan_spec.
Qed.

Lemma lt_asym a b : lt a b = true → lt b a = false.
Proof.
  intros H. destruct (lt b a) eqn:E; [|done].
  pose proof (lt_trans _ _ _ H E) as Haa. by rewrite lt_irrefl in Haa.
Qed.

Lemma fill_isnan a : isnan (fill_neg_inf a) = false.
Proof. unfold fill_neg_inf. destruct (isnan a) eqn:E; [reflexivity|done]. Qed.

End F64_facts.

(** ** The rules of the program logic *)

Module Logic.

Import Notebook.
Local Open Scope string_scope.

Section Sim.

Variable raises : list plot_call → plot_call → option exn.
Variable h0 : gmap nat (frame result_row).

Local Abbreviation own := (own h0).
Local Abbreviation sim := (sim raises h0).

Lemma run_steps_app s1 s2 log :
  run_steps raises (s1 ++ s2) log =
  match run_steps raises s1 log with
  | (inl e, log') => (inl e, log')
  | (inr _, log') => run_steps raises s2 log'
  end.
Proof.
  revert log. induction s1 as [|[c|e] s1 IH]; intros log; simpl; [done| |done].
  destruct (raises log c); [done|]. apply IH.
Qed.

Lemma sim_bind {A B : Type} Γ (m : M A) (f : A → M B) s1 s2 Q R :
  sim Γ m s1 Q →
  (∀ a Γ', Q a Γ' → sim Γ' (f a) s2 R) →
  sim Γ (bind m f) (s1 ++ s2) R.
Proof.
  intros Hm Hf σ Hown. destruct (Hm σ Hown) as (Hrun & Hsub & Hpost).
  rewrite run_steps_app, Hrun. unfold bind.
  destruct (m σ) as [[e|a] σ']; simpl in *.
  - split; [done|]. split; [done|]. intros ? [=].
  - destruct (Hpost a eq_refl) as (Γ' & HQ & Hown').
    apply (Hf a Γ' HQ σ' Hown').
Qed.

Lemma bind_assoc {A B C : Type} (m : M A) (f : A → M B) (g : B → M C) σ :
  bind (bind m f) g σ = bind m (λ a, bind (f a) g) σ.
Proof. unfold bind. by destruct (m σ) as [[e|a] σ']. Qed.

Lemma sim_assoc {A B C : Type} Γ (m : M A) (f : A → M B) (g : B → M C) s Q :
  sim Γ (bind m (λ a, bind (f a) g)) s Q → sim Γ (bind (bind m f) g) s Q.
Proof. intros H σ Hown. rewrite bind_assoc. by apply H. Qed.

Lemma sim_steps {A : Type} Γ (m : M A) s s' Q :
  sim Γ m s' Q → s' = s → sim Γ m s Q.
Proof. by intros H <-. Qed.

Lemma sim_post {A : Type} Γ (m : M A) s (Q Q' : A → _ → Prop) :
  sim Γ m s Q → (∀ a Γ', Q a Γ' → Q' a Γ') → sim Γ m s Q'.
Proof.
  intros H HQ σ Hown. destruct (H σ Hown) as (Hrun & Hsub & Hpost).
  split; [done|]. split; [done|]. intros a Ha.
  destruct (Hpost a Ha) as (Γ' & ? & ?). exists Γ'. auto.
Qed.

Lemma sim_ret {A : Type} Γ (a : A) :
  sim Γ (ret a) [] (λ a' Γ', a' = a ∧ Γ' = Γ).
Proof.
  intros σ Hown. simpl. split; [done|]. split; [apply Hown|].
  intros a' [= <-]. by exists Γ.
Qed.

Lemma sim_raise {A : Type} Γ (e : exn) Q :
  sim Γ (@raise A e) [Raise e] Q.
Proof.
  intros σ Hown. simpl. split; [done|]. split; [apply Hown|]. intros ? [=].
Qed.

Lemma sim_call Γ (c : plot_call) :
  sim Γ (call raises c) [Call c] (λ _ Γ', Γ' = Γ).
Proof.
  intros σ Hown. unfold call. simpl.
  destruct (raises (calls σ) c); simpl.
  - split; [done|]. split; [apply Hown|]. intros ? [=].
  - split; [done|]. split; [apply Hown|]. intros _ _. by exists Γ.
Qed.

Lemma sim_call_post Γ (c : plot_call) (Q : unit → _ → Prop) :
  Q tt Γ → sim Γ (call raises c) [Call c] Q.
Proof.
  intros HQ. eapply sim_post; [apply sim_call|]. by intros [] ? ->.
Qed.

Lemma sim_read Γ l d :
  Γ !! l = Some d ∨ h0 !! l = Some d →
  sim Γ (read l) [] (λ x Γ', x = d ∧ Γ' = Γ).
Proof.
  intros Hl σ Hown. unfold read.
  assert (heap σ !! l = Some d) as ->.
  { destruct Hown as (H0 & HΓ & _).
    destruct Hl as [Hl|Hl]; eapply lookup_weaken; eauto. }
  simpl. split; [done|]. split; [apply Hown|].
  intros x [= <-]. by exists Γ.
Qed.

Lemma sim_alloc Γ d :
  sim Γ (alloc d) []
      (λ l Γ', Γ !! l = None ∧ h0 !! l = None ∧ Γ' = <[l := d]> Γ).
Proof.
  intros σ (H0 & HΓ & Hdisj). unfold alloc. simpl.
  set (l := fresh (dom (heap σ))).
  assert (Hl : heap σ !! l = None).
  { apply not_elem_of_dom. apply is_fresh. }
  assert (Hl0 : h0 !! l = None).
  { destruct (h0 !! l) eqn:E; [|done].
    rewrite (lookup_weaken _ _ _ _ E H0) in Hl. done. }
  assert (HlΓ : Γ !! l = None).
  { destruct (Γ !! l) eqn:E; [|done].
    rewrite (lookup_weaken _ _ _ _ E HΓ) in Hl. done. }
  split; [done|]. split; [by apply insert_subseteq_r|].
  intros a [= <-]. exists (<[l := d]> Γ). split; [done|].
  split; [by apply insert_subseteq_r|]. split; [by apply insert_mono|].
  intros l' Hl'. destruct (decide (l = l')) as [<-|Hne]; [done|].
  apply Hdisj. by rewrite lookup_insert_ne in Hl'.
Qed.

(** An update of the object made last. *)
Lemma sim_write Γ l d d' :
  sim (<[l := d]> Γ) (write l d') [] (λ _ Γ', Γ' = <[l := d']> Γ).
Proof.
  intros σ (H0 & HΓ & Hdisj). unfold write.
  assert (heap σ !! l = Some d) as ->.
  { eapply lookup_weaken; [|done]. apply lookup_insert_eq. }
  assert (Hl0 : h0 !! l = None).
  { apply Hdisj. rewrite lookup_insert_eq. eauto. }
  simpl. split; [done|]. split; [by apply insert_subseteq_r|].
  intros _ _. exists (<[l := d']> Γ). split; [done|].
  split; [by apply insert_subseteq_r|]. split.
  - apply map_subseteq_spec. intros i x Hi.
    destruct (decide (l = i)) as [<-|Hne].
    + rewrite lookup_insert_eq in Hi. by rewrite lookup_insert_eq.
    + rewrite lookup_insert_ne in Hi by done. rewrite lookup_insert_ne by done.
      eapply lookup_weaken; [|done]. by rewrite lookup_insert_ne.
  - intros l' Hl'. apply Hdisj.
    destruct (decide (l = l')) as [<-|Hne].
    + rewrite lookup_insert_eq. eauto.
    + rewrite lookup_insert_ne by done. by rewrite lookup_insert_ne in Hl'.
Qed.

Lemma lookup_insert_fresh (Γ : gmap nat (frame result_row)) l l' d x :
  Γ !! l' = None → Γ !! l = Some d → <[l' := x]> Γ !! l = Some d.
Proof.
  intros Hn Hl. rewrite lookup_insert_ne; [done|]. intros ->. congruence.
Qed.


(** Masks and columns *)

Lemma select_column {R : Type} (f : R → bool) (d : frame R) :
  select (column f d) d = List.filter (λ r, f r.2) d.
Proof.
  induction d as [|r d IH]; simpl; [done|]. destruct (f r.2); by rewrite IH.
Qed.

Lemma mask_and_column {R : Type} (f g : R → bool) (d : frame R) :
  mask_and (column f d) (column g d) = column (λ r, f r && g r) d.
Proof. induction d as [|r d IH]; simpl; [done|]. by rewrite <- IH. Qed.

Lemma mask_or_column {R : Type} (f g : R → bool) (d : frame R) :
  mask_or (column f d) (column g d) = column (λ r, f r || g r) d.
Proof. induction d as [|r d IH]; simpl; [done|]. by rewrite <- IH. Qed.

Lemma setitem_shifted (d : frame result_row) :
  zip_with set_h_lr d (map (λ x, x + 0.1)%float (column config_h_lr d))
  = shifted d.
Proof. induction d as [|r d IH]; simpl; [done|]. by rewrite <- IH. Qed.

(** pandas on references *)

Lemma sim_copy Γ l d :
  Γ !! l = Some d ∨ h0 !! l = Some d →
  sim Γ (DataFrame_copy l) []
      (λ l' Γ', Γ !! l' = None ∧ h0 !! l' = None ∧ Γ' = <[l' := d]> Γ).
Proof.
  intros Hl. unfold DataFrame_copy. eapply sim_steps.
  - eapply sim_bind; [by apply sim_read|]. intros ? ? [-> ->]. apply sim_alloc.
  - done.
Qed.

Lemma sim_series {A : Type} (f : result_row → A) Γ l d :
  Γ !! l = Some d ∨ h0 !! l = Some d →
  sim Γ (Series_of f l) [] (λ x Γ', x = column f d ∧ Γ' = Γ).
Proof.
  intros Hl. unfold Series_of. eapply sim_steps.
  - eapply sim_bind; [by apply sim_read|]. intros ? ? [-> ->]. apply sim_ret.
  - done.
Qed.

Lemma sim_getitem Γ l d mask :
  Γ !! l = Some d ∨ h0 !! l = Some d →
  sim Γ (DataFrame_getitem l mask) []
      (λ l' Γ', Γ !! l' = None ∧ h0 !! l' = None ∧ Γ' = <[l' := select mask d]> Γ).
Proof.
  intros Hl. unfold DataFrame_getitem. eapply sim_steps.
  - eapply sim_bind; [by apply sim_read|]. intros ? ? [-> ->]. apply sim_alloc.
  - done.
Qed.

Lemma sim_setitem_h_lr Γ l d values :
  sim (<[l := d]> Γ) (DataFrame_setitem_h_lr l values) []
      (λ _ Γ', Γ' = <[l := zip_with set_h_lr d values]> Γ).
Proof.
  unfold DataFrame_setitem_h_lr. eapply sim_steps.
  - eapply sim_bind.
    + apply (sim_read _ l d). left. apply lookup_insert_eq.
    + intros ? ? [-> ->]. apply sim_write.
  - done.
Qed.

Lemma sim_concat Γ a b da db :
  Γ !! a = Some da → Γ !! b = Some db →
  sim Γ (pd_concat a b) []
      (λ l' Γ', Γ !! l' = None ∧ h0 !! l' = None ∧ Γ' = <[l' := (da ++ db)%list]> Γ).
Proof.
  intros Ha Hb. unfold pd_concat. eapply sim_steps.
  - eapply sim_bind; [apply (sim_read _ a da); by left|]. intros ? ? [-> ->].
    eapply sim_bind; [apply (sim_read _ b db); by left|]. intros ? ? [-> ->].
    apply sim_alloc.
  - done.
Qed.

Lemma sim_lineplot Γ l d marker palette ax :
  Γ !! l = Some d →
  sim Γ (lineplot raises l marker palette ax)
      [Call (sns_lineplot ax (x_y_hue d) marker palette)] (λ _ Γ', Γ' = Γ).
Proof.
  intros Hl. unfold lineplot. eapply sim_steps.
  - eapply sim_bind; [apply (sim_read _ l d); by left|]. intros ? ? [-> ->].
    apply sim_call.
  - done.
Qed.

Lemma sim_for_each {A : Type} (I : gmap nat (frame result_row) → Prop)
    (xs : list A) (body : A → M unit) (steps : A → list step) :
  (∀ x Γ, I Γ → sim Γ (body x) (steps x) (λ _ Γ', I Γ')) →
  ∀ Γ, I Γ → sim Γ (for_each xs body) (flat_map steps xs) (λ _ Γ', I Γ').
Proof.
  intros Hbody. induction xs as [|x xs IH]; intros Γ HI; simpl.
  - eapply sim_post; [apply sim_ret|]. by intros ? ? [_ ->].
  - eapply sim_bind; [by apply Hbody|]. intros [] Γ' HI'. by apply IH.
Qed.

End Sim.

Ltac sim_lookup :=
  first [ right; eassumption
        | left; repeat first [ apply lookup_insert_eq
                             | apply lookup_insert_fresh; [eassumption|] ];
          eassumption ].

Ltac sim_alloc_intro :=
  let l := fresh "l" in let Hn := fresh "Hfresh" in let Hn0 := fresh "Hfresh0" in
  intros l ? (Hn & Hn0 & ->).

Ltac sim_next :=
  lazymatch goal with
  | |- sim _ _ _ (bind (call _ _) _) _ _ =>
      eapply sim_bind; [apply sim_call | intros [] ? ->]
  | |- sim _ _ _ (bind (Series_of _ _) _) _ _ =>
      eapply sim_bind; [eapply sim_series; sim_lookup | intros ? ? [-> ->]]
  | |- sim _ _ _ (bind (DataFrame_getitem _ _) _) _ _ =>
      eapply sim_bind; [eapply sim_getitem; sim_lookup | sim_alloc_intro]
  | |- sim _ _ _ (bind (DataFrame_copy _) _) _ _ =>
      eapply sim_bind; [eapply sim_copy; sim_lookup | sim_alloc_intro]
  | |- sim _ _ _ (bind (DataFrame_setitem_h_lr _ _) _) _ _ =>
      eapply sim_bind; [apply sim_setitem_h_lr | intros [] ? ->]
  | |- sim _ _ _ (bind (pd_concat _ _) _) _ _ =>
      eapply sim_bind;
      [eapply sim_concat;
       repeat first [ apply lookup_insert_eq
                    | apply lookup_insert_fresh; [eassumption|] ]
      | sim_alloc_intro]
  | |- sim _ _ _ (bind (lineplot _ _ _ _ _) _) _ _ =>
      eapply sim_bind;
      [eapply sim_lineplot;
       repeat first [ apply lookup_insert_eq
                    | apply lookup_insert_fresh; [eassumption|] ]
      | intros [] ? ->]
  | |- sim _ _ _ (bind (bind _ _) _) _ _ =>
      apply sim_assoc
  end.

Ltac fresh_facts :=
  repeat match goal with
         | H : <[_ := _]> _ !! _ = None |- _ =>
             apply lookup_insert_None in H as [? ?]
         end.

Section Functions.

Variable raises : list plot_call → plot_call → option exn.
Variable NEURIPS_FORMAT_FULL : list (string * cell).
Variable h0 : gmap nat (frame result_row).

(** One pass of the loop over the conditions: the objects it makes are
    its own, the table it reads stays. *)
Lemma sim_panel Γ results d palette i condition_ :
  Γ !! results = Some d →
  sim raises h0 Γ (panel raises results palette i condition_)
      (panel_steps d palette i condition_) (λ _ Γ', Γ ⊆ Γ').
Proof.
  intros Hres. unfold panel, panel_steps, panel_data.
  destruct (str_contains "BP" condition_), (i =? 0)%nat, (titles !! i);
    (eapply sim_steps;
     [ repeat sim_next;
       first [ apply sim_raise
             | apply sim_call_post; fresh_facts;
               repeat (apply insert_subseteq_r; [done|]); done ]
     | simpl; rewrite ?select_column, ?setitem_shifted; reflexivity ]).
Qed.

Lemma sim_plot_lineplots results d experiment_folder dataset suffix :
  h0 !! results = Some d →
  sim raises h0 ∅
      (plot_lineplots raises NEURIPS_FORMAT_FULL results
         experiment_folder dataset suffix)
      (plot_lineplots_steps NEURIPS_FORMAT_FULL d
         experiment_folder dataset suffix)
      (λ _ _, True).
Proof.
  intros Hres. unfold plot_lineplots, plot_lineplots_steps.
  eapply sim_steps.
  - repeat sim_next. cbv zeta. repeat sim_next. cbv zeta.
    repeat sim_next.
    lazymatch goal with
    | |- sim _ _ (<[_ := ?x]> _) _ _ _ =>
        eapply sim_bind;
        [ apply (sim_for_each raises h0 (λ Γ, Γ !! l1 = Some x) _ _
                   (λ i, [Call (fig_add_subplot 0 i)]));
          [ intros i Γ HΓ; by apply sim_call_post | apply lookup_insert_eq ]
        | intros [] Γ HΓ; repeat sim_next;
          eapply sim_bind;
          [ apply (sim_for_each raises h0 (λ Γ, Γ !! l1 = Some x) _ _
                     (λ ic, panel_steps x
                        (palette_colors "viridis"
                           (length (sorted_unique (column config_hidden_dims x))))
                        ic.1 ic.2));
            [ intros [i c] Γ' HΓ'; simpl;
              (eapply sim_post; [by apply sim_panel|]);
              simpl; intros _ Γ'' Hsub; by eapply lookup_weaken
            | exact HΓ ]
          | intros [] Γ' _; repeat sim_next; by apply sim_call_post ] ]
    end.
  - simpl. rewrite mask_and_column, mask_or_column, !select_column. reflexivity.
Qed.

End Functions.

(** [plot_lineplots] on a state whose heap holds the caller's table: it
    behaves as its steps do, and every object of the caller is as before. *)
Lemma plot_lineplots_run raises NEURIPS_FORMAT_FULL σ results d
    experiment_folder dataset suffix :
  heap σ !! results = Some d →
  let r := plot_lineplots raises NEURIPS_FORMAT_FULL results
             experiment_folder dataset suffix σ in
  run_steps raises
    (plot_lineplots_steps NEURIPS_FORMAT_FULL d experiment_folder dataset suffix)
    (calls σ) = (outcome r.1, calls r.2)
  ∧ heap σ ⊆ heap r.2.
Proof.
  intros Hres r.
  destruct (sim_plot_lineplots raises NEURIPS_FORMAT_FULL (heap σ) results d
              experiment_folder dataset suffix Hres σ) as (Hrun & Hsub & _).
  - split; [done|]. split; [apply map_empty_subseteq|].
    intros l [x Hx]. by rewrite lookup_empty in Hx.
  - done.
Qed.

(** *** Runs of steps *)


Lemma run_steps_never steps log :
  forallb is_call steps = true →
  run_steps never steps log = (inr tt, (log ++ calls_of steps)%list).
Proof.
  revert log. induction steps as [|[c|e] steps IH]; intros log H; simpl in *.
  - by rewrite app_nil_r.
  - rewrite IH by done. by rewrite <- app_assoc.
  - done.
Qed.

Lemma run_steps_ok raises steps log log' :
  run_steps raises steps log = (inr tt, log') →
  forallb is_call steps = true ∧ log' = (log ++ calls_of steps)%list.
Proof.
  revert log. induction steps as [|[c|e] steps IH]; intros log H; simpl in *.
  - injection H as <-. by rewrite app_nil_r.
  - destruct (raises log c); [done|]. destruct (IH _ H) as [? ->].
    by rewrite <- app_assoc.
  - done.
Qed.


Lemma plot_lineplots_steps_calls NEURIPS_FORMAT_FULL d experiment_folder
    dataset suffix :
  forallb is_call
    (plot_lineplots_steps NEURIPS_FORMAT_FULL d experiment_folder dataset suffix)
  = true.
Proof. reflexivity. Qed.

(** *** [mark_max] *)

Section MarkMax.

Variable raises : list plot_call → plot_call → option exn.

Lemma bind_call {B : Type} c (k : unit → M B) σ :
  bind (call raises c) k σ
  = match raises (calls σ) c with
    | Some e => (inl e, σ)
    | None => k tt (mkPy (heap σ) (calls σ ++ [c]))
    end.
Proof. unfold bind, call. by destruct (raises (calls σ) c). Qed.

Lemma scatter_loop_run palette (rows : frame point_row) σ :
  run_steps raises (map (scatter_step palette) rows) (calls σ)
  = (outcome (for_each rows (scatter raises palette) σ).1,
     calls (for_each rows (scatter raises palette) σ).2)
  ∧ heap (for_each rows (scatter raises palette) σ).2 = heap σ.
Proof.
  revert σ. induction rows as [|[i row] rows IH]; intros σ; cbn [for_each map].
  - done.
  - unfold scatter_step at 1, scatter at 1 3 5. cbn [fst snd].
    destruct (palette !! Z.to_nat i) as [c|]; cbn [run_steps].
    + rewrite bind_call.
      destruct (raises (calls σ) (plt_scatter (h_lr row) (accuracy row) 500 0.2 c));
        [done|].
      apply (IH (mkPy (heap σ) (calls σ ++ [_]))).
    + done.
Qed.

(** [mark_max] behaves as its steps do and touches no object. *)
Lemma mark_max_run data color σ :
  run_steps raises (mark_max_steps data) (calls σ)
  = (outcome (mark_max raises data color σ).1,
     calls (mark_max raises data color σ).2)
  ∧ heap (mark_max raises data color σ).2 = heap σ.
Proof.
  unfold mark_max, mark_max_steps.
  destruct (apply_loc_idxmax (groupby_h_dim data)) as [e|rows]; [done|].
  cbv zeta. cbn [run_steps]. rewrite bind_call.
  destruct (raises (calls σ) _); [done|].
  apply (scatter_loop_run _ _ (mkPy (heap σ) (calls σ ++ [_]))).
Qed.

End MarkMax.



End Logic.

(** ** [plot_lineplots]: the file it saves *)

Section Figure.

Import Notebook Logic.
Local Open Scope string_scope.

Lemma list_of_append (a b : string) :
  list_ascii_of_string (a ++ b)
  = (list_ascii_of_string a ++ list_ascii_of_string b)%list.
Proof. induction a as [|c a IH]; simpl; [done|]. by rewrite IH. Qed.

Lemma append_inv_tail (a b t : string) : a ++ t = b ++ t → a = b.
Proof.
  intros H. apply (f_equal list_ascii_of_string) in H.
  rewrite !list_of_append in H. apply app_inv_tail in H.
  apply (f_equal string_of_list_ascii) in H.
  by rewrite !string_of_list_ascii_of_string in H.
Qed.

Lemma append_inv_head (t a b : string) : t ++ a = t ++ b → a = b.
Proof. induction t as [|c t IH]; simpl; [done|]. intros [=]. auto. Qed.

Lemma figure_name_eq dataset suffix :
  figure_name dataset suffix =
  "lr-scaling-lineplot-" ++ dataset
    ++ (if String.eqb suffix "" then "" else "-" ++ suffix) ++ ".pdf".
Proof. unfold figure_name. destruct suffix; reflexivity. Qed.

Lemma figure_name_suffix_inj dataset s s' :
  figure_name dataset s = figure_name dataset s' → s = s'.
Proof.
  rewrite !figure_name_eq. intros H.
  apply (append_inv_head "lr-scaling-lineplot-") in H.
  apply (append_inv_head dataset) in H.
  apply (append_inv_tail _ _ ".pdf") in H.
  destruct s as [|c s], s' as [|c' s']; simpl in H; try done.
  by injection H as -> ->.
Qed.


(** The dataset in a file name.  A dataset name without a hyphen ends
    where the name goes on with [-] or with [.pdf]. *)
Lemma length_append (a b : string) :
  String.length (a ++ b) = (String.length a + String.length b)%nat.
Proof. induction a as [|c a IH]; simpl; [done|]. by rewrite IH. Qed.

Lemma name_end_length suffix : (4 ≤ String.length (name_end suffix))%nat.
Proof.
  unfold name_end. rewrite length_append. simpl. lia.
Qed.

Lemma name_end_head suffix :
  name_end suffix = ".pdf" ∨ ∃ t, name_end suffix = String "-" t.
Proof.
  unfold name_end. destruct suffix as [|c s]; [by left|right].
  by eexists.
Qed.

Lemma dataset_end_inj d : ∀ d' s s',
  no_hyphen d = true → no_hyphen d' = true →
  d ++ name_end s = d' ++ name_end s' → d = d'.
Proof.
  induction d as [|c d IH]; intros [|c' d'] s s' Hd Hd' H; simpl in *.
  - done.
  - exfalso. apply andb_prop in Hd' as [Hc' _].
    destruct (name_end_head s) as [E|[t E]]; rewrite E in H.
    + injection H as _ H. apply (f_equal String.length) in H.
      rewrite length_append in H. pose proof (name_end_length s'). simpl in H. lia.
    + injection H as <- _. done.
  - exfalso. apply andb_prop in Hd as [Hc _].
    destruct (name_end_head s') as [E|[t E]]; rewrite E in H.
    + injection H as _ H. apply (f_equal String.length) in H.
      rewrite length_append in H. pose proof (name_end_length s). simpl in H. lia.
    + injection H as -> _. done.
  - apply andb_prop in Hd as [_ Hd]. apply andb_prop in Hd' as [_ Hd'].
    injection H as -> H. f_equal. by eapply IH.
Qed.


(** The file name never starts with a slash, so the directory is kept. *)
Lemma os_path_join_figure folder dataset suffix :
  os_path_join folder (figure_name dataset suffix) =
  folder ++ (if String.eqb folder "" || endswith_slash folder then "" else "/")
         ++ figure_name dataset suffix.
Proof.
  unfold os_path_join. rewrite figure_name_eq.
  change (String.prefix "/" ("lr-scaling-lineplot-" ++ ?x)) with false.
  cbv iota. by destruct (String.eqb folder "" || endswith_slash folder).
Qed.

Lemma saved_files_app l1 l2 :
  saved_files (l1 ++ l2) = (saved_files l1 ++ saved_files l2)%list.
Proof. unfold saved_files. apply omap_app. Qed.

Lemma saved_files_steps N d folder dataset suffix :
  saved_files (calls_of (plot_lineplots_steps N d folder dataset suffix))
  = [os_path_join folder (figure_name dataset suffix)].
Proof. reflexivity. Qed.

(** When the library never raises, [plot_lineplots] makes every call of
    its steps. *)
Lemma plot_lineplots_never N σ results d experiment_folder dataset suffix :
  heap σ !! results = Some d →
  let r := plot_lineplots never N results experiment_folder dataset suffix σ in
  r.1 = inr tt ∧
  calls r.2 = (calls σ ++ calls_of (plot_lineplots_steps N d experiment_folder
                                      dataset suffix))%list.
Proof.
  intros Hres.
  destruct (plot_lineplots_run never N σ results d
              experiment_folder dataset suffix Hres) as [Hrun _].
  cbv zeta. revert Hrun.
  generalize (plot_lineplots never N results experiment_folder dataset suffix σ).
  intros [res σ'] Hrun. cbn [fst snd] in *.
  rewrite run_steps_never in Hrun by apply plot_lineplots_steps_calls.
  injection Hrun as Hres' Hcalls. split; [|done].
  by destruct res as [e|[]].
Qed.

End Figure.




(** ** [plot_lineplots]: the caller's table *)

Section Aliasing.

Import Notebook Logic.
Local Open Scope string_scope.

(** The heap does model in-place update: assigning a column changes the
    object that every reference to it sees. *)
Example setitem_changes_the_object :
  let σ' := (DataFrame_setitem_h_lr 0 [2.0; 2.0; 2.0; 2.0; 2.0]%float demo_state).2 in
  column config_h_lr <$> heap σ' !! 0%nat = Some [2.0; 2.0; 2.0; 2.0; 2.0]%float
  ∧ heap σ' !! 0%nat ≠ heap demo_state !! 0%nat.
Proof. split; [reflexivity|]. vm_compute. discriminate. Qed.

End Aliasing.

(** C9.  [plot_lineplots] never changes the table of its caller: whatever
    the library does, and whether the call returns or raises, the object
    that [results] refers to holds the same rows afterwards, and so does
    every other object the caller had; the filtering and the shifted copy
    of the backpropagation rows happen on objects the function made. *)
Theorem C9_plot_lineplots_keeps_results
    (raises : list Notebook.plot_call → Notebook.plot_call → option Notebook.exn)
    (NEURIPS_FORMAT_FULL : list (string * Notebook.cell))
    (σ : Notebook.pystate) (results : nat)
    (d : Notebook.frame Notebook.result_row)
    (experiment_folder dataset suffix : string) :
  Notebook.heap σ !! results = Some d →
  let σ' := (Notebook.plot_lineplots raises NEURIPS_FORMAT_FULL results
               experiment_folder dataset suffix σ).2 in
  Notebook.heap σ' !! results = Some d ∧
  ∀ l d', Notebook.heap σ !! l = Some d' → Notebook.heap σ' !! l = Some d'.
Proof.
  intros Hres.
  destruct (Logic.plot_lineplots_run raises NEURIPS_FORMAT_FULL σ results d
              experiment_folder dataset suffix Hres) as [_ Hsub].
  cbv zeta. split.
  - by eapply lookup_weaken.
  - intros l d' Hl. by eapply lookup_weaken.
Qed.

Lemma C9_witness :
  Notebook.heap
    (Notebook.plot_lineplots Notebook.never [] 0 "artifacts" "two_moons" ""
       Notebook.demo_state).2 !! 0%nat
  = Some Notebook.demo_results.
Proof.
  exact (proj1 (C9_plot_lineplots_keeps_results Notebook.never [] Notebook.demo_state
                  0 Notebook.demo_results "artifacts" "two_moons" "" eq_refl)).
Defined.

(** ** The job submission wrapper *)

Module Shell_facts.

Import Shell.
Local Open Scope string_scope.

Lemma append_cons c (s t : string) : String c s ++ t = String c (s ++ t).
Proof. reflexivity. Qed.

Lemma append_nil_r (s : string) : s ++ "" = s.
Proof. induction s as [|c s IH]; [done|]. by rewrite append_cons, IH. Qed.

Lemma append_assoc (a b c : string) : (a ++ b) ++ c = a ++ (b ++ c).
Proof. induction a as [|x a IH]; [done|]. by rewrite !append_cons, IH. Qed.

Lemma add_literal_current s fin t g :
  add_literal s (mkFields fin (Some (t, g))) = mkFields fin (Some (t ++ s, g)).
Proof.
  revert t. induction s as [|c s IH]; intros t; simpl.
  - by rewrite append_nil_r.
  - unfold add_char. simpl. rewrite orb_false_r. rewrite IH.
    by rewrite append_assoc.
Qed.

(** Without blanks and pattern characters an expansion is one piece of the
    field it stands in. *)
Lemma add_unquoted_plain s fin t g :
  plain s = true →
  add_unquoted s (mkFields fin (Some (t, g))) = mkFields fin (Some (t ++ s, g)).
Proof.
  revert t. induction s as [|c s IH]; intros t Hs; simpl in *.
  - by rewrite append_nil_r.
  - apply andb_prop in Hs as [Hc Hs]. apply andb_prop in Hc as [Hifs Hglob].
    apply negb_true_iff in Hifs, Hglob. rewrite Hifs, Hglob.
    unfold add_char. simpl. rewrite orb_false_r. rewrite IH by done.
    by rewrite append_assoc.
Qed.

Section Wrapper.

Variable glob : string → list string.
Variable spawn : list string → Z.
Variable args : list string.

Local Abbreviation after_assignment := (after_assignment args).

Lemma run_script_unfold :
  run glob spawn run_script args
  = run_command glob spawn (mkState after_assignment 0 []) (Simple driver_words).
Proof. reflexivity. Qed.

Lemma study_value :
  param_value (Var "study") after_assignment = default "" (head args).
Proof.
  unfold param_value, Shell.after_assignment. cbn [vars]. rewrite lookup_insert_eq.
  unfold expand_value, param_value. cbn [foldr positional default].
  rewrite append_nil_r. by destruct args.
Qed.


Lemma run_script_plain :
  plain (default "" (head args)) = true →
  processes (run glob spawn run_script args) = [driver_argv (default "" (head args))]
  ∧ status (run glob spawn run_script args)
    = spawn (driver_argv (default "" (head args))).
Proof.
  intros Hplain. set (study := default "" (head args)) in *.
  assert (Hstudy : expand_word glob after_assignment [Lit "bp_"; Var "study"]
                   = ["bp_" ++ study]).
  { unfold expand_word. cbn [foldl add_part]. rewrite study_value. fold study.
    change (add_literal "bp_" (mkFields [] None))
      with (mkFields [] (Some ("bp_", false))).
    by rewrite add_unquoted_plain. }
  assert (Hconfig : expand_word glob after_assignment
                      [Lit "bp_"; Var "study"; Lit "_hypertune.yaml"]
                    = ["bp_" ++ study ++ "_hypertune.yaml"]).
  { unfold expand_word. cbn [foldl add_part]. rewrite study_value. fold study.
    change (add_literal "bp_" (mkFields [] None))
      with (mkFields [] (Some ("bp_", false))).
    rewrite add_unquoted_plain by done. rewrite add_literal_current.
    by rewrite append_assoc. }
  assert (Hargv : flat_map (expand_word glob after_assignment) driver_words
                  = driver_argv study).
  { unfold driver_words. cbn [run_script flat_map].
    rewrite Hstudy, Hconfig. reflexivity. }
  rewrite run_script_unfold. unfold run_command. cbn [environment].
  rewrite Hargv. unfold driver_argv at 1. cbv iota. done.
Qed.

End Wrapper.

(** What the wrapper asks of the driver for parallel execution: a trial
    count and a list of GPUs, whatever the study. *)
Lemma wrapper_requests_trials_and_gpus study :
  option_value "--n_trials" (driver_argv study) = Some "32:8" ∧
  option_value "--gpus" (driver_argv study) = Some "0,1,2,3,4,5,6,7".
Proof. split; reflexivity. Qed.

End Shell_facts.

(** C3 as stated does not hold: the wrapper passes six options to the
    driver, the four that are named and [--exe] and [--tuner], here for the
    study [mnist]. *)
Lemma C3_counterexample :
  ∃ argv,
    Shell.processes (Shell.run (λ _, []) (λ _, 0) Shell.run_script ["mnist"%string])
    = [argv]
    ∧ Shell.options argv
      = ["--exe"; "--study"; "--gpus"; "--n_trials"; "--tuner"; "--config"]%string
    ∧ Shell.options argv ≠ Shell.named_options.
Proof.
  eexists. split; [vm_compute; reflexivity|]. split; [reflexivity|].
  vm_compute. discriminate.
Qed.

(** C3, amended.  The job submission wrapper invokes the hyperparameter
    tuning driver [python -m stune] once, with the study name [bp_<study>],
    the GPU list, the trial count [32:8] and the config path
    [bp_<study>_hypertune.yaml], and with two more options, the executable
    [--exe bp_hypertune] and the tuner [--tuner ssh]; both the study name
    and the config path come from the first positional argument alone,
    taken here without blanks and pattern characters. *)
Theorem C3_wrapper_invokes_driver
    (glob : string → list string) (spawn : list string → Z) (args : list string) :
  let study := default ""%string (head args) in
  Shell.plain study = true →
  let st := Shell.run glob spawn Shell.run_script args in
  let argv := Shell.driver_argv study in
  Shell.processes st = [argv] ∧
  take 3 argv = ["python"; "-m"; "stune"]%string ∧
  Shell.options argv
  = ["--exe"; "--study"; "--gpus"; "--n_trials"; "--tuner"; "--config"]%string ∧
  Shell.option_value "--exe" argv = Some "bp_hypertune"%string ∧
  Shell.option_value "--study" argv = Some ("bp_" ++ study)%string ∧
  Shell.option_value "--gpus" argv = Some "0,1,2,3,4,5,6,7"%string ∧
  Shell.option_value "--n_trials" argv = Some "32:8"%string ∧
  Shell.option_value "--tuner" argv = Some "ssh"%string ∧
  Shell.option_value "--config" argv
  = Some ("bp_" ++ study ++ "_hypertune.yaml")%string.
Proof.
  intros study Hplain st argv.
  split; [exact (proj1 (Shell_facts.run_script_plain glob spawn args Hplain))|].
  repeat split; reflexivity.
Qed.

Lemma C3_witness :
  Shell.processes (Shell.run (λ _, []) (λ _, 0) Shell.run_script ["mnist"%string])
  = [ ["python"; "-m"; "stune"; "--exe"; "bp_hypertune"; "--study"; "bp_mnist";
       "--gpus"; "0,1,2,3,4,5,6,7"; "--n_trials"; "32:8"; "--tuner"; "ssh";
       "--config"; "bp_mnist_hypertune.yaml"]%string ].
Proof.
  exact (proj1 (C3_wrapper_invokes_driver (λ _, []) (λ _, 0) ["mnist"%string] eq_refl)).
Defined.

(** ** The experiment configuration records *)

(** Every hypertune record asks for one GPU per task; the sweep grid runs
    one trial at a time. *)
Lemma one_gpu_per_task :
  Forall (λ cfg, Yaml.get "gpus_per_task" cfg = Some (Yaml.YInt 1))
         Yaml.hypertune_configs ∧
  Yaml.get_path ["run"; "n_parallel"]%string Yaml.training_stability_grid
  = Some (Yaml.YInt 1).
Proof. split; [repeat constructor|reflexivity]. Qed.

(** C2.  In every experiment configuration record, a hyperparameter that
    carries a sampling specification carries all of it: the three fields
    [sample_type], [sample_space] and [default]. *)
Theorem C2_sampling_specification_complete
    (cfg : Yaml.yaml) (path : list string) (hp : Yaml.yaml) :
  In cfg Yaml.experiment_configs →
  In (path, hp) (Yaml.hyperparameters cfg) →
  Yaml.annotated hp = true →
  Yaml.has_key "sample_type" hp = true ∧
  Yaml.has_key "sample_space" hp = true ∧
  Yaml.has_key "default" hp = true.
Proof.
  intros Hcfg Hhp Hann.
  assert (Hall : forallb Yaml.sampling_complete Yaml.experiment_configs = true)
    by (vm_compute; reflexivity).
  rewrite forallb_forall in Hall. specialize (Hall cfg Hcfg).
  unfold Yaml.sampling_complete in Hall. rewrite forallb_forall in Hall.
  specialize (Hall (path, hp) Hhp). cbn [snd] in Hall.
  rewrite Hann in Hall. cbn [implb] in Hall.
  unfold Yaml.fully_specified, Yaml.sampling_fields in Hall. cbn [forallb] in Hall.
  apply andb_prop in Hall as [H1 Hall]. apply andb_prop in Hall as [H2 Hall].
  apply andb_prop in Hall as [H3 _]. auto.
Qed.

Lemma C2_witness :
  Yaml.has_key "sample_type" (Yaml.act_fn_spec "hard_tanh") = true ∧
  Yaml.has_key "sample_space" (Yaml.act_fn_spec "hard_tanh") = true ∧
  Yaml.has_key "default" (Yaml.act_fn_spec "hard_tanh") = true.
Proof.
  apply (C2_sampling_specification_complete Yaml.pc_mnist_adamw_hypertune
           ["hp"; "act_fn"]%string (Yaml.act_fn_spec "hard_tanh")).
  - right. left. reflexivity.
  - apply (nth_error_In _ 6). reflexivity.
  - reflexivity.
Defined.

(** C4 as stated does not hold: the sweep grid of the training-stability
    experiment is an experiment configuration record, and it has neither a
    weight decay nor a batch size. *)
Lemma C4_counterexample :
  ¬ (∀ cfg h, In cfg Yaml.experiment_configs → In h Yaml.all_hyperparameters →
              Yaml.contains h cfg = true).
Proof.
  intros H.
  specialize (H Yaml.training_stability_grid Yaml.WeightDecay).
  assert (Hf : Yaml.contains Yaml.WeightDecay Yaml.training_stability_grid = false)
    by (vm_compute; reflexivity).
  rewrite H in Hf; [discriminate| |].
  - left. reflexivity.
  - right. right. left. reflexivity.
Qed.

(** C4, amended.  Every experiment configuration record is a hierarchical
    mapping that contains learning rates, momentum, layer dimensions
    ([layer_dims], [h_dims], or [internal_state_dim] for the
    deconvolutional models), the activation function choice, the optimizer
    name, the number of relaxation steps [T] and the epoch count.  Weight
    decay and batch size are in the hypertune records, those with an [hp]
    section, and not in the sweep grid. *)
Theorem C4_configuration_hyperparameters (cfg : Yaml.yaml) :
  In cfg Yaml.experiment_configs →
  Yaml.is_mapping cfg = true ∧
  (∀ h, In h Yaml.common_hyperparameters → Yaml.contains h cfg = true) ∧
  Yaml.contains Yaml.WeightDecay cfg = Yaml.is_hypertune cfg ∧
  Yaml.contains Yaml.BatchSize cfg = Yaml.is_hypertune cfg ∧
  forallb (λ p, Yaml.has_path p cfg)
    (if Yaml.is_hypertune cfg then Yaml.hypertune_paths else Yaml.grid_paths) = true.
Proof.
  intros Hcfg.
  assert (Hall : forallb (λ cfg,
            Yaml.is_mapping cfg
            && forallb (λ h, Yaml.contains h cfg) Yaml.common_hyperparameters
            && Bool.eqb (Yaml.contains Yaml.WeightDecay cfg) (Yaml.is_hypertune cfg)
            && Bool.eqb (Yaml.contains Yaml.BatchSize cfg) (Yaml.is_hypertune cfg)
            && forallb (λ p, Yaml.has_path p cfg)
                 (if Yaml.is_hypertune cfg then Yaml.hypertune_paths
                  else Yaml.grid_paths))
          Yaml.experiment_configs = true) by (vm_compute; reflexivity).
  rewrite forallb_forall in Hall. specialize (Hall cfg Hcfg).
  apply andb_prop in Hall as [Hall Hpaths]. apply andb_prop in Hall as [Hall Hbs].
  apply andb_prop in Hall as [Hall Hwd]. apply andb_prop in Hall as [Hmap Hcommon].
  apply Bool.eqb_prop in Hbs, Hwd.
  split; [exact Hmap|]. split; [|split; [exact Hwd|split; [exact Hbs|exact Hpaths]]].
  intros h Hh. rewrite forallb_forall in Hcommon. by apply Hcommon.
Qed.

Lemma C4_witness :
  Yaml.contains Yaml.WeightDecay Yaml.pc_cifar10_sgd_hypertune = true ∧
  Yaml.contains Yaml.BatchSize Yaml.training_stability_grid = false.
Proof.
  split.
  - destruct (C4_configuration_hyperparameters Yaml.pc_cifar10_sgd_hypertune)
      as (_ & _ & H & _); [do 3 right; left; reflexivity|]. rewrite H. reflexivity.
  - destruct (C4_configuration_hyperparameters Yaml.training_stability_grid)
      as (_ & _ & _ & H & _); [left; reflexivity|]. rewrite H. reflexivity.
Defined.

(** ** Exceptions *)

Section Propagation.

Import Notebook Logic.
Local Open Scope string_scope.

Variable raises : list plot_call → plot_call → option exn.
Variable N : list (string * cell).
Variable artifact_dir : string.
Variable load_data : nat → string → list string → exn + frame result_row.




End Propagation.



(** ** [plot_lineplots]: what is drawn *)

Section Drawn.

Import Notebook Logic.
Local Open Scope string_scope.

Lemma lineplots_app l1 l2 :
  lineplots (l1 ++ l2) = (lineplots l1 ++ lineplots l2)%list.
Proof. unfold lineplots. apply omap_app. Qed.

Lemma lineplots_steps N d folder dataset suffix :
  lineplots (calls_of (plot_lineplots_steps N d folder dataset suffix))
  = panels dataset d.
Proof. reflexivity. Qed.

(** The line plots of a run are the three panels, in order. *)
Lemma plot_lineplots_panels N σ results d folder dataset suffix :
  heap σ !! results = Some d →
  lineplots (calls (plot_lineplots never N results folder dataset suffix σ).2)
  = (lineplots (calls σ) ++ panels dataset d)%list.
Proof.
  intros Hres.
  destruct (plot_lineplots_never N σ results d folder dataset suffix Hres) as [_ ->].
  by rewrite lineplots_app, lineplots_steps.
Qed.

Lemma filter_map_comm {A B : Type} (f : A → B) (p : B → bool) (l : list A) :
  List.filter p (map f l) = map f (List.filter (λ x, p (f x)) l).
Proof.
  induction l as [|x l IH]; simpl; [done|]. destruct (p (f x)); simpl; by rewrite IH.
Qed.

Lemma plotted_named dataset d :
  plotted dataset (map named_columns d) = map named_columns (plotted dataset d).
Proof.
  unfold plotted, dataset_filter, condition_filter. by rewrite !filter_map_comm.
Qed.

Lemma panel_data_named c d :
  panel_data c (map named_columns d) = map named_columns (panel_data c d).
Proof.
  unfold panel_data, panel_rows, shifted. rewrite !filter_map_comm.
  destruct (str_contains "BP" c); [|done].
  by rewrite map_app, !map_map.
Qed.

Lemma x_y_hue_named d : x_y_hue (map named_columns d) = x_y_hue d.
Proof. unfold x_y_hue. by rewrite map_map. Qed.

Lemma hidden_dims_named d :
  column config_hidden_dims (map named_columns d) = column config_hidden_dims d.
Proof. unfold column. by rewrite map_map. Qed.

(** What is drawn is a function of the named columns. *)
Lemma plot_lineplots_steps_named N d folder dataset suffix :
  plot_lineplots_steps N (map named_columns d) folder dataset suffix
  = plot_lineplots_steps N d folder dataset suffix.
Proof.
  unfold plot_lineplots_steps, panel_steps. cbv zeta.
  rewrite plotted_named, hidden_dims_named.
  cbn [flat_map enumerate conditions length seq zip_with fst snd].
  by rewrite !panel_data_named, !x_y_hue_named.
Qed.

Lemma set_other_named name v d :
  map named_columns (map (set_other name v) d) = map named_columns d.
Proof. by rewrite map_map. Qed.

Lemma same_named_columns_eq d d' :
  Forall2 same_named_columns d d' → map named_columns d = map named_columns d'.
Proof.
  induction 1 as [|[l r] [l' r'] d d' (Hl & Hc & Hh & Hd & Hw & Ha) _ IH]; simpl; [done|].
  rewrite IH. f_equal. unfold named_columns. simpl in *. congruence.
Qed.

Lemma no_column_varies name : ¬ varies_with name.
Proof.
  intros (N & d & folder & dataset & suffix & v & Hne). apply Hne.
  transitivity (plot_lineplots_steps N (map named_columns (map (set_other name v) d))
                  folder dataset suffix).
  - symmetry. apply plot_lineplots_steps_named.
  - rewrite set_other_named. apply plot_lineplots_steps_named.
Qed.

(** Every point of a panel is a row that passed the row filter, has the
    condition of the panel and belongs to the dataset: its state learning
    rate, its accuracy and its width; a backpropagation row is drawn a
    second time, [0.1] to the right. *)
Lemma panel_point_origin c dataset d pt :
  In pt (x_y_hue (panel_data c (plotted dataset d))) →
  ∃ r, In r (condition_filter d) ∧
       condition r.2 = c ∧ experiment_data_dataset r.2 = dataset ∧
       pt.1.2 = results_accuracy r.2 ∧ pt.2 = config_hidden_dims r.2 ∧
       (pt.1.1 = config_h_lr r.2 ∨
        (str_contains "BP" c = true ∧ pt.1.1 = (config_h_lr r.2 + 0.1)%float)).
Proof.
  assert (Hrows : ∀ r, In r (panel_rows c (plotted dataset d)) →
            In r (condition_filter d) ∧ condition r.2 = c
            ∧ experiment_data_dataset r.2 = dataset).
  { intros r Hr. unfold panel_rows, plotted, dataset_filter in Hr.
    apply filter_In in Hr as [Hr Hc]. apply filter_In in Hr as [Hr Hd].
    apply String.eqb_eq in Hc, Hd. done. }
  unfold panel_data, x_y_hue. intros Hpt.
  destruct (str_contains "BP" c).
  - rewrite map_app in Hpt. apply in_app_or in Hpt as [Hpt|Hpt].
    + apply in_map_iff in Hpt as (r & <- & Hr).
      destruct (Hrows r Hr) as (? & ? & ?). exists r. simpl. auto 10.
    + unfold shifted in Hpt. rewrite map_map in Hpt.
      apply in_map_iff in Hpt as (r & <- & Hr).
      destruct (Hrows r Hr) as (? & ? & ?). exists r. simpl. auto 10.
  - apply in_map_iff in Hpt as (r & <- & Hr).
    destruct (Hrows r Hr) as (? & ? & ?). exists r. simpl. auto 10.
Qed.

Lemma condition_filter_In d r :
  In r (condition_filter d) ↔ In r d ∧ (mask_bp r.2 || mask_pc r.2) = true.
Proof. unfold condition_filter. apply filter_In. Qed.

End Drawn.

(** C5 as stated does not hold: no column of the table other than the
    condition, the state learning rate, the dataset, the hidden width and
    the accuracy changes what is drawn; so the figure varies neither with
    the weight learning rate nor with the activation function, as on the
    example table. *)
Lemma C5_counterexample :
  (¬ ∃ name, Notebook.varies_with name) ∧
  Notebook.plot_lineplots_steps []
    (map (Notebook.set_other "config.activation_fn" (Notebook.CStr "leaky_relu"))
       (map (Notebook.set_other "config.w_lr" (Notebook.CFloat 0.1))
          Notebook.demo_results))
    "artifacts" "two_moons" ""
  = Notebook.plot_lineplots_steps [] Notebook.demo_results "artifacts" "two_moons" "".
Proof.
  split.
  - intros [name H]. exact (no_column_varies name H).
  - vm_compute. reflexivity.
Qed.

(** C5, amended.  The analysis notebook plots accuracy against the state
    learning rate, with one curve per hidden-layer width, in one panel per
    condition: [PC-sgd-0.9], [PC-adamw-0.9] and [BP-sgd-0.9], which is where
    the optimizer choice enters.  It reads no other column: tables that
    agree on the condition, the state learning rate, the dataset, the width
    and the accuracy give the same figure, whatever their weight learning
    rates and activation functions. *)
Theorem C5_plot_lineplots_axes
    (NEURIPS_FORMAT_FULL : list (string * Notebook.cell))
    (σ : Notebook.pystate) (results : nat)
    (d : Notebook.frame Notebook.result_row)
    (experiment_folder dataset suffix : string) :
  Notebook.heap σ !! results = Some d →
  let r := Notebook.plot_lineplots Notebook.never NEURIPS_FORMAT_FULL results
             experiment_folder dataset suffix σ in
  let P := Notebook.plotted dataset d in
  Notebook.lineplots (Notebook.calls r.2)
  = Notebook.lineplots (Notebook.calls σ) ++
    [ (0%nat, Notebook.x_y_hue (Notebook.panel_data "PC-sgd-0.9" P));
      (1%nat, Notebook.x_y_hue (Notebook.panel_data "PC-adamw-0.9" P));
      (2%nat, Notebook.x_y_hue (Notebook.panel_data "BP-sgd-0.9" P)) ] ∧
  (∀ c pt, In pt (Notebook.x_y_hue (Notebook.panel_data c P)) →
     ∃ row, In row d ∧ Notebook.condition row.2 = c ∧
            pt.1.2 = Notebook.results_accuracy row.2 ∧
            pt.2 = Notebook.config_hidden_dims row.2 ∧
            (pt.1.1 = Notebook.config_h_lr row.2 ∨
             (Notebook.str_contains "BP" c = true ∧
              pt.1.1 = (Notebook.config_h_lr row.2 + 0.1)%float))) ∧
  (∀ d', Forall2 Notebook.same_named_columns d d' →
     Notebook.plot_lineplots_steps NEURIPS_FORMAT_FULL d'
       experiment_folder dataset suffix
     = Notebook.plot_lineplots_steps NEURIPS_FORMAT_FULL d
         experiment_folder dataset suffix).
Proof.
  intros Hres. cbv zeta. split; [|split].
  - by rewrite (plot_lineplots_panels _ _ _ d).
  - intros c pt Hpt.
    destruct (panel_point_origin c dataset d pt Hpt) as (row & Hrow & Hc & _ & Ha & Hw & Hx).
    apply condition_filter_In in Hrow as [Hrow _]. by exists row.
  - intros d' Hd'.
    rewrite <- (plot_lineplots_steps_named _ d'), <- (plot_lineplots_steps_named _ d).
    by rewrite (same_named_columns_eq d d').
Qed.

Lemma C5_witness :
  Notebook.lineplots
    (Notebook.calls
       (Notebook.plot_lineplots Notebook.never [] 0 "artifacts" "two_moons" ""
          Notebook.demo_state).2)
  = [ (0%nat, [(0.1%float, 0.9%float, 512)]);
      (1%nat, [(0.01%float, 0.7%float, 1024)]);
      (2%nat, [(1.0%float, 0.8%float, 1024); (1.1%float, 0.8%float, 1024)]) ].
Proof.
  exact (proj1 (C5_plot_lineplots_axes [] Notebook.demo_state 0
                  Notebook.demo_results "artifacts" "two_moons" "" eq_refl)).
Defined.

(** C8 as stated does not hold for a row whose condition contains both
    ["BP"] and ["PC"]: it is kept by the first mask whatever its state
    learning rate, here [1.0]. *)
Lemma C8_counterexample :
  ¬ (∀ (d : Notebook.frame Notebook.result_row) r, In r d →
       (Notebook.str_contains "BP" (Notebook.condition r.2) = true →
        In r (Notebook.condition_filter d)) ∧
       (Notebook.str_contains "PC" (Notebook.condition r.2) = true →
        (In r (Notebook.condition_filter d)
         ↔ F64.lt (Notebook.config_h_lr r.2) 0.3 = true)) ∧
       (Notebook.str_contains "BP" (Notebook.condition r.2) = false →
        Notebook.str_contains "PC" (Notebook.condition r.2) = false →
        ¬ In r (Notebook.condition_filter d))).
Proof.
  intros H.
  destruct (H [Notebook.hybrid_row] Notebook.hybrid_row) as (_ & Hpc & _);
    [left; reflexivity|].
  assert (Hlt : F64.lt (Notebook.config_h_lr Notebook.hybrid_row.2) 0.3 = true).
  { apply Hpc; [reflexivity|]. left. reflexivity. }
  vm_compute in Hlt. discriminate.
Qed.

(** C8, amended.  The row filter of [plot_lineplots] keeps every row whose
    condition contains ["BP"], whatever its state learning rate, and keeps
    a row whose condition contains ["PC"] and not ["BP"] if and only if its
    [config.h_lr] is strictly less than [0.3]; every other row is dropped,
    and only rows that were kept are drawn. *)
Theorem C8_row_filter
    (NEURIPS_FORMAT_FULL : list (string * Notebook.cell))
    (σ : Notebook.pystate) (results : nat)
    (d : Notebook.frame Notebook.result_row)
    (experiment_folder dataset suffix : string) :
  Notebook.heap σ !! results = Some d →
  let kept := Notebook.condition_filter d in
  let run := Notebook.plot_lineplots Notebook.never NEURIPS_FORMAT_FULL results
               experiment_folder dataset suffix σ in
  (∀ r, In r d →
     (Notebook.str_contains "BP" (Notebook.condition r.2) = true → In r kept) ∧
     (Notebook.str_contains "PC" (Notebook.condition r.2) = true →
      Notebook.str_contains "BP" (Notebook.condition r.2) = false →
      (In r kept ↔ F64.lt (Notebook.config_h_lr r.2) 0.3 = true)) ∧
     (Notebook.str_contains "BP" (Notebook.condition r.2) = false →
      Notebook.str_contains "PC" (Notebook.condition r.2) = false →
      ¬ In r kept)) ∧
  (∀ r, In r kept → In r d) ∧
  Notebook.lineplots (Notebook.calls run.2)
  = Notebook.lineplots (Notebook.calls σ) ++
    map (λ ic, (ic.1, Notebook.x_y_hue
                        (Notebook.panel_data ic.2
                           (Notebook.dataset_filter dataset kept))))
        (Notebook.enumerate Notebook.conditions) ∧
  (∀ c pt,
     In pt (Notebook.x_y_hue
              (Notebook.panel_data c (Notebook.dataset_filter dataset kept))) →
     ∃ r, In r kept ∧
          pt.1.2 = Notebook.results_accuracy r.2 ∧
          pt.2 = Notebook.config_hidden_dims r.2 ∧
          (pt.1.1 = Notebook.config_h_lr r.2 ∨
           pt.1.1 = (Notebook.config_h_lr r.2 + 0.1)%float)).
Proof.
  intros Hres. cbv zeta. split; [|split; [|split]].
  - intros r Hr. rewrite condition_filter_In.
    unfold Notebook.mask_bp, Notebook.mask_pc. split; [|split].
    + intros ->. by split.
    + intros -> ->. simpl. split; [by intros [_ ?]|by split].
    + intros -> ->. simpl. by intros [_ ?].
  - intros r Hr. by apply condition_filter_In in Hr as [? _].
  - by rewrite (plot_lineplots_panels _ _ _ d).
  - intros c pt Hpt.
    destruct (panel_point_origin c dataset d pt Hpt)
      as (r & Hr & _ & _ & Ha & Hw & [Hx|[_ Hx]]); exists r; auto.
Qed.

Lemma C8_witness :
  let kept := Notebook.condition_filter Notebook.demo_results in
  map fst kept = [0; 2; 3; 4] ∧
  Notebook.lineplots
    (Notebook.calls
       (Notebook.plot_lineplots Notebook.never [] 0 "artifacts" "two_moons" ""
          Notebook.demo_state).2)
  = [ (0%nat, [(0.1%float, 0.9%float, 512)]);
      (1%nat, [(0.01%float, 0.7%float, 1024)]);
      (2%nat, [(1.0%float, 0.8%float, 1024); (1.1%float, 0.8%float, 1024)]) ].
Proof.
  split; [reflexivity|].
  exact (proj1 (proj2 (proj2 (C8_row_filter [] Notebook.demo_state 0
                  Notebook.demo_results "artifacts" "two_moons" "" eq_refl)))).
Defined.

(** ** [mark_max] *)

Module MarkMax_facts.

Import Notebook Logic F64 F64_facts.
Local Open Scope Z_scope.

(** Sorted keys *)
Lemma insert_key_In k k' ks : In k' (insert_key k ks) ↔ k' = k ∨ In k' ks.
Proof.
  induction ks as [|x ks IH]; simpl.
  - intuition.
  - destruct (k <? x) eqn:Hlt; [simpl; intuition|].
    destruct (k =? x) eqn:Heq.
    + apply Z.eqb_eq in Heq. subst. simpl. intuition.
    + simpl. rewrite IH. intuition.
Qed.

Lemma sorted_unique_In k ks : In k (sorted_unique ks) ↔ In k ks.
Proof.
  induction ks as [|x ks IH]; simpl; [done|].
  rewrite insert_key_In, IH. intuition.
Qed.

Lemma insert_key_sorted k ks :
  StronglySorted Z.lt ks → StronglySorted Z.lt (insert_key k ks).
Proof.
  induction 1 as [|x ks Hs IH Hx]; simpl.
  - repeat constructor.
  - destruct (k <? x) eqn:Hlt.
    + apply Z.ltb_lt in Hlt. constructor; [by constructor|].
      constructor; [done|]. rewrite List.Forall_forall in Hx |- *.
      intros y Hy. specialize (Hx y Hy). lia.
    + destruct (k =? x) eqn:Heq; [by constructor|].
      apply Z.ltb_ge in Hlt. apply Z.eqb_neq in Heq.
      constructor; [done|]. apply List.Forall_forall. intros y Hy.
      apply insert_key_In in Hy as [->|Hy]; [lia|].
      rewrite List.Forall_forall in Hx. by apply Hx.
Qed.

Lemma sorted_unique_sorted ks : StronglySorted Z.lt (sorted_unique ks).
Proof.
  induction ks as [|x ks IH]; simpl; [constructor|]. by apply insert_key_sorted.
Qed.

Lemma sorted_unique_id ks : StronglySorted Z.lt ks → sorted_unique ks = ks.
Proof.
  induction 1 as [|x ks Hs IH Hx]; simpl; [done|]. rewrite IH.
  destruct Hx as [|y ks Hy _]; simpl; [done|].
  apply Z.ltb_lt in Hy. by rewrite Hy.
Qed.

Lemma strictly_sorted_NoDup ks : StronglySorted Z.lt ks → List.NoDup ks.
Proof.
  induction 1 as [|x ks Hs IH Hx]; constructor; [|done].
  intros Hin. rewrite List.Forall_forall in Hx. specialize (Hx x Hin). lia.
Qed.

(** The arg max of a group *)
Lemma argmax_from_In best rest : In (argmax_from best rest) (best :: rest).
Proof.
  revert best. induction rest as [|r rest IH]; intros best; simpl; [auto|].
  destruct (IH (if F64.lt (fill best) (fill r) then r else best)) as [H|H]; [|auto].
  rewrite <- H. destruct (F64.lt (fill best) (fill r)); auto.
Qed.

Lemma fill_lt_negtrans a b c :
  F64.lt (fill a) (fill b) = false → F64.lt (fill b) (fill c) = false →
  F64.lt (fill a) (fill c) = false.
Proof. apply lt_negtrans; apply fill_isnan. Qed.

Lemma argmax_from_max best rest :
  F64.lt (fill (argmax_from best rest)) (fill best) = false ∧
  ∀ r, In r rest → F64.lt (fill (argmax_from best rest)) (fill r) = false.
Proof.
  revert best. induction rest as [|r0 rest IH]; intros best; simpl.
  - split; [apply lt_irrefl|done].
  - destruct (IH (if F64.lt (fill best) (fill r0) then r0 else best)) as [H1 H2].
    destruct (F64.lt (fill best) (fill r0)) eqn:E.
    + split.
      * eapply fill_lt_negtrans; [exact H1|]. by apply lt_asym.
      * intros r [<-|Hr]; [done|by apply H2].
    + split; [done|].
      intros r [<-|Hr]; [|by apply H2]. by eapply fill_lt_negtrans.
Qed.

Lemma idxmax_spec (x : frame point_row) :
  x ≠ [] →
  (∀ r, In r x → F64.isnan (accuracy r.2) = false) →
  ∃ m, idxmax x = Some m.1 ∧ In m x ∧
       ∀ r, In r x → F64.lt (accuracy m.2) (accuracy r.2) = false.
Proof.
  intros Hne Hnan. destruct x as [|r0 rest]; [done|].
  exists (argmax_from r0 rest). split; [|split].
  - unfold idxmax. cbn [forallb]. rewrite (Hnan r0) by (by left). done.
  - apply argmax_from_In.
  - assert (Hfill : ∀ r, In r (r0 :: rest) → fill r = accuracy r.2).
    { intros r Hr. unfold fill. apply fill_not_nan. by apply Hnan. }
    destruct (argmax_from_max r0 rest) as [H1 H2].
    intros r Hr. rewrite <- (Hfill r Hr), <- (Hfill _ (argmax_from_In r0 rest)).
    destruct Hr as [<-|Hr]; [done|by apply H2].
Qed.

(** Label lookup *)
Lemma loc_unique {R : Type} (x : frame R) (m : Z * R) :
  List.NoDup (map fst x) → In m x → loc m.1 x = [m].
Proof.
  unfold loc. induction x as [|r x IH]; simpl; [done|].
  intros Hnd Hm. inversion Hnd as [|? ? Hr Hnd']; subst.
  destruct Hm as [->|Hm].
  - rewrite Z.eqb_refl. f_equal.
    clear IH Hnd Hnd'. induction x as [|y x IH]; simpl; [done|].
    simpl in Hr. destruct (Z.eqb_spec y.1 m.1) as [E|E]; [tauto|].
    apply IH. tauto.
  - destruct (Z.eqb_spec r.1 m.1) as [E|E].
    + exfalso. apply Hr. rewrite E. by apply in_map.
    + by apply IH.
Qed.

Lemma NoDup_map_filter {A B : Type} (f : A → B) (p : A → bool) (l : list A) :
  List.NoDup (map f l) → List.NoDup (map f (List.filter p l)).
Proof.
  induction l as [|a l IH]; simpl; [done|].
  intros Hnd. inversion Hnd as [|? ? Ha Hnd']; subst.
  destruct (p a); simpl; [|by apply IH].
  constructor; [|by apply IH].
  intros Hin. apply Ha. apply in_map_iff in Hin as (y & Hy & Hin).
  apply filter_In in Hin as [Hin _]. rewrite <- Hy. by apply in_map.
Qed.

Section Groups.
Variable data : frame point_row.
Hypothesis labels_unique : List.NoDup (map fst data).
Hypothesis no_nan : ∀ r, In r data → F64.isnan (accuracy r.2) = false.

Lemma group_In k r : In r (group data k) ↔ In r data ∧ h_dim r.2 = k.
Proof. unfold group. rewrite filter_In, Z.eqb_eq. done. Qed.

Lemma group_piece k :
  In k (column h_dim data) →
  ∃ m, idxmax (group data k) = Some m.1 ∧ loc m.1 (group data k) = [m]
       ∧ is_group_max data k m.2.
Proof.
  intros Hk. apply in_map_iff in Hk as (r0 & Hk & Hr0).
  destruct (idxmax_spec (group data k)) as (m & Hidx & Hm & Hmax).
  - intros E. assert (Hin : In r0 (group data k)) by (by apply group_In).
    by rewrite E in Hin.
  - intros r Hr. apply no_nan. by apply group_In in Hr as [? _].
  - exists m. split; [done|]. split.
    + apply loc_unique; [|done]. by apply NoDup_map_filter.
    + apply group_In in Hm as [Hm Hmk]. split; [by apply in_map|]. split; [done|].
      intros r Hr Hrk. apply Hmax. by apply group_In.
Qed.

Lemma apply_loc_idxmax_groups keys :
  (∀ k, In k keys → In k (column h_dim data)) →
  ∃ rows, apply_loc_idxmax (map (λ k, (k, group data k)) keys) = inr rows
          ∧ Forall2 (is_group_max data) keys rows.
Proof.
  induction keys as [|k keys IH]; intros Hkeys; simpl.
  - exists []. by split.
  - destruct (group_piece k) as (m & -> & Hloc & Hmax); [apply Hkeys; by left|].
    destruct IH as (rows & -> & Hrows); [intros; apply Hkeys; by right|].
    rewrite Hloc. exists (m.2 :: rows). split; [done|]. by constructor.
Qed.

End Groups.

(** Index and order of the maxima *)
Lemma reset_index_rows {R : Type} (rows : list R) a :
  map snd (zip_with (λ (i : nat) r, (Z.of_nat i, r)) (seq a (length rows)) rows) = rows.
Proof.
  revert a. induction rows as [|r rows IH]; intros a; simpl; [done|]. by rewrite IH.
Qed.

Lemma sort_values_sorted (d : frame point_row) :
  StronglySorted Z.lt (column h_dim d) → sort_values_h_dim d = d.
Proof.
  unfold sort_values_h_dim, column. induction d as [|r d IH]; simpl; [done|].
  intros Hs. inversion Hs as [|? ? Hs' Hr]; subst. rewrite IH by done.
  destruct d as [|r' d]; simpl; [done|].
  inversion Hr as [|? ? Hlt _]; subst.
  assert ((h_dim r.2 <=? h_dim r'.2) = true) as -> by (apply Z.leb_le; lia). done.
Qed.

Lemma Forall2_h_dim data keys rows :
  Forall2 (is_group_max data) keys rows → map h_dim rows = keys.
Proof. induction 1 as [|k row keys rows (_ & Hk & _) _ IH]; simpl; [done|]. by rewrite Hk, IH. Qed.

Lemma palette_lookup name n i :
  (i < n)%nat → palette_colors name n !! i = Some (PaletteColor name n i).
Proof.
  intros Hi. unfold palette_colors. rewrite list_lookup_fmap, lookup_seq_lt by done.
  done.
Qed.

Lemma scatter_step_call name n (i : nat) (r : point_row) :
  (i < n)%nat →
  scatter_step (palette_colors name n) (Z.of_nat i, r)
  = Call (plt_scatter (h_lr r) (accuracy r) 500 0.2 (PaletteColor name n i)).
Proof.
  intros Hi. unfold scatter_step. cbn [fst snd].
  by rewrite Nat2Z.id, palette_lookup.
Qed.

Lemma scatters_scatter x y sz alpha c log :
  scatters (plt_scatter x y sz alpha c :: log) = (x, y) :: scatters log.
Proof. reflexivity. Qed.

Lemma scatters_palette name n log :
  scatters (sns_color_palette name n :: log) = scatters log.
Proof. reflexivity. Qed.

Lemma scatters_app l1 l2 : scatters (l1 ++ l2) = (scatters l1 ++ scatters l2)%list.
Proof. unfold scatters. apply omap_app. Qed.

Lemma scatter_steps_calls name n (rows : list point_row) a :
  (a + length rows ≤ n)%nat →
  forallb is_call
    (map (scatter_step (palette_colors name n))
       (zip_with (λ (i : nat) r, (Z.of_nat i, r)) (seq a (length rows)) rows)) = true
  ∧ scatters (calls_of
      (map (scatter_step (palette_colors name n))
         (zip_with (λ (i : nat) r, (Z.of_nat i, r)) (seq a (length rows)) rows)))
    = map (λ r, (h_lr r, accuracy r)) rows.
Proof.
  revert a. induction rows as [|r rows IH]; intros a Ha; [done|].
  cbn [length seq zip_with map] in *.
  rewrite scatter_step_call by lia.
  destruct (IH (S a)) as [H1 H2]; [lia|].
  cbn [forallb is_call calls_of andb]. split; [exact H1|].
  by rewrite scatters_scatter, H2.
Qed.

(** With unique labels and without NaN, [mark_max] scatters the maximum of
    every group, in the order of the keys. *)
Lemma mark_max_scatters (data : frame point_row) (color : string) (σ : pystate) :
  List.NoDup (map fst data) →
  (∀ r, In r data → F64.isnan (accuracy r.2) = false) →
  (mark_max never data color σ).1 = inr tt ∧
  ∃ rows,
    scatters (calls (mark_max never data color σ).2)
    = (scatters (calls σ) ++ map (λ row, (h_lr row, accuracy row)) rows)%list ∧
    Forall2 (is_group_max data) (sorted_unique (column h_dim data)) rows.
Proof.
  intros Hlabels Hnan.
  set (keys := sorted_unique (column h_dim data)).
  pose proof (sorted_unique_sorted (column h_dim data)) as Hsorted. fold keys in Hsorted.
  destruct (apply_loc_idxmax_groups data Hlabels Hnan keys) as (rows & Happly & Hrows).
  { intros k Hk. exact (proj1 (sorted_unique_In _ _) Hk). }
  pose proof (Forall2_h_dim _ _ _ Hrows) as Hdims.
  assert (Hlen : length rows = length keys) by (by rewrite <- Hdims, length_map).
  assert (Hsteps : mark_max_steps data
            = Call (sns_color_palette "viridis" (length rows))
              :: map (scatter_step (palette_colors "viridis" (length rows)))
                   (reset_index rows)).
  { unfold mark_max_steps, groupby_h_dim. fold keys. rewrite Happly. cbv zeta.
    assert (Hcol : column h_dim (reset_index rows) = keys).
    { unfold column. rewrite <- Hdims, <- (map_map snd h_dim).
      unfold reset_index. by rewrite reset_index_rows. }
    rewrite sort_values_sorted by (by rewrite Hcol).
    rewrite Hcol, sorted_unique_id, Hlen by done. done. }
  destruct (scatter_steps_calls "viridis" (length rows) rows 0) as [Hcalls Hscatters];
    [lia|]. fold (reset_index rows) in Hcalls, Hscatters.
  destruct (mark_max_run never data color σ) as [Hrun _].
  rewrite Hsteps, run_steps_never in Hrun by (cbn [forallb is_call andb]; exact Hcalls).
  injection Hrun as Hout Hlog. split.
  - destruct (mark_max never data color σ).1 as [e|[]]; [discriminate Hout|done].
  - exists rows. split; [|exact Hrows].
    rewrite <- Hlog. cbn [calls_of].
    by rewrite scatters_app, scatters_palette, Hscatters.
Qed.

End MarkMax_facts.

(** *** Groups with NaN, labels that repeat *)

Module MarkMax_groups.

Import Notebook Logic F64 F64_facts MarkMax_facts.
Local Open Scope Z_scope.




(** With labels that are unique within the group, the label [idxmax]
    returns is that of one row. *)
Lemma unique_labels_one_row (x : frame point_row) label :
  List.NoDup (map fst x) → idxmax x = Some label →
  ∃ row, loc label x = [(label, row)].
Proof.
  intros Hnd. unfold idxmax.
  destruct (forallb _ x); [done|]. destruct x as [|r0 rest]; [done|].
  cbn [first_argmax fmap option_fmap option_map]. intros [= <-].
  exists (argmax_from r0 rest).2.
  rewrite (loc_unique _ _ Hnd (argmax_from_In r0 rest)).
  by destruct (argmax_from r0 rest).
Qed.

Section Groups.
Variable data : frame point_row.
Hypothesis some_accuracy : ∀ r0, In r0 data →
  ∃ r, In r data ∧ h_dim r.2 = h_dim r0.2 ∧ isnan (accuracy r.2) = false.
Hypothesis one_row : ∀ k label,
  idxmax (group data k) = Some label →
  ∃ row, loc label (group data k) = [(label, row)].



End Groups.


End MarkMax_groups.




(** On the example sweep: the best point of width 512, then of width 1024;
    of two rows with the same accuracy the first one is taken. *)
Example mark_max_demo_points :
  Notebook.scatters
    (Notebook.calls
       (Notebook.mark_max Notebook.never Notebook.demo_points "C0"
          Notebook.demo_state).2)
  = [(0.1, 0.9)%float; (0.1, 0.7)%float].
Proof. reflexivity. Qed.

(** On the sweep put together from several tables: labels repeat from
    width to width and within a width, each width has a NaN, and the best
    point of each width is marked. *)
Example mark_max_concat_points :
  Notebook.scatters
    (Notebook.calls
       (Notebook.mark_max Notebook.never Notebook.concat_points "C0"
          Notebook.demo_state).2)
  = [(0.2, 0.9)%float; (0.1, 0.7)%float].
Proof. reflexivity. Qed.

(** * More of the code

    Properties of the functions and files above that the specification
    does not state. *)

(** ** [errorbar] *)

Module Leb_facts.

Import F64 F64_facts.
Local Open Scope Z_scope.

Lemma SFcompare_opp x y :
  x ≠ S754_nan → y ≠ S754_nan →
  ∃ c, SFcompare x y = Some c ∧ SFcompare y x = Some (CompOpp c).
Proof.
  destruct x as [sx| sx| |sx mx ex], y as [sy| sy| |sy my ey]; simpl; try done;
    intros _ _; try (destruct sx; eauto; fail); try (destruct sy; eauto; fail);
    try (destruct sx, sy; eauto; fail); eauto.
  destruct sx, sy; eauto.
  - eexists. split; [reflexivity|]. f_equal.
    rewrite (Z.compare_antisym ex ey).
    fold (Pos.compare mx my) (Pos.compare my mx).
    rewrite (Pos.compare_antisym mx my).
    destruct (ex ?= ey), (mx ?= my)%positive; reflexivity.
  - eexists. split; [reflexivity|]. f_equal.
    rewrite (Z.compare_antisym ex ey).
    fold (Pos.compare mx my) (Pos.compare my mx).
    rewrite (Pos.compare_antisym mx my).
    destruct (ex ?= ey), (mx ?= my)%positive; reflexivity.
Qed.

Lemma leb_lt a b :
  isnan a = false → isnan b = false → PrimFloat.leb a b = negb (lt b a).
Proof.
  intros Ha Hb. unfold lt. rewrite leb_spec, ltb_spec.
  destruct (SFcompare_opp (Prim2SF a) (Prim2SF b)) as (c & H1 & H2);
    [by apply isnan_spec..|].
  unfold SFleb, SFltb. rewrite H1, H2. by destruct c.
Qed.

Lemma leb_nan_l a b : isnan a = true → PrimFloat.leb a b = false.
Proof.
  unfold isnan, PrimFloat.is_nan. rewrite FloatAxioms.eqb_spec, leb_spec.
  unfold SFleb, SFeqb. destruct (Prim2SF a) as [s|s| |s m e]; simpl; try done.
  - by destruct s.
  - destruct s; rewrite Z.compare_refl; fold (Pos.compare m m);
      by rewrite Pos.compare_refl.
Qed.

Lemma leb_nan_r a b : isnan b = true → PrimFloat.leb a b = false.
Proof.
  unfold isnan, PrimFloat.is_nan. rewrite FloatAxioms.eqb_spec, leb_spec.
  unfold SFleb, SFeqb. destruct (Prim2SF b) as [s|s| |s m e]; simpl; try done.
  - by destruct s.
  - intros _. by destruct (Prim2SF a).
  - destruct s; rewrite Z.compare_refl; fold (Pos.compare m m);
      by rewrite Pos.compare_refl.
Qed.

Lemma leb_refl a : isnan a = false → PrimFloat.leb a a = true.
Proof. intros Ha. by rewrite leb_lt, lt_irrefl. Qed.

Lemma leb_total a b :
  isnan a = false → isnan b = false →
  PrimFloat.leb a b = false → PrimFloat.leb b a = true.
Proof.
  intros Ha Hb. rewrite !leb_lt by done. intros H.
  apply negb_false_iff in H. by rewrite (lt_asym _ _ H).
Qed.

Lemma leb_trans a b c :
  isnan a = false → isnan b = false → isnan c = false →
  PrimFloat.leb a b = true → PrimFloat.leb b c = true → PrimFloat.leb a c = true.
Proof.
  intros Ha Hb Hc. rewrite !leb_lt by done. intros H1 H2.
  apply negb_true_iff in H1, H2. apply negb_true_iff.
  by apply (lt_negtrans c b a).
Qed.

End Leb_facts.

Module Errorbar_facts.

Import Notebook F64 F64_facts Leb_facts.

Lemma np_minimum_nan_l a b : isnan a = true → isnan (np_minimum a b) = true.
Proof. intros Ha. unfold np_minimum. rewrite Ha, orb_true_r. done. Qed.

Lemma np_minimum_nan_r a b : isnan b = true → isnan (np_minimum a b) = true.
Proof.
  intros Hb. unfold np_minimum. rewrite (leb_nan_r a b Hb). simpl.
  by destruct (isnan a) eqn:E.
Qed.

Lemma np_maximum_nan_l a b : isnan a = true → isnan (np_maximum a b) = true.
Proof. intros Ha. unfold np_maximum. rewrite Ha, orb_true_r. done. Qed.

Lemma np_maximum_nan_r a b : isnan b = true → isnan (np_maximum a b) = true.
Proof.
  intros Hb. unfold np_maximum. rewrite (leb_nan_l b a Hb). simpl.
  by destruct (isnan a) eqn:E.
Qed.

(** A reduction with an operation that propagates NaN is NaN as soon as
    one element is. *)
Lemma foldl_nan (op : float → float → float) :
  (∀ a b, isnan a = true → isnan (op a b) = true) →
  (∀ a b, isnan b = true → isnan (op a b) = true) →
  ∀ rest a, (isnan a = true ∨ ∃ r, In r rest ∧ isnan r = true) →
    isnan (foldl op a rest) = true.
Proof.
  intros Hl Hr. induction rest as [|b rest IH]; intros a H; simpl.
  - destruct H as [H|(r & [] & _)]. done.
  - apply IH. destruct H as [H|(r & [<-|Hin] & Hn)]; eauto.
Qed.

Lemma foldl_minimum rest : ∀ a,
  (∀ r, In r (a :: rest) → isnan r = false) →
  let m := foldl np_minimum a rest in
  In m (a :: rest) ∧ ∀ r, In r (a :: rest) → PrimFloat.leb m r = true.
Proof.
  induction rest as [|b rest IH]; intros a Hnan; cbn [foldl].
  - split; [by left|]. intros r [<-|[]]. apply leb_refl, Hnan. by left.
  - assert (Ha : isnan a = false) by (apply Hnan; by left).
    assert (Hb : isnan b = false) by (apply Hnan; right; by left).
    assert (Hstep : np_minimum a b = a ∧ PrimFloat.leb a b = true
                  ∨ np_minimum a b = b ∧ PrimFloat.leb b a = true).
    { unfold np_minimum. rewrite Ha, orb_false_r.
      destruct (PrimFloat.leb a b) eqn:E; [by left|right].
      split; [done|]. by apply leb_total. }
    destruct (IH (np_minimum a b)) as [Hin Hle].
    { intros r [<-|Hr]; [|apply Hnan; right; by right].
      destruct Hstep as [[-> _]|[-> _]]; done. }
    assert (Hm : isnan (foldl np_minimum (np_minimum a b) rest) = false).
    { apply Hnan. destruct Hin as [<-|Hin]; [|right; by right].
      destruct Hstep as [[-> _]|[-> _]]; [by left|right; by left]. }
    split.
    + destruct Hin as [Hin|Hin]; [|right; by right].
      rewrite <- Hin. destruct Hstep as [[-> _]|[-> _]]; [by left|right; by left].
    + pose proof (Hle _ (or_introl eq_refl)) as Hm0.
      set (m := foldl np_minimum (np_minimum a b) rest) in *.
      intros r [<-|[<-|Hr]]; [| |apply Hle; by right].
      * destruct Hstep as [[E Hab]|[E Hba]]; rewrite E in Hm0; [done|].
        by apply (leb_trans _ b).
      * destruct Hstep as [[E Hab]|[E Hba]]; rewrite E in Hm0; [|done].
        by apply (leb_trans _ a).
Qed.

Lemma foldl_maximum rest : ∀ a,
  (∀ r, In r (a :: rest) → isnan r = false) →
  let m := foldl np_maximum a rest in
  In m (a :: rest) ∧ ∀ r, In r (a :: rest) → PrimFloat.leb r m = true.
Proof.
  induction rest as [|b rest IH]; intros a Hnan; cbn [foldl].
  - split; [by left|]. intros r [<-|[]]. apply leb_refl, Hnan. by left.
  - assert (Ha : isnan a = false) by (apply Hnan; by left).
    assert (Hb : isnan b = false) by (apply Hnan; right; by left).
    assert (Hstep : np_maximum a b = a ∧ PrimFloat.leb b a = true
                  ∨ np_maximum a b = b ∧ PrimFloat.leb a b = true).
    { unfold np_maximum. rewrite Ha, orb_false_r.
      destruct (PrimFloat.leb b a) eqn:E; [by left|right].
      split; [done|]. by apply leb_total. }
    destruct (IH (np_maximum a b)) as [Hin Hle].
    { intros r [<-|Hr]; [|apply Hnan; right; by right].
      destruct Hstep as [[-> _]|[-> _]]; done. }
    assert (Hm : isnan (foldl np_maximum (np_maximum a b) rest) = false).
    { apply Hnan. destruct Hin as [<-|Hin]; [|right; by right].
      destruct Hstep as [[-> _]|[-> _]]; [by left|right; by left]. }
    split.
    + destruct Hin as [Hin|Hin]; [|right; by right].
      rewrite <- Hin. destruct Hstep as [[-> _]|[-> _]]; [by left|right; by left].
    + pose proof (Hle _ (or_introl eq_refl)) as Hm0.
      set (m := foldl np_maximum (np_maximum a b) rest) in *.
      intros r [<-|[<-|Hr]]; [| |apply Hle; by right].
      * destruct Hstep as [[E Hab]|[E Hba]]; rewrite E in Hm0; [done|].
        by apply (leb_trans _ b).
      * destruct Hstep as [[E Hab]|[E Hba]]; rewrite E in Hm0; [|done].
        by apply (leb_trans _ a).
Qed.

End Errorbar_facts.

Section Errorbar.

Import Notebook.
Local Open Scope string_scope.

(** X1.  On an array with at least one element and without NaN,
    [errorbar] returns a pair of elements of the array, the first at most
    and the second at least every element: the range of the data. *)
Theorem errorbar_bounds (x : list float) :
  x ≠ [] →
  (∀ a, In a x → F64.isnan a = false) →
  ∃ lo hi,
    errorbar x = inr (lo, hi) ∧ In lo x ∧ In hi x ∧
    ∀ a, In a x → PrimFloat.leb lo a = true ∧ PrimFloat.leb a hi = true.
Proof.
  intros Hne Hnan. destruct x as [|a rest]; [done|].
  destruct (Errorbar_facts.foldl_minimum rest a Hnan) as [Hlo Hmin].
  destruct (Errorbar_facts.foldl_maximum rest a Hnan) as [Hhi Hmax].
  exists (foldl np_minimum a rest), (foldl np_maximum a rest).
  split; [reflexivity|]. split; [exact Hlo|]. split; [exact Hhi|].
  intros r Hr. split; [by apply Hmin|by apply Hmax].
Qed.

Lemma errorbar_bounds_witness :
  ∃ lo hi,
    errorbar [0.5; 0.9; 0.25]%float = inr (lo, hi) ∧
    In lo [0.5; 0.9; 0.25]%float ∧ In hi [0.5; 0.9; 0.25]%float ∧
    ∀ a, In a [0.5; 0.9; 0.25]%float →
         PrimFloat.leb lo a = true ∧ PrimFloat.leb a hi = true.
Proof.
  apply errorbar_bounds.
  - discriminate.
  - intros a Ha. repeat (destruct Ha as [<-|Ha]; [reflexivity|]). destruct Ha.
Defined.

(** X2.  On an array without elements [errorbar] raises the [ValueError]
    of the minimum; on an array that holds a NaN it returns, and both ends
    of the range are NaN. *)
Theorem errorbar_empty_or_nan :
  errorbar [] = inl (LibraryError
    "ValueError: zero-size array to reduction operation minimum which has no identity")
  ∧ ∀ x a, In a x → F64.isnan a = true →
      ∃ lo hi, errorbar x = inr (lo, hi)
               ∧ F64.isnan lo = true ∧ F64.isnan hi = true.
Proof.
  split; [reflexivity|].
  intros x a Ha Hnan. destruct x as [|b rest]; [done|].
  exists (foldl np_minimum b rest), (foldl np_maximum b rest).
  split; [reflexivity|].
  assert (H : F64.isnan b = true ∨ ∃ r, In r rest ∧ F64.isnan r = true).
  { destruct Ha as [<-|Ha]; eauto. }
  split.
  - apply Errorbar_facts.foldl_nan;
      [apply Errorbar_facts.np_minimum_nan_l|apply Errorbar_facts.np_minimum_nan_r|done].
  - apply Errorbar_facts.foldl_nan;
      [apply Errorbar_facts.np_maximum_nan_l|apply Errorbar_facts.np_maximum_nan_r|done].
Qed.

Lemma errorbar_empty_or_nan_witness :
  ∃ lo hi, errorbar [0.5; nan; 0.25]%float = inr (lo, hi)
           ∧ F64.isnan lo = true ∧ F64.isnan hi = true.
Proof.
  apply (proj2 errorbar_empty_or_nan [0.5; nan; 0.25]%float nan).
  - right. left. reflexivity.
  - reflexivity.
Defined.

Example errorbar_range : errorbar [0.5; 0.9; 0.25]%float = inr (0.25, 0.9)%float.
Proof. reflexivity. Qed.

End Errorbar.

(** ** [plot_lineplots], whatever the library does *)

Module Run_facts.

Import Notebook Logic.
Local Open Scope string_scope.

(** A run of steps that raises stopped at a step: the steps before it were
    calls that returned, and that step raised. *)
Lemma run_steps_inl raises steps : ∀ log e log',
  run_steps raises steps log = (inl e, log') →
  ∃ pre s post,
    steps = (pre ++ s :: post)%list ∧ forallb is_call pre = true ∧
    log' = (log ++ calls_of pre)%list ∧
    (s = Raise e ∨ ∃ c, s = Call c ∧ raises (log ++ calls_of pre)%list c = Some e).
Proof.
  induction steps as [|[c|e0] steps IH]; intros log e log' H; simpl in H.
  - discriminate.
  - destruct (raises log c) as [e1|] eqn:Hc.
    + injection H as <- <-. exists [], (Call c), steps. simpl.
      rewrite app_nil_r. eauto 10.
    + destruct (IH _ _ _ H) as (pre & s & post & -> & Hpre & -> & Hs).
      exists (Call c :: pre), s, post. simpl. rewrite <- !app_assoc. simpl.
      split; [done|]. split; [done|]. split; [done|].
      by rewrite <- app_assoc in Hs.
  - injection H as <- <-. exists [], (Raise e0), steps. simpl.
    rewrite app_nil_r. eauto 10.
Qed.

Lemma calls_of_app pre post :
  forallb is_call pre = true →
  calls_of (pre ++ post) = (calls_of pre ++ calls_of post)%list.
Proof.
  induction pre as [|[c|e] pre IH]; simpl; intros H; [done| |done].
  by rewrite IH.
Qed.

(** Whatever the library does, the calls of a run are the first calls of
    the steps, all of them when the run returns. *)
Lemma run_steps_prefix raises steps log res log' :
  forallb is_call steps = true →
  run_steps raises steps log = (res, log') →
  ∃ new rest, log' = (log ++ new)%list ∧ calls_of steps = (new ++ rest)%list ∧
              (res = inr tt → rest = []) ∧
              (∀ e, res = inl e → ∃ c rest', rest = c :: rest'
                                   ∧ raises (log ++ new)%list c = Some e).
Proof.
  intros Hcalls Hrun. destruct res as [e|[]].
  - destruct (run_steps_inl _ _ _ _ _ Hrun) as (pre & s & post & -> & Hpre & -> & Hs).
    rewrite forallb_app in Hcalls. apply andb_prop in Hcalls as [_ Hcalls].
    simpl in Hcalls. apply andb_prop in Hcalls as [Hsc Hpost].
    destruct Hs as [->|(c & -> & Hc)]; [done|].
    exists (calls_of pre), (c :: calls_of post).
    split; [done|]. split; [by rewrite calls_of_app|]. split; [done|].
    intros e' [= <-]. eauto.
  - apply run_steps_ok in Hrun as [_ ->].
    exists (calls_of steps), []. rewrite app_nil_r. repeat split; try done.
Qed.

(** [plot_lineplots], whatever the library does. *)
Lemma plot_lineplots_calls raises N σ results d folder dataset suffix :
  heap σ !! results = Some d →
  let r := plot_lineplots raises N results folder dataset suffix σ in
  let steps := plot_lineplots_steps N d folder dataset suffix in
  ∃ new rest, calls r.2 = (calls σ ++ new)%list ∧
              calls_of steps = (new ++ rest)%list ∧
              (r.1 = inr tt → rest = []) ∧
              (∀ e, r.1 = inl e → ∃ c rest', rest = c :: rest'
                                   ∧ raises (calls σ ++ new)%list c = Some e).
Proof.
  intros Hres.
  destruct (plot_lineplots_run raises N σ results d folder dataset suffix Hres)
    as [Hrun _].
  cbv zeta in *. revert Hrun.
  generalize (plot_lineplots raises N results folder dataset suffix σ).
  intros [res σ'] Hrun. cbn [fst snd] in *.
  destruct (run_steps_prefix _ _ _ _ _ (plot_lineplots_steps_calls N d folder dataset suffix) Hrun)
    as (new & rest & H1 & H2 & H3 & H4).
  exists new, rest. split; [done|]. split; [done|]. split.
  - intros ->. by apply H3.
  - intros e ->. by apply H4.
Qed.

End Run_facts.

Section Lineplots.

Import Notebook Logic Run_facts MarkMax_facts.
Local Open Scope string_scope.



Lemma figure_events_app l1 l2 :
  figure_events (l1 ++ l2) = (figure_events l1 ++ figure_events l2)%list.
Proof. unfold figure_events. apply List.filter_app. Qed.

Lemma palettes_app l1 l2 : palettes (l1 ++ l2) = (palettes l1 ++ palettes l2)%list.
Proof. unfold palettes. apply omap_app. Qed.

(** A proper initial segment of [init ++ [x]] is an initial segment of
    [init]. *)
Lemma prefix_snoc {A : Type} (new rest init : list A) (c x : A) :
  (new ++ c :: rest)%list = (init ++ [x])%list →
  (rest = [] ∧ c = x ∧ new = init) ∨ ∃ q, init = (new ++ c :: q)%list.
Proof.
  revert init. induction new as [|a new IH]; intros init H; simpl in H.
  - destruct init as [|b init]; simpl in H.
    + injection H as -> ->. by left.
    + injection H as -> _. right. by exists init.
  - destruct init as [|b init]; simpl in H.
    + injection H as _ H. by destruct new.
    + injection H as -> H. destruct (IH _ H) as [(-> & -> & ->)|[q ->]].
      * by left.
      * right. by exists q.
Qed.

Lemma steps_calls_split N d folder dataset suffix :
  ∃ init,
    calls_of (plot_lineplots_steps N d folder dataset suffix)
    = (init ++ [plt_savefig (os_path_join folder (figure_name dataset suffix));
                plt_close])%list
    ∧ figure_events init = [plt_figure]
    ∧ saved_files init = [].
Proof.
  exists (removelast (removelast
            (calls_of (plot_lineplots_steps N d folder dataset suffix)))).
  repeat split.
Qed.

Lemma not_closed init :
  figure_events init = [plt_figure] → ¬ In plt_close init.
Proof.
  intros Hfig Hin.
  assert (H : In plt_close (figure_events init)) by (by apply filter_In).
  rewrite Hfig in H. destruct H as [H|[]]. discriminate.
Qed.

Lemma In_prefix {A : Type} (x : A) (new rest : list A) :
  In x new → In x (new ++ rest).
Proof. intros H. apply in_or_app. by left. Qed.


(** X3.  [plot_lineplots] closes the figure it opens only when nothing
    fails: a call that returns has opened one figure and closed it, and a
    call that raises has not called [plt.close], whatever the library did;
    when it raises after the file was saved, it is [plt.close] that
    failed. *)
Theorem plot_lineplots_closes_on_success_only
    (raises : list plot_call → plot_call → option exn)
    (NEURIPS_FORMAT_FULL : list (string * cell))
    (σ : pystate) (results : nat) (d : frame result_row)
    (experiment_folder dataset suffix : string) :
  heap σ !! results = Some d →
  let r := plot_lineplots raises NEURIPS_FORMAT_FULL results
             experiment_folder dataset suffix σ in
  ∃ new,
    calls r.2 = (calls σ ++ new)%list ∧
    (r.1 = inr tt → figure_events new = [plt_figure; plt_close]) ∧
    (∀ e, r.1 = inl e →
       ¬ In plt_close new ∧
       (saved_files new ≠ [] → raises (calls σ ++ new)%list plt_close = Some e)).
Proof.
  intros Hres.
  destruct (Run_facts.plot_lineplots_calls raises NEURIPS_FORMAT_FULL σ results d
              experiment_folder dataset suffix Hres)
    as (new & rest & Hcalls & Hsplit & Hok & Herr).
  cbv zeta in *. exists new. split; [exact Hcalls|].
  destruct (steps_calls_split NEURIPS_FORMAT_FULL d experiment_folder dataset suffix)
    as (init & HL & Hfig & Hsaved).
  rewrite HL in Hsplit. clear HL. split.
  - intros Hr. rewrite (Hok Hr), app_nil_r in Hsplit. subst new.
    rewrite figure_events_app, Hfig. reflexivity.
  - intros e He. destruct (Herr e He) as (c & rest' & -> & Hc).
    pose proof (not_closed init Hfig) as Hnc.
    change (init ++ [?a; ?b])%list with (init ++ [a] ++ [b])%list in Hsplit.
    rewrite app_assoc in Hsplit. symmetry in Hsplit.
    apply prefix_snoc in Hsplit as [(-> & -> & ->)|[q Hq]].
    + split; [|by intros _].
      intros Hin. apply in_app_or in Hin as [Hin|[Hin|[]]]; [by apply Hnc|discriminate].
    + symmetry in Hq. apply prefix_snoc in Hq as [(-> & -> & ->)|[q' ->]].
      * split; [exact Hnc|]. intros Hne. by rewrite Hsaved in Hne.
      * split.
        -- intros Hin. apply Hnc. by apply In_prefix.
        -- intros Hne. rewrite saved_files_app in Hsaved.
           apply app_eq_nil in Hsaved as [Hsaved _]. by rewrite Hsaved in Hne.
Qed.

Lemma plot_lineplots_closes_on_success_only_witness :
  let r := plot_lineplots disk_full [] 0 "artifacts" "two_moons" "" demo_state in
  ∃ new,
    calls r.2 = (calls demo_state ++ new)%list ∧
    (r.1 = inr tt → figure_events new = [plt_figure; plt_close]) ∧
    (∀ e, r.1 = inl e →
       ¬ In plt_close new ∧
       (saved_files new ≠ [] →
        disk_full (calls demo_state ++ new)%list plt_close = Some e)).
Proof.
  exact (plot_lineplots_closes_on_success_only disk_full [] demo_state 0
           demo_results "artifacts" "two_moons" "" eq_refl).
Defined.


Lemma sorted_unique_incl_length (a b : list Z) :
  (∀ w, In w a → In w b) →
  (length (sorted_unique a) ≤ length (sorted_unique b))%nat.
Proof.
  intros Hincl. apply List.NoDup_incl_length.
  - apply strictly_sorted_NoDup, sorted_unique_sorted.
  - intros w Hw. apply sorted_unique_In. apply Hincl.
    exact (proj1 (sorted_unique_In _ _) Hw).
Qed.

Lemma panel_hues c (P : frame result_row) w :
  In w (map snd (x_y_hue (panel_data c P))) → In w (column config_hidden_dims P).
Proof.
  unfold x_y_hue, column. rewrite map_map. cbn [snd].
  intros Hw. apply in_map_iff in Hw as (r & <- & Hr).
  unfold panel_data in Hr.
  assert (Hrows : ∀ r, In r (panel_rows c P) → In r P).
  { intros r' Hr'. unfold panel_rows in Hr'. by apply filter_In in Hr' as [? _]. }
  destruct (str_contains "BP" c).
  - apply in_app_or in Hr as [Hr|Hr].
    + apply in_map_iff. exists r. split; [done|]. by apply Hrows.
    + unfold shifted in Hr. apply in_map_iff in Hr as (r' & <- & Hr').
      apply in_map_iff. exists r'. split; [done|]. by apply Hrows.
  - apply in_map_iff. exists r. split; [done|]. by apply Hrows.
Qed.

Lemma palette_colors_length name n : length (palette_colors name n) = n.
Proof. unfold palette_colors. by rewrite length_map, length_seq. Qed.

Lemma lineplot_calls_In ax pts marker palette log :
  In (sns_lineplot ax pts marker palette) log →
  In (ax, pts, marker, palette) (lineplot_calls log).
Proof.
  induction log as [|c log IH]; simpl; [done|].
  intros [->|H]; [by left|].
  unfold lineplot_calls in *. cbn [omap list_omap]. destruct c; auto. right. auto.
Qed.

Lemma palettes_In name n log :
  In (sns_color_palette name n) log → In (name, n) (palettes log).
Proof.
  induction log as [|c log IH]; simpl; [done|].
  intros [->|H]; [by left|].
  unfold palettes in *. cbn [omap list_omap]. destruct c; auto. right. auto.
Qed.

Lemma steps_lineplot_calls N d folder dataset suffix :
  let P := plotted dataset d in
  let palette := palette_colors "viridis" (length (plotted_h_dims dataset d)) in
  lineplot_calls (calls_of (plot_lineplots_steps N d folder dataset suffix))
  = [ (0%nat, x_y_hue (panel_data "PC-sgd-0.9" P), Some "o", palette);
      (1%nat, x_y_hue (panel_data "PC-adamw-0.9" P), Some "o", palette);
      (2%nat, x_y_hue (panel_data "BP-sgd-0.9" P), None, palette) ]
  ∧ palettes (calls_of (plot_lineplots_steps N d folder dataset suffix))
    = [ ("viridis", length (plotted_h_dims dataset d)) ].
Proof. split; reflexivity. Qed.


(** X4.  Whatever the library does, [plot_lineplots] asks for one palette,
    [viridis] with one colour per distinct width among the rows that reach
    the figure, and gives that palette to every line plot; the widths of a
    panel are among those widths, so that no panel has more hue levels than
    the palette has colours. *)
Theorem plot_lineplots_palette_covers_hues
    (raises : list plot_call → plot_call → option exn)
    (NEURIPS_FORMAT_FULL : list (string * cell))
    (σ : pystate) (results : nat) (d : frame result_row)
    (experiment_folder dataset suffix : string) :
  heap σ !! results = Some d →
  let r := plot_lineplots raises NEURIPS_FORMAT_FULL results
             experiment_folder dataset suffix σ in
  let n := length (plotted_h_dims dataset d) in
  ∃ new,
    calls r.2 = (calls σ ++ new)%list ∧
    (∀ name k, In (sns_color_palette name k) new → name = "viridis" ∧ k = n) ∧
    (∀ ax pts marker palette, In (sns_lineplot ax pts marker palette) new →
       palette = palette_colors "viridis" n ∧
       length palette = n ∧
       (∀ w, In w (hue_levels pts) → In w (plotted_h_dims dataset d)) ∧
       (length (hue_levels pts) ≤ length palette)%nat).
Proof.
  intros Hres.
  destruct (Run_facts.plot_lineplots_calls raises NEURIPS_FORMAT_FULL σ results d
              experiment_folder dataset suffix Hres)
    as (new & rest & Hcalls & Hsplit & _ & _).
  cbv zeta in *. exists new. split; [exact Hcalls|].
  assert (Hin : ∀ c, In c new →
            In c (calls_of (plot_lineplots_steps NEURIPS_FORMAT_FULL d
                              experiment_folder dataset suffix))).
  { intros c Hc. rewrite Hsplit. by apply In_prefix. }
  destruct (steps_lineplot_calls NEURIPS_FORMAT_FULL d experiment_folder dataset suffix)
    as [Hlines Hpal]. cbv zeta in Hlines.
  split.
  - intros name k Hc. apply Hin, palettes_In in Hc. rewrite Hpal in Hc.
    destruct Hc as [[= <- <-]|[]]. done.
  - intros ax pts marker palette Hc. apply Hin, lineplot_calls_In in Hc.
    rewrite Hlines in Hc.
    destruct Hc as [Hc|[Hc|[Hc|[]]]]; injection Hc as <- <- <- <-;
      (split; [reflexivity|]); (split; [apply palette_colors_length|]);
      rewrite palette_colors_length; unfold hue_levels, plotted_h_dims.
    all: split; [intros w Hw; apply MarkMax_facts.sorted_unique_In;
                 exact (panel_hues _ _ _ (proj1 (MarkMax_facts.sorted_unique_In _ _) Hw))
                |apply sorted_unique_incl_length; apply panel_hues].
Qed.

Lemma plot_lineplots_palette_covers_hues_witness :
  let r := plot_lineplots never [] 0 "artifacts" "two_moons" "" demo_state in
  ∃ new,
    calls r.2 = (calls demo_state ++ new)%list ∧
    (∀ name k, In (sns_color_palette name k) new → name = "viridis" ∧ k = 2%nat) ∧
    (∀ ax pts marker palette, In (sns_lineplot ax pts marker palette) new →
       palette = palette_colors "viridis" 2 ∧
       length palette = 2%nat ∧
       (∀ w, In w (hue_levels pts) → In w [512; 1024]) ∧
       (length (hue_levels pts) ≤ length palette)%nat).
Proof.
  exact (plot_lineplots_palette_covers_hues never [] demo_state 0
           demo_results "artifacts" "two_moons" "" eq_refl).
Defined.


Lemma filter_filter' {A : Type} (p q : A → bool) (l : list A) :
  List.filter p (List.filter q l) = List.filter (λ x, q x && p x) l.
Proof.
  induction l as [|x l IH]; simpl; [done|].
  destruct (q x); simpl; [|done]. destruct (p x); by rewrite IH.
Qed.

Lemma filter_ext' {A : Type} (p q : A → bool) (l : list A) :
  (∀ x, p x = q x) → List.filter p l = List.filter q l.
Proof.
  intros H. induction l as [|x l IH]; simpl; [done|]. by rewrite H, IH.
Qed.

Lemma panel_rows_plotted c dataset d :
  panel_rows c (plotted dataset d)
  = List.filter (λ r, String.eqb (condition r.2) c
                      && String.eqb (experiment_data_dataset r.2) dataset
                      && (str_contains "BP" c
                          || str_contains "PC" c && F64.lt (config_h_lr r.2) 0.3)) d.
Proof.
  unfold panel_rows, plotted, dataset_filter, condition_filter.
  rewrite !filter_filter'. apply filter_ext'. intros r.
  unfold mask_bp, mask_pc.
  destruct (String.eqb_spec (condition r.2) c) as [->|Hne].
  - rewrite andb_true_r. cbn [andb]. apply andb_comm.
  - cbn [andb]. by rewrite !andb_false_r.
Qed.

Lemma pc_panel c dataset d :
  str_contains "BP" c = false → str_contains "PC" c = true →
  panel_data c (plotted dataset d) = pc_rows c dataset d.
Proof.
  intros Hbp Hpc. unfold panel_data, pc_rows.
  rewrite Hbp, panel_rows_plotted, Hbp, Hpc. reflexivity.
Qed.

Lemma bp_panel dataset d :
  panel_data "BP-sgd-0.9" (plotted dataset d)
  = (bp_rows dataset d ++ shifted (bp_rows dataset d))%list.
Proof.
  unfold panel_data, bp_rows.
  change (str_contains "BP" "BP-sgd-0.9") with true. cbv iota.
  rewrite panel_rows_plotted.
  change (str_contains "BP" "BP-sgd-0.9") with true. cbn [orb].
  assert (E : ∀ l, List.filter
    (λ r : Z * result_row,
       String.eqb (condition r.2) "BP-sgd-0.9"
       && String.eqb (experiment_data_dataset r.2) dataset && true) l
    = List.filter
    (λ r : Z * result_row,
       String.eqb (condition r.2) "BP-sgd-0.9"
       && String.eqb (experiment_data_dataset r.2) dataset) l).
  { intros l. apply filter_ext'. intros r. apply andb_true_r. }
  by rewrite E.
Qed.


(** X5.  The rows of the three panels, read off the table: the first two
    panels draw the rows of the dataset whose condition is [PC-sgd-0.9],
    respectively [PC-adamw-0.9], and whose state learning rate is below
    [0.3], in the order of the table; the third draws the [BP-sgd-0.9] rows
    of the dataset, all of them, followed by the same rows [0.1] to the
    right.  A row with any other condition is in no panel. *)
Theorem plot_lineplots_panel_rows
    (NEURIPS_FORMAT_FULL : list (string * cell))
    (σ : pystate) (results : nat) (d : frame result_row)
    (experiment_folder dataset suffix : string) :
  heap σ !! results = Some d →
  lineplots (calls (plot_lineplots never NEURIPS_FORMAT_FULL results
                      experiment_folder dataset suffix σ).2)
  = (lineplots (calls σ) ++
     [ (0%nat, x_y_hue (pc_rows "PC-sgd-0.9" dataset d));
       (1%nat, x_y_hue (pc_rows "PC-adamw-0.9" dataset d));
       (2%nat, x_y_hue (bp_rows dataset d ++ shifted (bp_rows dataset d))) ])%list.
Proof.
  intros Hres. rewrite (plot_lineplots_panels _ _ _ d) by done.
  unfold panels. cbn [map enumerate conditions length seq zip_with fst snd].
  rewrite !pc_panel, bp_panel by reflexivity. reflexivity.
Qed.

Lemma plot_lineplots_panel_rows_witness :
  lineplots (calls (plot_lineplots never [] 0 "artifacts" "two_moons" ""
                      demo_state).2)
  = [ (0%nat, [(0.1%float, 0.9%float, 512)]);
      (1%nat, [(0.01%float, 0.7%float, 1024)]);
      (2%nat, [(1.0%float, 0.8%float, 1024); (1.1%float, 0.8%float, 1024)]) ].
Proof.
  exact (plot_lineplots_panel_rows [] demo_state 0 demo_results
           "artifacts" "two_moons" "" eq_refl).
Defined.

(** X6.  A dataset that no row of the table belongs to is no error: with
    a library that does not raise, [plot_lineplots] returns, asks for a
    palette of no colour, draws three line plots without a point and saves
    the file all the same. *)
Theorem plot_lineplots_unknown_dataset
    (NEURIPS_FORMAT_FULL : list (string * cell))
    (σ : pystate) (results : nat) (d : frame result_row)
    (experiment_folder dataset suffix : string) :
  heap σ !! results = Some d →
  (∀ r, In r d → experiment_data_dataset r.2 ≠ dataset) →
  let r := plot_lineplots never NEURIPS_FORMAT_FULL results
             experiment_folder dataset suffix σ in
  r.1 = inr tt ∧
  palettes (calls r.2) = (palettes (calls σ) ++ [("viridis", 0%nat)])%list ∧
  lineplots (calls r.2)
  = (lineplots (calls σ) ++ [(0%nat, []); (1%nat, []); (2%nat, [])])%list ∧
  saved_files (calls r.2)
  = (saved_files (calls σ)
     ++ [os_path_join experiment_folder (figure_name dataset suffix)])%list.
Proof.
  intros Hres Hnone.
  assert (Hempty : plotted dataset d = []).
  { unfold plotted, dataset_filter.
    assert (H : ∀ l, (∀ r, In r l → experiment_data_dataset r.2 ≠ dataset) →
              List.filter (λ r : Z * result_row,
                String.eqb (experiment_data_dataset r.2) dataset) l = []).
    { induction l as [|r l IH]; intros Hl; simpl; [done|].
      destruct (String.eqb_spec (experiment_data_dataset r.2) dataset) as [E|E].
      - exfalso. apply (Hl r); [by left|done].
      - apply IH. intros r' Hr'. apply Hl. by right. }
    apply H. intros r Hr. apply Hnone.
    unfold condition_filter in Hr. by apply filter_In in Hr as [? _]. }
  destruct (plot_lineplots_never NEURIPS_FORMAT_FULL σ results d experiment_folder
              dataset suffix Hres) as [Hret Hcalls].
  cbv zeta in *. split; [exact Hret|]. rewrite Hcalls.
  rewrite palettes_app, lineplots_app, saved_files_app.
  destruct (steps_lineplot_calls NEURIPS_FORMAT_FULL d experiment_folder dataset suffix)
    as [_ Hpal].
  rewrite Hpal. unfold plotted_h_dims. rewrite lineplots_steps. unfold panels.
  rewrite Hempty. repeat split.
Qed.

Lemma plot_lineplots_unknown_dataset_witness :
  let r := plot_lineplots never [] 0 "artifacts" "two_circles" "" demo_state in
  r.1 = inr tt ∧
  lineplots (calls r.2) = [(0%nat, []); (1%nat, []); (2%nat, [])] ∧
  saved_files (calls r.2) = ["artifacts/lr-scaling-lineplot-two_circles.pdf"].
Proof.
  destruct (plot_lineplots_unknown_dataset [] demo_state 0 demo_results
              "artifacts" "two_circles" "" eq_refl) as (H1 & _ & H2 & H3).
  - intros r Hr. repeat (destruct Hr as [<-|Hr]; [discriminate|]). destruct Hr.
  - split; [exact H1|]. split; [exact H2|exact H3].
Defined.

(** X19.  [plot_lineplots] raises no exception of its own.  When a call
    on a table raises, a call into the plotting libraries raised that
    exception: the calls of the function before it were made and returned,
    and none was made after it. *)
Theorem plot_lineplots_raises_only_library_errors
    (raises : list plot_call → plot_call → option exn)
    (NEURIPS_FORMAT_FULL : list (string * cell))
    (σ : pystate) (results : nat) (d : frame result_row)
    (experiment_folder dataset suffix : string) (e : exn) :
  heap σ !! results = Some d →
  let r := plot_lineplots raises NEURIPS_FORMAT_FULL results
             experiment_folder dataset suffix σ in
  r.1 = inl e →
  ∃ made c rest,
    calls_of (plot_lineplots_steps NEURIPS_FORMAT_FULL d
                experiment_folder dataset suffix)
    = (made ++ c :: rest)%list ∧
    calls r.2 = (calls σ ++ made)%list ∧
    raises (calls σ ++ made)%list c = Some e.
Proof.
  intros Hres r Hr.
  destruct (plot_lineplots_calls raises NEURIPS_FORMAT_FULL σ results d
              experiment_folder dataset suffix Hres)
    as (made & rest & Hcalls & Hsplit & _ & Herr).
  destruct (Herr e Hr) as (c & rest' & -> & Hc).
  exists made, c, rest'. split; [exact Hsplit|]. split; [exact Hcalls|exact Hc].
Qed.

Lemma plot_lineplots_raises_only_library_errors_witness :
  let r := plot_lineplots disk_full [] 0 "artifacts" "two_moons" "" demo_state in
  ∃ made c rest,
    calls_of (plot_lineplots_steps [] demo_results "artifacts" "two_moons" "")
    = (made ++ c :: rest)%list ∧
    calls r.2 = (calls demo_state ++ made)%list ∧
    disk_full (calls demo_state ++ made)%list c
    = Some (LibraryError "OSError: No space left on device").
Proof.
  exact (plot_lineplots_raises_only_library_errors disk_full [] demo_state 0
           demo_results "artifacts" "two_moons" ""
           (LibraryError "OSError: No space left on device") eq_refl eq_refl).
Defined.

End Lineplots.

(** ** [mark_max]: colours, ties and failures *)

Module MarkMax_more.

Import Notebook Logic F64 F64_facts MarkMax_facts Run_facts.
Local Open Scope Z_scope.

Lemma fill_lt_trans a b c :
  F64.lt (fill a) (fill b) = true → F64.lt (fill b) (fill c) = true →
  F64.lt (fill a) (fill c) = true.
Proof. apply lt_trans. Qed.

(** The arg max is the first of the maxima: every row before it is
    strictly below it. *)
Lemma argmax_from_first rest : ∀ best,
  ∃ before after,
    best :: rest = (before ++ argmax_from best rest :: after)%list ∧
    ∀ r, In r before → F64.lt (fill r) (fill (argmax_from best rest)) = true.
Proof.
  induction rest as [|r0 rest IH]; intros best; cbn [argmax_from].
  - exists [], []. split; [done|]. intros r [].
  - destruct (F64.lt (fill best) (fill r0)) eqn:E.
    + destruct (IH r0) as (before & after & Heq & Hlt).
      set (m := argmax_from r0 rest) in *.
      exists (best :: before), after. split; [by rewrite Heq|].
      intros r [<-|Hr]; [|by apply Hlt].
      destruct before as [|b before]; simpl in Heq.
      * injection Heq as Heq _. by rewrite <- Heq.
      * injection Heq as <- _. eapply fill_lt_trans; [exact E|]. apply Hlt. by left.
    + destruct (IH best) as (before & after & Heq & Hlt).
      set (m := argmax_from best rest) in *.
      destruct before as [|b before]; simpl in Heq.
      * injection Heq as Hm Hrest. exists [], (r0 :: rest).
        split; [by rewrite <- Hm|]. intros r [].
      * injection Heq as <- Hrest.
        exists (best :: r0 :: before), after. split; [by rewrite Hrest|].
        intros r [<-|[<-|Hr]].
        -- apply Hlt. by left.
        -- destruct (F64.lt (fill r0) (fill m)) eqn:E'; [done|].
           exfalso.
           assert (Hb : F64.lt (fill best) (fill m) = true) by (apply Hlt; by left).
           rewrite (fill_lt_negtrans _ _ _ E E') in Hb. done.
        -- apply Hlt. by right.
Qed.

Lemma idxmax_first (x : frame point_row) :
  x ≠ [] →
  (∀ r, In r x → F64.isnan (accuracy r.2) = false) →
  ∃ m before after,
    idxmax x = Some m.1 ∧ x = (before ++ m :: after)%list ∧
    (∀ r, In r before → F64.lt (accuracy r.2) (accuracy m.2) = true) ∧
    (∀ r, In r x → F64.lt (accuracy m.2) (accuracy r.2) = false).
Proof.
  intros Hne Hnan. destruct x as [|r0 rest]; [done|].
  destruct (argmax_from_first rest r0) as (before & after & Heq & Hlt).
  exists (argmax_from r0 rest), before, after.
  assert (Hfill : ∀ r, In r (r0 :: rest) → fill r = accuracy r.2).
  { intros r Hr. unfold fill. apply fill_not_nan. by apply Hnan. }
  split; [|split; [exact Heq|split]].
  - unfold idxmax. cbn [forallb]. rewrite (Hnan r0) by (by left). done.
  - intros r Hr.
    rewrite <- (Hfill r), <- (Hfill _ (argmax_from_In r0 rest)); [by apply Hlt|].
    rewrite Heq. apply in_or_app. by left.
  - destruct (argmax_from_max r0 rest) as [H1 H2].
    intros r Hr. rewrite <- (Hfill r Hr), <- (Hfill _ (argmax_from_In r0 rest)).
    destruct Hr as [<-|Hr]; [done|by apply H2].
Qed.

Section Pieces.
Variable data : frame point_row.
Hypothesis labels_unique : List.NoDup (map fst data).
Hypothesis no_nan : ∀ r, In r data → F64.isnan (accuracy r.2) = false.

Local Abbreviation marked := (marked data).

Lemma group_first_piece k :
  In k (column h_dim data) →
  ∃ m, idxmax (group data k) = Some m.1 ∧ loc m.1 (group data k) = [m]
       ∧ marked k m.2.
Proof.
  intros Hk. apply in_map_iff in Hk as (r0 & Hk & Hr0).
  destruct (idxmax_first (group data k)) as (m & before & after & Hidx & Heq & Hlt & Hmax).
  - intros E. assert (Hin : In r0 (group data k)) by (by apply group_In).
    by rewrite E in Hin.
  - intros r Hr. apply no_nan. by apply group_In in Hr as [? _].
  - assert (Hm : In m (group data k)).
    { rewrite Heq. apply in_or_app. right. by left. }
    exists m. split; [done|]. split.
    + apply loc_unique; [|done]. by apply NoDup_map_filter.
    + split.
      * apply group_In in Hm as [Hm Hmk]. split; [by apply in_map|]. split; [done|].
        intros r Hr Hrk. apply Hmax. by apply group_In.
      * exists m.1, before, after. split; [by destruct m|]. split; [exact Hlt|].
        intros r Hr. apply Hmax. rewrite Heq. apply in_or_app. right. by right.
Qed.

Lemma apply_loc_idxmax_found keys :
  (∀ k, In k keys → In k (column h_dim data)) →
  ∃ rows, apply_loc_idxmax (map (λ k, (k, group data k)) keys) = inr rows
          ∧ Forall2 marked keys rows.
Proof.
  induction keys as [|k keys IH]; intros Hkeys; simpl.
  - exists []. by split.
  - destruct (group_first_piece k) as (m & -> & Hloc & Hmax); [apply Hkeys; by left|].
    destruct IH as (rows & -> & Hrows); [intros; apply Hkeys; by right|].
    rewrite Hloc. exists (m.2 :: rows). split; [done|]. by constructor.
Qed.

End Pieces.

Lemma Forall2_found_h_dim data keys rows :
  Forall2 (marked data) keys rows → map h_dim rows = keys.
Proof.
  induction 1 as [|k row keys rows [(_ & Hk & _) _] _ IH]; simpl; [done|].
  by rewrite Hk, IH.
Qed.

Lemma scatter_steps_calls_of name n (rows : list point_row) a :
  (a + length rows ≤ n)%nat →
  forallb is_call
    (map (scatter_step (palette_colors name n))
       (zip_with (λ (i : nat) r, (Z.of_nat i, r)) (seq a (length rows)) rows)) = true
  ∧ calls_of
      (map (scatter_step (palette_colors name n))
         (zip_with (λ (i : nat) r, (Z.of_nat i, r)) (seq a (length rows)) rows))
    = zip_with (λ (i : nat) row,
                  plt_scatter (h_lr row) (accuracy row) 500 0.2 (PaletteColor name n i))
               (seq a (length rows)) rows.
Proof.
  revert a. induction rows as [|r rows IH]; intros a Ha; [done|].
  cbn [length seq zip_with map] in *.
  rewrite scatter_step_call by lia.
  destruct (IH (S a)) as [H1 H2]; [lia|].
  cbn [forallb is_call calls_of andb]. split; [exact H1|]. by rewrite H2.
Qed.

(** With unique labels and without NaN: the calls of [mark_max]. *)
Lemma mark_max_calls (data : frame point_row) (color : string) (σ : pystate) :
  List.NoDup (map fst data) →
  (∀ r, In r data → F64.isnan (accuracy r.2) = false) →
  ∃ rows,
    mark_max never data color σ
    = (inr tt, mkPy (heap σ)
                 (calls σ ++ sns_color_palette "viridis" (length rows)
                             :: scatter_calls "viridis" (length rows) rows)) ∧
    Forall2 (marked data) (sorted_unique (column h_dim data)) rows.
Proof.
  intros Hlabels Hnan.
  set (keys := sorted_unique (column h_dim data)).
  pose proof (sorted_unique_sorted (column h_dim data)) as Hsorted. fold keys in Hsorted.
  destruct (apply_loc_idxmax_found data Hlabels Hnan keys) as (rows & Happly & Hrows).
  { intros k Hk. exact (proj1 (sorted_unique_In _ _) Hk). }
  pose proof (Forall2_found_h_dim _ _ _ Hrows) as Hdims.
  assert (Hlen : length rows = length keys) by (by rewrite <- Hdims, length_map).
  assert (Hsteps : mark_max_steps data
            = Call (sns_color_palette "viridis" (length rows))
              :: map (scatter_step (palette_colors "viridis" (length rows)))
                   (reset_index rows)).
  { unfold mark_max_steps, groupby_h_dim. fold keys. rewrite Happly. cbv zeta.
    assert (Hcol : column h_dim (reset_index rows) = keys).
    { unfold column. rewrite <- Hdims, <- (map_map snd h_dim).
      unfold reset_index. by rewrite reset_index_rows. }
    rewrite sort_values_sorted by (by rewrite Hcol).
    rewrite Hcol, sorted_unique_id, Hlen by done. done. }
  destruct (scatter_steps_calls_of "viridis" (length rows) rows 0) as [Hcalls Hlog];
    [lia|]. fold (reset_index rows) in Hcalls, Hlog.
  destruct (mark_max_run never data color σ) as [Hrun Hheap].
  rewrite Hsteps, run_steps_never in Hrun by (cbn [forallb is_call andb]; exact Hcalls).
  exists rows. split; [|exact Hrows].
  revert Hrun Hheap. generalize (mark_max never data color σ).
  intros [res [h log]] Hrun Hheap. cbn [fst snd heap calls] in *.
  injection Hrun as Hout Hclog. subst h.
  destruct res as [e|[]]; [discriminate Hout|].
  rewrite <- Hclog. cbn [calls_of]. by rewrite Hlog.
Qed.

Lemma scatters_zip name n (rows : list point_row) a :
  scatters (zip_with (λ (i : nat) row,
                        plt_scatter (h_lr row) (accuracy row) 500 0.2
                                    (PaletteColor name n i))
                     (seq a (length rows)) rows)
  = map (λ row, (h_lr row, accuracy row)) rows.
Proof.
  revert a. induction rows as [|r rows IH]; intros a; [done|].
  cbn [length seq zip_with map]. by rewrite scatters_scatter, IH.
Qed.

Lemma scatter_calls_lookup name n (rows : list point_row) (i : nat) row :
  rows !! i = Some row →
  scatter_calls name n rows !! i
  = Some (plt_scatter (h_lr row) (accuracy row) 500 0.2 (PaletteColor name n i)).
Proof.
  intros Hi. unfold scatter_calls. rewrite lookup_zip_with.
  rewrite lookup_seq_lt by (by eapply lookup_lt_Some). cbn. by rewrite Hi.
Qed.

Lemma Forall2_found data keys rows :
  Forall2 (marked data) keys rows →
  Forall2 (is_group_max data) keys rows ∧ Forall2 (is_first_group_max data) keys rows.
Proof.
  induction 1 as [|k row keys rows [H1 H2] _ [IH1 IH2]]; split; constructor; done.
Qed.

(** A group without any accuracy stops [mark_max]. *)
Lemma idxmax_all_nan (x : frame point_row) :
  (∀ r, In r x → F64.isnan (accuracy r.2) = true) → idxmax x = None.
Proof.
  intros H. unfold idxmax.
  assert (forallb (λ r : Z * point_row, F64.isnan (accuracy r.2)) x = true) as ->; [|done].
  apply forallb_forall. exact H.
Qed.

Lemma apply_loc_idxmax_nan groups :
  (∃ g, In g groups ∧ idxmax g.2 = None) →
  apply_loc_idxmax groups = inl (KeyError "nan").
Proof.
  induction groups as [|[k x] groups IH]; intros (g & Hg & Hnone); [done|].
  cbn [apply_loc_idxmax]. destruct (idxmax x) as [label|] eqn:E; [|done].
  rewrite IH; [done|]. destruct Hg as [<-|Hg]; [|eauto].
  cbn in Hnone. congruence.
Qed.

(** The steps of [mark_max] are a palette and scatters. *)
Lemma mark_max_steps_kinds data c :
  In (Call c) (mark_max_steps data) → is_palette_or_scatter c = true.
Proof.
  unfold mark_max_steps. destruct (apply_loc_idxmax (groupby_h_dim data)) as [e|rows].
  - intros [H|[]]. discriminate.
  - cbv zeta. intros [[= <-]|H]; [done|].
    apply in_map_iff in H as (r & Hr & _). unfold scatter_step in Hr.
    destruct (_ !! _); [|discriminate]. by injection Hr as <-.
Qed.

Lemma calls_of_In c steps : In c (calls_of steps) → In (Call c) steps.
Proof.
  induction steps as [|[c'|e] steps IH]; simpl; [done| |done].
  intros [->|H]; auto.
Qed.

Lemma kinds_no_file new :
  (∀ c, In c new → is_palette_or_scatter c = true) →
  saved_files new = [] ∧ lineplots new = [] ∧ figure_events new = [].
Proof.
  induction new as [|c new IH]; intros H; [done|].
  destruct IH as (H1 & H2 & H3); [intros; apply H; by right|].
  pose proof (H c (or_introl eq_refl)) as Hc.
  unfold saved_files, lineplots, figure_events in *. cbn [omap list_omap List.filter].
  destruct c; try discriminate Hc; rewrite ?H1, ?H2, ?H3; done.
Qed.

End MarkMax_more.

Section MarkMax_more_properties.

Import Notebook.
Local Open Scope string_scope.


(** X7.  With unique index labels and without NaN, [mark_max] returns
    and leaves every table alone; it asks for a [viridis] palette with one
    colour per distinct [h_dim] and then scatters one point per width, in
    increasing order of the width, the [i]-th of them in the [i]-th colour
    of the palette, with size [500] and opacity [0.2].  Its [color]
    argument plays no part. *)
Theorem mark_max_colours
    (data : frame point_row) (color : string) (σ : pystate) :
  List.NoDup (map fst data) →
  (∀ r, In r data → F64.isnan (accuracy r.2) = false) →
  let keys := sorted_unique (column h_dim data) in
  let n := length keys in
  ∃ rows,
    mark_max never data color σ
    = (inr tt, mkPy (heap σ)
                 (calls σ ++ sns_color_palette "viridis" n
                             :: scatter_calls "viridis" n rows)) ∧
    map h_dim rows = keys ∧
    ∀ (i : nat) row, rows !! i = Some row →
      keys !! i = Some (h_dim row) ∧
      scatter_calls "viridis" n rows !! i
      = Some (plt_scatter (h_lr row) (accuracy row) 500 0.2
                          (PaletteColor "viridis" n i)).
Proof.
  intros Hlabels Hnan. cbv zeta.
  destruct (MarkMax_more.mark_max_calls data color σ Hlabels Hnan) as (rows & Hrun & Hrows).
  pose proof (MarkMax_more.Forall2_found_h_dim _ _ _ Hrows) as Hdims.
  assert (Hlen : length rows = length (sorted_unique (column h_dim data)))
    by (by rewrite <- Hdims, length_map).
  exists rows. rewrite <- Hlen. split; [exact Hrun|]. split; [exact Hdims|].
  intros i row Hi. split.
  - rewrite <- Hdims, list_lookup_fmap, Hi. done.
  - by apply MarkMax_more.scatter_calls_lookup.
Qed.

Lemma mark_max_colours_witness :
  ∃ rows,
    mark_max never demo_points "C0" demo_state
    = (inr tt, mkPy (heap demo_state)
                 (calls demo_state ++ sns_color_palette "viridis" 2
                                      :: scatter_calls "viridis" 2 rows)) ∧
    map h_dim rows = [512; 1024].
Proof.
  destruct (mark_max_colours demo_points "C0" demo_state) as (rows & Hrun & Hdims & _).
  - repeat constructor; simpl; intuition discriminate.
  - intros r Hr. repeat (destruct Hr as [<-|Hr]; [reflexivity|]). destruct Hr.
  - exists rows. split; [exact Hrun|exact Hdims].
Defined.

(** X8.  When several rows of a width have the best accuracy, [mark_max]
    marks the first of them in the order of the table: every row of the
    group before the marked one is strictly less accurate, and no row after
    it is more accurate. *)
Theorem mark_max_first_of_ties
    (data : frame point_row) (color : string) (σ : pystate) :
  List.NoDup (map fst data) →
  (∀ r, In r data → F64.isnan (accuracy r.2) = false) →
  ∃ rows,
    scatters (calls (mark_max never data color σ).2)
    = (scatters (calls σ) ++ map (λ row, (h_lr row, accuracy row)) rows)%list ∧
    Forall2 (is_first_group_max data) (sorted_unique (column h_dim data)) rows.
Proof.
  intros Hlabels Hnan.
  destruct (MarkMax_more.mark_max_calls data color σ Hlabels Hnan) as (rows & Hrun & Hrows).
  exists rows. split; [|exact (proj2 (MarkMax_more.Forall2_found _ _ _ Hrows))].
  rewrite Hrun. cbn [snd calls].
  rewrite MarkMax_facts.scatters_app, MarkMax_facts.scatters_palette.
  unfold scatter_calls. by rewrite MarkMax_more.scatters_zip.
Qed.

Lemma mark_max_first_of_ties_witness :
  ∃ rows,
    scatters (calls (mark_max never demo_points "C0" demo_state).2)
    = map (λ row, (h_lr row, accuracy row)) rows ∧
    Forall2 (is_first_group_max demo_points) [512; 1024] rows.
Proof.
  apply (mark_max_first_of_ties demo_points "C0" demo_state).
  - repeat constructor; simpl; intuition discriminate.
  - intros r Hr. repeat (destruct Hr as [<-|Hr]; [reflexivity|]). destruct Hr.
Defined.

(** X9.  When all the accuracies of some width are NaN, [mark_max] raises
    [KeyError] before it asks anything of the plotting libraries, whatever
    the other widths hold: nothing is drawn. *)
Theorem mark_max_nan_group
    (raises : list plot_call → plot_call → option exn)
    (data : frame point_row) (color : string) (σ : pystate) (k : Z) :
  In k (column h_dim data) →
  (∀ r, In r data → h_dim r.2 = k → F64.isnan (accuracy r.2) = true) →
  mark_max raises data color σ = (inl (KeyError "nan"), σ).
Proof.
  intros Hk Hnan. unfold mark_max.
  rewrite MarkMax_more.apply_loc_idxmax_nan; [done|].
  exists (k, group data k). split.
  - unfold groupby_h_dim. apply in_map_iff. exists k. split; [done|].
    by apply MarkMax_facts.sorted_unique_In.
  - apply MarkMax_more.idxmax_all_nan. intros r Hr.
    unfold group in Hr. apply filter_In in Hr as [Hr Hrk].
    apply Hnan; [done|]. by apply Z.eqb_eq.
Qed.

Lemma mark_max_nan_group_witness :
  mark_max never nan_group_points "C0" demo_state
  = (inl (KeyError "nan"), demo_state).
Proof.
  apply (mark_max_nan_group never nan_group_points "C0" demo_state 1024).
  - right. left. reflexivity.
  - intros r Hr Hk. destruct Hr as [<-|[<-|[<-|[]]]]; [discriminate Hk|reflexivity..].
Defined.

(** X10.  Whatever the table and whatever the library does, [mark_max]
    changes no table, and the only calls it makes ask for a palette or
    scatter a point: it opens and closes no figure, draws no line plot and
    saves no file. *)
Theorem mark_max_only_scatters
    (raises : list plot_call → plot_call → option exn)
    (data : frame point_row) (color : string) (σ : pystate) :
  let r := mark_max raises data color σ in
  heap r.2 = heap σ ∧
  ∃ new,
    calls r.2 = (calls σ ++ new)%list ∧
    (∀ c, In c new → is_palette_or_scatter c = true) ∧
    saved_files new = [] ∧ lineplots new = [] ∧ figure_events new = [].
Proof.
  cbv zeta. destruct (Logic.mark_max_run raises data color σ) as [Hrun Hheap].
  split; [exact Hheap|].
  revert Hrun. generalize (mark_max raises data color σ).
  intros [res σ'] Hrun. cbn [fst snd] in *.
  assert (H : ∃ new, calls σ' = (calls σ ++ new)%list
                ∧ ∀ c, In c new → In (Call c) (mark_max_steps data)).
  { destruct res as [e|[]]; cbn [outcome] in Hrun.
    - destruct (Run_facts.run_steps_inl _ _ _ _ _ Hrun)
        as (pre & s & post & Hsteps & _ & Hlog & _).
      exists (calls_of pre). split; [done|]. intros c Hc. rewrite Hsteps.
      apply in_or_app. left. by apply MarkMax_more.calls_of_In.
    - apply Logic.run_steps_ok in Hrun as [_ Hlog].
      exists (calls_of (mark_max_steps data)). split; [done|].
      intros c Hc. by apply MarkMax_more.calls_of_In. }
  destruct H as (new & Hlog & Hin). exists new. split; [exact Hlog|].
  assert (Hkinds : ∀ c, In c new → is_palette_or_scatter c = true).
  { intros c Hc. by apply (MarkMax_more.mark_max_steps_kinds data), Hin. }
  split; [exact Hkinds|]. by apply MarkMax_more.kinds_no_file.
Qed.

End MarkMax_more_properties.

(** ** The code cells of the notebook *)

Module Cells_facts.

Import Notebook Logic Run_facts.
Local Open Scope string_scope.

Lemma plot_lineplots_never_state N σ results d folder dataset suffix :
  heap σ !! results = Some d →
  ∃ σ', plot_lineplots never N results folder dataset suffix σ = (inr tt, σ')
        ∧ calls σ' = (calls σ ++ calls_of (plot_lineplots_steps N d folder dataset suffix))%list
        ∧ heap σ ⊆ heap σ'.
Proof.
  intros Hres.
  destruct (plot_lineplots_never N σ results d folder dataset suffix Hres) as [Hret Hcalls].
  destruct (plot_lineplots_run never N σ results d folder dataset suffix Hres) as [_ Hsub].
  cbv zeta in *. revert Hret Hcalls Hsub.
  generalize (plot_lineplots never N results folder dataset suffix σ).
  intros [res σ'] Hret Hcalls Hsub. cbn [fst snd] in *. subst res.
  by exists σ'.
Qed.

Lemma bind_inr {A B : Type} (m : M A) (f : A → M B) σ a σ' :
  m σ = (inr a, σ') → bind m f σ = f a σ'.
Proof. unfold bind. by intros ->. Qed.

Lemma bind_inl {A B : Type} (m : M A) (f : A → M B) σ e σ' :
  m σ = (inl e, σ') → bind m f σ = (inl e, σ').
Proof. unfold bind. by intros ->. Qed.

Lemma alloc_fresh d σ :
  ∃ l, alloc d σ = (inr l, mkPy (<[l := d]> (heap σ)) (calls σ))
       ∧ heap σ !! l = None.
Proof.
  exists (fresh (dom (heap σ))). split; [done|].
  apply not_elem_of_dom. apply is_fresh.
Qed.

End Cells_facts.

Section Run_all.

Import Notebook Logic Run_facts Cells_facts.
Local Open Scope string_scope.

Variable N : list (string * cell).
Variable artifact_dir : string.
Variable load_data : nat → string → list string → exn + frame result_row.

Lemma figure_paths_distinct : List.NoDup (map (figure_path artifact_dir) figures).
Proof.
  assert (Hinj : ∀ f g, figure_path artifact_dir f = figure_path artifact_dir g →
            figure_name f.1 f.2 = figure_name g.1 g.2).
  { intros f g. unfold figure_path. rewrite !os_path_join_figure. intros H.
    apply append_inv_head in H. by apply append_inv_head in H. }
  cbn [map figures].
  repeat constructor; cbn [In]; intros H;
    repeat (destruct H as [H|H]; [apply Hinj in H; vm_compute in H; discriminate H|]);
    destruct H.
Qed.

Lemma run_all_first σ :
  ∃ σ0, call never (rcParams_update [("figure.dpi", CInt 150)]) σ = (inr tt, σ0)
        ∧ heap σ0 = heap σ
        ∧ calls σ0 = (calls σ ++ [rcParams_update [("figure.dpi", CInt 150)]])%list.
Proof. eexists. split; [reflexivity|]. done. Qed.

Lemma nb_load_data_ok n name ids d σ :
  load_data n name ids = inr d →
  ∃ l, nb_load_data load_data n name ids σ
       = (inr l, mkPy (<[l := d]> (heap σ)) (calls σ))
       ∧ heap σ !! l = None.
Proof. intros H. unfold nb_load_data. rewrite H. apply alloc_fresh. Qed.

Lemma nb_load_data_fails n name ids e σ :
  load_data n name ids = inl e →
  nb_load_data load_data n name ids σ = (inl e, σ).
Proof. intros H. unfold nb_load_data. by rewrite H. Qed.

(** The first two figures, made from the table of the first load. *)
Lemma run_all_main σ d1 :
  load_data 0 "training_stability" [] = inr d1 →
  ∃ l1 σ3,
    (call never (rcParams_update [("figure.dpi", CInt 150)]) ;;
     let* df := nb_load_data load_data 0 "training_stability" [] in
     plot_lineplots never N df artifact_dir "fashion_mnist" "" ;;
     plot_lineplots never N df artifact_dir "two_moons" "" ;;
     ret df) σ = (inr l1, σ3) ∧
    calls σ3 = (calls σ ++ rcParams_update [("figure.dpi", CInt 150)]
                 :: calls_of (plot_lineplots_steps N d1 artifact_dir "fashion_mnist" "")
                 ++ calls_of (plot_lineplots_steps N d1 artifact_dir "two_moons" ""))%list ∧
    heap σ ⊆ heap σ3 ∧ heap σ3 !! l1 = Some d1.
Proof.
  intros Hload.
  destruct (run_all_first σ) as (σ0 & Hcall & Hheap0 & Hcalls0).
  destruct (nb_load_data_ok _ _ _ _ σ0 Hload) as (l1 & Halloc & Hfresh).
  set (σ1 := mkPy (<[l1 := d1]> (heap σ0)) (calls σ0)) in *.
  assert (Hl1 : heap σ1 !! l1 = Some d1) by apply lookup_insert_eq.
  destruct (plot_lineplots_never_state N σ1 l1 d1 artifact_dir "fashion_mnist" "" Hl1)
    as (σ2 & Hplot1 & Hcalls2 & Hsub2).
  assert (Hl2 : heap σ2 !! l1 = Some d1) by (by eapply lookup_weaken).
  destruct (plot_lineplots_never_state N σ2 l1 d1 artifact_dir "two_moons" "" Hl2)
    as (σ3 & Hplot2 & Hcalls3 & Hsub3).
  exists l1, σ3. split; [|split; [|split]].
  - rewrite (bind_inr _ _ _ _ _ Hcall), (bind_inr _ _ _ _ _ Halloc).
    rewrite (bind_inr _ _ _ _ _ Hplot1), (bind_inr _ _ _ _ _ Hplot2). done.
  - rewrite Hcalls3, Hcalls2. cbn [σ1 calls]. rewrite Hcalls0.
    rewrite <- !app_assoc. done.
  - rewrite <- Hheap0. etrans; [|exact Hsub3]. etrans; [|exact Hsub2].
    by apply insert_subseteq.
  - by eapply lookup_weaken.
Qed.

End Run_all.

Section Notebook_cells.

Import Notebook.
Local Open Scope string_scope.


(** X11.  Run from top to bottom with tables that load and a library that
    does not raise, the notebook saves three figures in the artifact
    directory: the two datasets of the main experiment and the ablation.
    Their paths are pairwise distinct, so that no figure overwrites
    another.  The second figure is drawn from the table of the first load
    exactly as loaded, and nothing the caller had is changed. *)
Theorem run_all_saves_three_figures
    (NEURIPS_FORMAT_FULL : list (string * cell)) (artifact_dir : string)
    (load_data : nat → string → list string → exn + frame result_row)
    (σ : pystate) (d1 d2 : frame result_row) :
  load_data 0%nat "training_stability" [] = inr d1 →
  load_data 1%nat "training_stability" [] = inr d2 →
  let r := run_all never NEURIPS_FORMAT_FULL artifact_dir load_data σ in
  r.1 = inr tt ∧
  saved_files (calls r.2)
  = (saved_files (calls σ) ++ map (figure_path artifact_dir) figures)%list ∧
  List.NoDup (map (figure_path artifact_dir) figures) ∧
  lineplots (calls r.2)
  = (lineplots (calls σ) ++ panels "fashion_mnist" d1 ++ panels "two_moons" d1
       ++ panels "fashion_mnist" d2)%list ∧
  ∀ l d, heap σ !! l = Some d → heap r.2 !! l = Some d.
Proof.
  intros Hload1 Hload2.
  destruct (run_all_main NEURIPS_FORMAT_FULL artifact_dir load_data σ d1 Hload1)
    as (l1 & σ3 & Hmain & Hcalls3 & Hsub3 & Hl1).
  destruct (nb_load_data_ok load_data _ _ _ _ σ3 Hload2)
    as (l2 & Halloc & Hfresh).
  set (σ4 := mkPy (<[l2 := d2]> (heap σ3)) (calls σ3)) in *.
  assert (Hl2 : heap σ4 !! l2 = Some d2) by apply lookup_insert_eq.
  destruct (Cells_facts.plot_lineplots_never_state NEURIPS_FORMAT_FULL σ4 l2 d2
              artifact_dir "fashion_mnist" "constant-layer-size" Hl2)
    as (σ5 & Hplot3 & Hcalls5 & Hsub5).
  assert (Hrun : run_all never NEURIPS_FORMAT_FULL artifact_dir load_data σ = (inr tt, σ5)).
  { unfold run_all. revert Hmain. unfold bind.
    destruct (call never _ σ) as [[e|[]] σ0]; [done|].
    destruct (nb_load_data load_data 0 _ _ σ0) as [[e|l] σ1]; [done|].
    destruct (plot_lineplots never _ l _ "fashion_mnist" "" σ1) as [[e|[]] σ2]; [done|].
    destruct (plot_lineplots never _ l _ "two_moons" "" σ2) as [[e|[]] σ3']; [done|].
    unfold ret. intros [= -> ->]. rewrite Halloc. exact Hplot3. }
  cbv zeta. rewrite Hrun. cbn [fst snd].
  split; [done|]. rewrite Hcalls5. cbn [σ4 calls]. rewrite Hcalls3.
  split; [|split; [apply figure_paths_distinct|split]].
  - rewrite !saved_files_app. cbn [saved_files omap list_omap app].
    rewrite !saved_files_app, !saved_files_steps.
    rewrite <- !app_assoc. reflexivity.
  - rewrite !lineplots_app. cbn [lineplots omap list_omap app].
    rewrite !lineplots_app. fold (lineplots (calls σ)). rewrite !lineplots_steps.
    rewrite <- !app_assoc. reflexivity.
  - intros l d Hl. eapply lookup_weaken; [|exact Hsub5]. cbn [σ4 heap].
    rewrite lookup_insert_ne.
    + by eapply lookup_weaken.
    + intros ->. rewrite (lookup_weaken _ _ _ _ Hl Hsub3) in Hfresh. done.
Qed.

Lemma run_all_saves_three_figures_witness :
  let r := run_all never [] "artifacts" (λ _ _ _, inr demo_results) (mkPy ∅ []) in
  r.1 = inr tt ∧
  saved_files (calls r.2)
  = [ "artifacts/lr-scaling-lineplot-fashion_mnist.pdf";
      "artifacts/lr-scaling-lineplot-two_moons.pdf";
      "artifacts/lr-scaling-lineplot-fashion_mnist-constant-layer-size.pdf" ].
Proof.
  destruct (run_all_saves_three_figures [] "artifacts" (λ _ _ _, inr demo_results)
              (mkPy ∅ []) demo_results demo_results eq_refl eq_refl)
    as (Hret & Hsaved & _).
  split; [exact Hret|exact Hsaved].
Defined.

(** X12.  A load that fails ends the notebook with its exception.  When
    the first load fails no figure is saved; when the second load fails,
    the two figures of the main experiment have been saved and stay. *)
Theorem run_all_stops_at_failed_load
    (NEURIPS_FORMAT_FULL : list (string * cell)) (artifact_dir : string)
    (load_data : nat → string → list string → exn + frame result_row)
    (σ : pystate) (e : exn) :
  let r := run_all never NEURIPS_FORMAT_FULL artifact_dir load_data σ in
  (load_data 0%nat "training_stability" [] = inl e →
   r.1 = inl e ∧ saved_files (calls r.2) = saved_files (calls σ)) ∧
  (∀ d1, load_data 0%nat "training_stability" [] = inr d1 →
         load_data 1%nat "training_stability" [] = inl e →
     r.1 = inl e ∧
     saved_files (calls r.2)
     = (saved_files (calls σ)
        ++ [ figure_path artifact_dir ("fashion_mnist", "");
             figure_path artifact_dir ("two_moons", "") ])%list).
Proof.
  cbv zeta. split.
  - intros Hload. unfold run_all.
    destruct (run_all_first σ) as (σ0 & Hcall & Hheap0 & Hcalls0).
    rewrite (Cells_facts.bind_inr _ _ _ _ _ Hcall).
    rewrite (Cells_facts.bind_inl _ _ _ _ _ (nb_load_data_fails load_data _ _ _ _ σ0 Hload)).
    cbn [fst snd]. split; [done|]. rewrite Hcalls0, saved_files_app. cbn.
    by rewrite app_nil_r.
  - intros d1 Hload1 Hload2.
    destruct (run_all_main NEURIPS_FORMAT_FULL artifact_dir load_data σ d1 Hload1)
      as (l1 & σ3 & Hmain & Hcalls3 & Hsub3 & Hl1).
    assert (Hrun : run_all never NEURIPS_FORMAT_FULL artifact_dir load_data σ = (inl e, σ3)).
    { unfold run_all. revert Hmain. unfold bind.
      destruct (call never _ σ) as [[e'|[]] σ0]; [done|].
      destruct (nb_load_data load_data 0 _ _ σ0) as [[e'|l] σ1]; [done|].
      destruct (plot_lineplots never _ l _ "fashion_mnist" "" σ1) as [[e'|[]] σ2]; [done|].
      destruct (plot_lineplots never _ l _ "two_moons" "" σ2) as [[e'|[]] σ3']; [done|].
      unfold ret. intros [= -> ->].
      by rewrite (nb_load_data_fails load_data _ _ _ _ σ3 Hload2). }
    rewrite Hrun. cbn [fst snd]. split; [done|]. rewrite Hcalls3.
    rewrite !saved_files_app. cbn [saved_files omap list_omap app].
    rewrite !saved_files_app, !saved_files_steps. reflexivity.
Qed.

Lemma run_all_stops_at_failed_load_witness :
  let r := run_all never [] "artifacts" second_load_fails (mkPy ∅ []) in
  r.1 = inl (LibraryError "FileNotFoundError") ∧
  saved_files (calls r.2)
  = [ "artifacts/lr-scaling-lineplot-fashion_mnist.pdf";
      "artifacts/lr-scaling-lineplot-two_moons.pdf" ].
Proof.
  exact (proj2 (run_all_stops_at_failed_load [] "artifacts" second_load_fails
                  (mkPy ∅ []) (LibraryError "FileNotFoundError"))
               demo_results eq_refl eq_refl).
Defined.

End Notebook_cells.

(** ** The names of the figures *)

Section Names.

Import Notebook.
Local Open Scope string_scope.

(** X13.  For dataset names without a hyphen, as those of the notebook
    are, the file name of a figure determines both the dataset and the
    suffix: two calls of [plot_lineplots] write the same file only when they
    are given the same dataset and the same suffix. *)
Theorem figure_name_injective (dataset dataset' suffix suffix' : string) :
  no_hyphen dataset = true → no_hyphen dataset' = true →
  figure_name dataset suffix = figure_name dataset' suffix' →
  dataset = dataset' ∧ suffix = suffix'.
Proof.
  intros Hd Hd' H.
  assert (E : dataset = dataset').
  { rewrite !figure_name_eq in H.
    apply (append_inv_head "lr-scaling-lineplot-") in H.
    exact (dataset_end_inj dataset dataset' suffix suffix' Hd Hd' H). }
  subst dataset'. split; [done|]. exact (figure_name_suffix_inj _ _ _ H).
Qed.

Lemma figure_name_injective_witness :
  "fashion_mnist" = "fashion_mnist" ∧ "constant-layer-size" = "constant-layer-size".
Proof.
  exact (figure_name_injective "fashion_mnist" "fashion_mnist"
           "constant-layer-size" "constant-layer-size" eq_refl eq_refl eq_refl).
Defined.

(** With a hyphen in the dataset name, two figures can share a file. *)
Example figure_name_hyphen_collision :
  figure_name "two-moons" "" = figure_name "two" "moons".
Proof. reflexivity. Qed.

End Names.

(** ** The job submission wrapper: its argument *)

Module Shell_more.

Import Shell Shell_facts.
Local Open Scope string_scope.

Lemma plain_split s : plain s = no_blank s && no_glob s.
Proof.
  induction s as [|c s IH]; simpl; [done|]. rewrite IH.
  destruct (is_ifs c), (is_glob c), (no_blank s), (no_glob s); done.
Qed.

(** Only the variables of the environment matter to a word without
    positional parameters. *)
Lemma add_part_vars ρ ρ' a p :
  vars ρ = vars ρ' →
  match p with Positional _ => false | _ => true end = true →
  add_part ρ a p = add_part ρ' a p.
Proof.
  intros Hv Hp. destruct p; try done. unfold add_part, param_value. by rewrite Hv.
Qed.

Lemma foldl_add_part_vars ρ ρ' w : ∀ a,
  vars ρ = vars ρ' → no_positional w = true →
  foldl (add_part ρ) a w = foldl (add_part ρ') a w.
Proof.
  induction w as [|p w IH]; intros a Hv Hw; simpl; [done|].
  simpl in Hw. apply andb_prop in Hw as [Hp Hw].
  rewrite (add_part_vars ρ ρ' a p Hv Hp). by apply IH.
Qed.

Lemma expand_word_vars glob ρ ρ' w :
  vars ρ = vars ρ' → no_positional w = true →
  expand_word glob ρ w = expand_word glob ρ' w.
Proof.
  intros Hv Hw. unfold expand_word. by rewrite (foldl_add_part_vars ρ ρ' w _ Hv Hw).
Qed.

Lemma expand_words_vars glob ρ ρ' ws :
  vars ρ = vars ρ' → forallb no_positional ws = true →
  flat_map (expand_word glob ρ) ws = flat_map (expand_word glob ρ') ws.
Proof.
  intros Hv. induction ws as [|w ws IH]; intros Hws; simpl; [done|].
  simpl in Hws. apply andb_prop in Hws as [Hw Hws].
  by rewrite (expand_word_vars glob ρ ρ' w Hv Hw), IH.
Qed.

Lemma after_assignment_vars args :
  vars (after_assignment args) = {[ "study" := default "" (head args) ]}.
Proof.
  unfold after_assignment. cbn [vars]. unfold expand_value, param_value.
  cbn [foldr positional]. rewrite append_nil_r. by destruct args.
Qed.

(** Splitting keeps blanks out of the fields. *)
Lemma add_char_clean c a :
  is_ifs c = false → clean a = true → clean (add_char c false a) = true.
Proof.
  unfold clean, add_char. cbn [finished current from_option].
  intros Hc Ha. apply andb_prop in Ha as [Hf Hcur]. rewrite Hf. cbn [andb].
  destruct (current a) as [[t g]|]; cbn [from_option] in *.
  - unfold clean_field in *. cbn [fst snd] in *.
    apply andb_prop in Hcur as [Ht Hg]. rewrite orb_false_r, Hg, andb_true_r.
    clear -Ht Hc. induction t as [|x t IH]; simpl in *.
    + by rewrite Hc.
    + apply andb_prop in Ht as [Hx Ht]. rewrite Hx. cbn [andb]. by apply IH.
  - unfold clean_field. cbn. by rewrite Hc.
Qed.

Lemma end_field_clean a : clean a = true → clean (end_field a) = true.
Proof.
  unfold clean, end_field. intros Ha. apply andb_prop in Ha as [Hf Hcur].
  destruct (current a) as [f|] eqn:E; cbn [finished current from_option] in *.
  - by rewrite forallb_app, Hf, andb_true_r; cbn; rewrite Hcur.
  - by rewrite Hf, E.
Qed.

Lemma add_literal_clean s : ∀ a,
  no_blank s = true → clean a = true → clean (add_literal s a) = true.
Proof.
  induction s as [|c s IH]; intros a Hs Ha; simpl in *; [done|].
  apply andb_prop in Hs as [Hc Hs]. apply negb_true_iff in Hc.
  apply IH; [done|]. by apply add_char_clean.
Qed.

Lemma add_unquoted_clean s : ∀ a,
  no_glob s = true → clean a = true → clean (add_unquoted s a) = true.
Proof.
  induction s as [|c s IH]; intros a Hs Ha; simpl in *; [done|].
  apply andb_prop in Hs as [Hc Hs]. apply negb_true_iff in Hc.
  apply IH; [done|]. destruct (is_ifs c) eqn:E.
  - by apply end_field_clean.
  - rewrite Hc. by apply add_char_clean.
Qed.

Lemma add_part_clean ρ a p :
  match p with Lit s | Quoted s => no_blank s | _ => no_glob (param_value p ρ) end = true →
  clean a = true → clean (add_part ρ a p) = true.
Proof.
  intros Hp Ha. destruct p as [s|s|n|x]; cbn [add_part].
  - by apply add_literal_clean.
  - apply add_literal_clean; [done|].
    unfold clean in *. cbn [finished current from_option].
    apply andb_prop in Ha as [Hf Hcur]. rewrite Hf. cbn [andb].
    by destruct (current a).
  - by apply add_unquoted_clean.
  - by apply add_unquoted_clean.
Qed.

Lemma foldl_add_part_clean ρ w : ∀ a,
  forallb (λ p, match p with
                | Lit s | Quoted s => no_blank s
                | _ => no_glob (param_value p ρ)
                end) w = true →
  clean a = true → clean (foldl (add_part ρ) a w) = true.
Proof.
  induction w as [|p w IH]; intros a Hw Ha; simpl in *; [done|].
  apply andb_prop in Hw as [Hp Hw]. apply IH; [done|]. by apply add_part_clean.
Qed.

Lemma expand_clean glob (fs : list field) :
  forallb clean_field fs = true →
  Forall (λ s, no_blank s = true) (flat_map (pathname_expansion glob) fs).
Proof.
  induction fs as [|[t g] fs IH]; intros H; simpl in *; [constructor|].
  apply andb_prop in H as [Hf H]. unfold clean_field in Hf. cbn in Hf.
  apply andb_prop in Hf as [Ht Hg]. apply negb_true_iff in Hg. subst g.
  unfold pathname_expansion. cbn. constructor; [done|]. by apply IH.
Qed.

Lemma expand_word_no_blank glob ρ w :
  forallb (λ p, match p with
                | Lit s | Quoted s => no_blank s
                | _ => no_glob (param_value p ρ)
                end) w = true →
  Forall (λ s, no_blank s = true) (expand_word glob ρ w).
Proof.
  intros Hw. unfold expand_word. apply expand_clean.
  assert (H : clean (end_field (foldl (add_part ρ) (mkFields [] None) w)) = true).
  { apply end_field_clean. by apply foldl_add_part_clean. }
  unfold clean in H. by apply andb_prop in H as [? _].
Qed.

Lemma no_blank_app a b : no_blank (a ++ b) = no_blank a && no_blank b.
Proof.
  induction a as [|c a IH]; simpl; [done|]. by rewrite IH, andb_assoc.
Qed.

End Shell_more.

Module Shell_patterns.

Import Shell Shell_facts.
Local Open Scope string_scope.

(** Without blanks an expansion is one piece of the field it stands in,
    and makes it a pattern when it holds a pattern character. *)
Lemma add_unquoted_no_blank s : ∀ fin t g,
  no_blank s = true →
  add_unquoted s (mkFields fin (Some (t, g)))
  = mkFields fin (Some (t ++ s, g || negb (no_glob s))).
Proof.
  induction s as [|c s IH]; intros fin t g Hs; simpl in *.
  - by rewrite append_nil_r, orb_false_r.
  - apply andb_prop in Hs as [Hc Hs]. apply negb_true_iff in Hc. rewrite Hc.
    unfold add_char. cbn [finished current]. rewrite IH by done.
    rewrite append_assoc. cbn [append]. f_equal. f_equal. f_equal.
    destruct g, (is_glob c), (no_glob s); done.
Qed.

End Shell_patterns.

Section Wrapper_argument.

Import Shell.
Local Open Scope string_scope.


(** X14.  The wrapper reads its first argument and nothing else: further
    arguments are ignored, and a missing argument is an empty one, so the
    driver is started for the study [bp_] all the same. *)
Theorem run_script_reads_first_argument_only
    (glob : string → list string) (spawn : list string → Z) (args : list string) :
  let st := run glob spawn run_script args in
  let st' := run glob spawn run_script [default "" (head args)] in
  processes st = processes st' ∧ status st = status st' ∧
  vars (environment st) = vars (environment st').
Proof.
  cbv zeta. rewrite !Shell_facts.run_script_unfold.
  unfold run_command. cbn [environment].
  assert (Hv : vars (after_assignment args)
               = vars (after_assignment [default "" (head args)])).
  { by rewrite !Shell_more.after_assignment_vars. }
  rewrite (Shell_more.expand_words_vars glob _ _ driver_words Hv) by reflexivity.
  destruct (flat_map _ driver_words); cbn [processes status environment]; done.
Qed.

(** X15.  The wrapper expands [${study}] without quotes.  For an argument
    without pattern characters, the driver gets the command line that is
    meant, with [bp_<study>] as one word, exactly when the argument holds
    no blank; an argument with a blank is split into several words. *)
Theorem run_script_intended_iff_no_blank
    (glob : string → list string) (spawn : list string → Z) (args : list string) :
  let study := default "" (head args) in
  no_glob study = true →
  (processes (run glob spawn run_script args) = [driver_argv study]
   ↔ no_blank study = true).
Proof.
  intros study Hglob. split.
  - intros Hp. rewrite Shell_facts.run_script_unfold in Hp.
    unfold run_command in Hp. cbn [environment] in Hp.
    assert (Hargv : flat_map (expand_word glob (after_assignment args)) driver_words
                    = driver_argv study).
    { destruct (flat_map _ driver_words); cbn [processes app] in Hp; [done|].
      congruence. }
    assert (Hwords : Forall (λ s, no_blank s = true)
                       (flat_map (expand_word glob (after_assignment args)) driver_words)).
    { apply Forall_flat_map. unfold driver_words. cbn [run_script].
      repeat constructor; apply Shell_more.expand_word_no_blank;
        cbn [forallb andb no_blank]; rewrite ?Shell_facts.study_value; fold study;
        rewrite ?Hglob; reflexivity. }
    rewrite Hargv in Hwords. unfold driver_argv in Hwords.
    rewrite List.Forall_forall in Hwords.
    specialize (Hwords ("bp_" ++ study)). rewrite Shell_more.no_blank_app in Hwords.
    apply Hwords. do 6 right. by left.
  - intros Hblank.
    apply (Shell_facts.run_script_plain glob spawn args).
    fold study. by rewrite Shell_more.plain_split, Hblank, Hglob.
Qed.

Lemma run_script_intended_iff_no_blank_witness :
  processes (run (λ _, []) (λ _, 0) run_script ["fashion mnist"])
  = [driver_argv "fashion mnist"]
  ↔ no_blank "fashion mnist" = true.
Proof.
  apply (run_script_intended_iff_no_blank (λ _, []) (λ _, 0) ["fashion mnist"]).
  reflexivity.
Defined.

(** An argument with a blank is passed on as two words, twice. *)
Example run_script_splits_blanks :
  processes (run (λ _, []) (λ _, 0) run_script ["fashion mnist"])
  = [ ["python"; "-m"; "stune"; "--exe"; "bp_hypertune";
       "--study"; "bp_fashion"; "mnist";
       "--gpus"; "0,1,2,3,4,5,6,7"; "--n_trials"; "32:8"; "--tuner"; "ssh";
       "--config"; "bp_fashion"; "mnist_hypertune.yaml"] ].
Proof. vm_compute. reflexivity. Qed.


(** X16.  For an argument without blanks the wrapper starts the driver
    once, with the two words made from the argument, [bp_<study>] and
    [bp_<study>_hypertune.yaml]; but when the argument holds a pattern
    character, each of the two words is replaced by the names of the files
    of the working directory that match it, when there are any. *)
Theorem run_script_expands_patterns
    (glob : string → list string) (spawn : list string → Z) (args : list string) :
  let study := default "" (head args) in
  no_blank study = true →
  processes (run glob spawn run_script args) = [driver_argv_matching glob study].
Proof.
  intros study Hblank.
  assert (Hstudy : expand_word glob (after_assignment args) [Lit "bp_"; Var "study"]
                   = matches glob (negb (no_glob study)) ("bp_" ++ study)).
  { unfold expand_word. cbn [foldl add_part]. rewrite Shell_facts.study_value.
    fold study.
    change (add_literal "bp_" (mkFields [] None))
      with (mkFields [] (Some ("bp_", false))).
    rewrite Shell_patterns.add_unquoted_no_blank by done.
    cbn [end_field current finished app flat_map orb].
    unfold pathname_expansion, matches. cbn [fst snd]. by rewrite app_nil_r. }
  assert (Hconfig : expand_word glob (after_assignment args)
                      [Lit "bp_"; Var "study"; Lit "_hypertune.yaml"]
                    = matches glob (negb (no_glob study))
                        ("bp_" ++ study ++ "_hypertune.yaml")).
  { unfold expand_word. cbn [foldl add_part]. rewrite Shell_facts.study_value.
    fold study.
    change (add_literal "bp_" (mkFields [] None))
      with (mkFields [] (Some ("bp_", false))).
    rewrite Shell_patterns.add_unquoted_no_blank by done.
    rewrite Shell_facts.add_literal_current.
    cbn [end_field current finished app flat_map orb].
    unfold pathname_expansion, matches. cbn [fst snd].
    by rewrite app_nil_r, Shell_facts.append_assoc. }
  assert (Hargv : flat_map (expand_word glob (after_assignment args)) driver_words
                  = driver_argv_matching glob study).
  { unfold driver_words. cbn [run_script flat_map].
    rewrite Hstudy, Hconfig. unfold driver_argv_matching.
    change (expand_word glob (after_assignment args) [Lit ?s]) with [s].
    change (expand_word glob (after_assignment args) [Quoted ?s]) with [s].
    cbn [app]. by rewrite app_nil_r. }
  rewrite Shell_facts.run_script_unfold. unfold run_command. cbn [environment].
  rewrite Hargv. unfold driver_argv_matching at 1. cbn [app]. done.
Qed.

Lemma run_script_expands_patterns_witness :
  processes (run two_configs (λ _, 0) run_script ["*"])
  = [ ["python"; "-m"; "stune"; "--exe"; "bp_hypertune";
       "--study"; "bp_cifar10_hypertune.yaml"; "bp_mnist_hypertune.yaml";
       "--gpus"; "0,1,2,3,4,5,6,7"; "--n_trials"; "32:8"; "--tuner"; "ssh";
       "--config"; "bp_cifar10_hypertune.yaml"; "bp_mnist_hypertune.yaml"] ].
Proof.
  exact (run_script_expands_patterns two_configs (λ _, 0) ["*"] eq_refl).
Defined.

End Wrapper_argument.

(** ** The defaults of the sampling specifications *)

Section Sample_spaces.

Import Yaml.
Local Open Scope string_scope.

(** X17.  In every experiment configuration record, the default of a
    sampling specification is a value of its sample space: one of the
    choices when the space is categorical; between the two bounds, and on
    the grid of the step when there is one, when it is a float space. *)
Theorem defaults_in_sample_space (cfg : yaml) (path : list string) (hp : yaml) :
  In cfg experiment_configs →
  In (path, hp) (hyperparameters cfg) →
  annotated hp = true →
  default_in_space hp = true.
Proof.
  intros Hcfg Hhp Hann.
  assert (Hall : forallb (λ cfg, forallb (λ n, default_in_space n.2)
                                   (sampling_specifications cfg))
                   experiment_configs = true) by (vm_compute; reflexivity).
  rewrite forallb_forall in Hall. specialize (Hall cfg Hcfg).
  rewrite forallb_forall in Hall. apply (Hall (path, hp)).
  unfold sampling_specifications. apply filter_In. by split.
Qed.

Lemma defaults_in_sample_space_witness :
  default_in_space (momentum_spec (YNum 15 (-2))) = true.
Proof.
  apply (defaults_in_sample_space pc_mnist_adamw_hypertune
           ["hp"; "optim"; "x"; "momentum"] (momentum_spec (YNum 15 (-2)))).
  - right. left. reflexivity.
  - apply (nth_error_In _ 31). reflexivity.
  - reflexivity.
Defined.

(** The check is not empty: the four hypertune records hold 23
    specifications, and a default off the grid or out of the bounds is
    refused. *)
Example sampling_specifications_count :
  map (λ cfg, length (sampling_specifications cfg)) experiment_configs
  = [0; 5; 5; 7; 6]%nat.
Proof. vm_compute. reflexivity. Qed.

Example default_off_grid :
  default_in_space (momentum_spec (YNum 16 (-2))) = false
  ∧ default_in_space (momentum_spec (YNum 1 0)) = false
  ∧ default_in_space (act_fn_spec "sigmoid") = false.
Proof. repeat split. Qed.

End Sample_spaces.

(** ** The release workflow *)

Module Workflow_facts.

Import Workflow.

Lemma execute_ran succeeds todo :
  ∀ s, In s (execute succeeds todo).1 →
  ∃ before after, todo = (before ++ s :: after)%list
                  ∧ forallb succeeds before = true.
Proof.
  induction todo as [|t todo IH]; intros s; simpl; [done|].
  destruct (succeeds t) eqn:E.
  - destruct (execute succeeds todo) as [ran ok]. simpl in *.
    intros [<-|Hs].
    + by exists [], todo.
    + destruct (IH s Hs) as (before & after & -> & Hb).
      exists (t :: before), after. simpl. by rewrite E.
  - intros [<-|[]]. by exists [], todo.
Qed.

Lemma execute_ok succeeds todo :
  (execute succeeds todo).2 = forallb succeeds todo.
Proof.
  induction todo as [|t todo IH]; simpl; [done|].
  destruct (succeeds t); [|done].
  destruct (execute succeeds todo) as [ran ok]. simpl in *. done.
Qed.

End Workflow_facts.

(** X18.  In the release workflow the package is published only after
    everything else went well: [poetry publish] runs exactly when the
    checkout, the set-up of Python, the installation of Poetry, the cache,
    the configuration of the token and [poetry build] have all succeeded,
    and the job succeeds exactly when all seven steps do.  The PyPI token
    is read by one step only, the one that configures Poetry, and is given
    to no action of the marketplace. *)
Theorem publish_runs_after_build_succeeds (succeeds : Workflow.job_step → bool) :
  let r := Workflow.run_job succeeds Workflow.build_n_publish in
  (In Workflow.publish r.1 ↔
   forallb succeeds [Workflow.checkout; Workflow.set_up_python;
                     Workflow.install_poetry; Workflow.cache_poetry;
                     Workflow.add_token; Workflow.build] = true) ∧
  r.2 = forallb succeeds (Workflow.steps Workflow.build_n_publish) ∧
  List.filter Workflow.reads_secret (Workflow.steps Workflow.build_n_publish)
  = [Workflow.add_token].
Proof.
  cbv zeta. split; [|split; [apply Workflow_facts.execute_ok|reflexivity]].
  unfold Workflow.run_job. cbn [Workflow.steps Workflow.build_n_publish]. split.
  - intros H. apply Workflow_facts.execute_ran in H as (before & after & Heq & Hb).
    assert (before = [Workflow.checkout; Workflow.set_up_python;
                      Workflow.install_poetry; Workflow.cache_poetry;
                      Workflow.add_token; Workflow.build]) as <-; [|done].
    clear Hb.
    do 6 (destruct before as [|? before];
          [discriminate Heq|injection Heq as <- Heq]).
    destruct before as [|? before]; [done|].
    injection Heq as _ Heq. by destruct before.
  - cbn [forallb Workflow.execute]. intros H.
    repeat (apply andb_prop in H as [-> H]). cbn.
    destruct (succeeds Workflow.publish); cbn; do 6 right; by left.
Qed.
